(** * macrop: the model-diff tool and the Workday mailbox-ingest pipeline

    A shallow embedding of [compare_models.py] and [email_processor.py].
    Python functions become monadic Rocq functions over an explicit world
    (printed lines, files, calls made to external services); what the
    scripts delegate to git, dbt, the filesystem, the spreadsheet service
    and the clock is taken through oracles, so that every theorem holds
    for every behaviour of those services. *)

From Stdlib Require Import ZArith NArith Ascii Lia.
From Stdlib Require String DecimalString DecimalNat.
From stdpp Require Import base option list strings gmap.

(** ** Python values, exceptions and the statement monad *)

Module Py.

(** The [str] / [bytes] distinction matters to attribute lookup. *)
Inductive pyval :=
| PyStr (s : string)
| PyBytes (b : string)
| PyNone.

Inductive exn :=
| CalledProcessError (returncode : Z) (stdout stderr : pyval)
| ValueError (msg : string)
| AttributeError (msg : string)
| UnboundLocalError (msg : string)
| NameError (msg : string)
| KeyError (msg : string)
| OSError (msg : string)
| APIError (msg : string)
| SystemExit (code : Z).

(** [except Exception] catches everything but [SystemExit], which derives
    from [BaseException] only. *)
Definition is_Exception (e : exn) : bool :=
  match e with SystemExit _ => false | _ => true end.

Definition is_CalledProcessError (e : exn) : bool :=
  match e with CalledProcessError _ _ _ => true | _ => false end.

Definition exn_str (e : exn) : string :=
  match e with
  | CalledProcessError rc _ _ => "Command returned non-zero exit status"
      (* the command line and the status are part of the real text *)
  | ValueError m | AttributeError m | UnboundLocalError m
  | NameError m | KeyError m | OSError m | APIError m => m
  | SystemExit _ => "SystemExit"
  end.

Inductive result (A : Type) :=
| Ok (a : A)
| Raise (e : exn).
Arguments Ok {A} a.
Arguments Raise {A} e.

(** What an outside service (the filesystem, a web API) answers: a value,
    or a failure that the caller sees as an exception derived from
    [Exception]. *)
Inductive service (A : Type) :=
| Done (a : A)
| Failed (msg : string).
Arguments Done {A} a.
Arguments Failed {A} msg.

Definition service_result {A} (cls : string -> exn) (r : service A)
    : result A :=
  match r with
  | Done a => Ok a
  | Failed msg => Raise (cls msg)
  end.

(** Statements: a world in, a value or a raised exception and a world out. *)
Definition M (W A : Type) : Type := W -> result A * W.

Definition ret {W A} (a : A) : M W A := fun w => (Ok a, w).
Definition raise {W A} (e : exn) : M W A := fun w => (Raise e, w).
Definition bind {W A B} (m : M W A) (k : A -> M W B) : M W B :=
  fun w => match m w with
           | (Ok a, w1) => k a w1
           | (Raise e, w1) => (Raise e, w1)
           end.

(** [try: body / except ...: h e]. The handler decides which classes it
    takes (re-raising the others); what the handler itself raises leaves
    the statement: sibling clauses of the same [try] do not see it. *)
Definition try_except {W A} (body : M W A) (h : exn -> M W A) : M W A :=
  fun w => match body w with
           | (Ok a, w1) => (Ok a, w1)
           | (Raise e, w1) => h e w1
           end.

(** [try: body / finally: fin]: [fin] always runs; an exception of [fin]
    replaces the outcome of [body]. *)
Definition try_finally {W A} (body : M W A) (fin : M W unit) : M W A :=
  fun w => match body w with
           | (r, w1) => match fin w1 with
                        | (Ok _, w2) => (r, w2)
                        | (Raise e, w2) => (Raise e, w2)
                        end
           end.

(** Function bodies whose handlers read the local variables: the body
    runs over the world paired with the locals [L], and the handler or the
    [finally] block gets the locals as the body left them. *)
Definition lift {W L A} (m : M W A) : M (W * L) A :=
  fun s => match m (fst s) with (r, w1) => (r, (w1, snd s)) end.

Definition get_locals {W L} : M (W * L) L := fun s => (Ok (snd s), s).

Definition set_locals {W L} (f : L -> L) : M (W * L) unit :=
  fun s => (Ok tt, (fst s, f (snd s))).

Definition try_except_locals {W L A} (l0 : L) (body : M (W * L) A)
    (h : L -> exn -> M W A) : M W A :=
  fun w => match body (w, l0) with
           | (Ok a, s) => (Ok a, fst s)
           | (Raise e, s) => h (snd s) e (fst s)
           end.

Definition try_finally_locals {W L A} (l0 : L) (body : M (W * L) A)
    (fin : L -> M W unit) : M W A :=
  fun w => match body (w, l0) with
           | (r, s) => match fin (snd s) (fst s) with
                       | (Ok _, w2) => (r, w2)
                       | (Raise e, w2) => (Raise e, w2)
                       end
           end.

(** [for x in xs: body x], left to right, stopping at the first exception. *)
Fixpoint for_each {W A} (xs : list A) (body : A -> M W unit) : M W unit :=
  match xs with
  | [] => ret tt
  | x :: rest => bind (body x) (fun _ => for_each rest body)
  end.

(** [sys.exit(code)] *)
Definition sys_exit {W A} (code : Z) : M W A := raise (SystemExit code).

(** [v.decode()]: only [bytes] has the method. *)
Definition decode {W} (v : pyval) : M W string :=
  match v with
  | PyBytes b => ret b
  | PyStr _ => raise (AttributeError "'str' object has no attribute 'decode'")
  | PyNone => raise (AttributeError "'NoneType' object has no attribute 'decode'")
  end.

(** Reading a local variable that no executed statement has bound. *)
Definition read_local {W A} (name : string) (v : option A) : M W A :=
  match v with
  | Some a => ret a
  | None => raise (UnboundLocalError
      ("cannot access local variable '" +:+ name +:+ "' where it is not associated with a value"))
  end.

End Py.

Export Py.

Notation "x <- m ;; k" := (bind m (fun x => k))
  (at level 90, m at level 80, right associativity).
Notation "m ;;; k" := (bind m (fun _ => k))
  (at level 90, right associativity).

(** ** Strings *)

Module Str.

Definition chars (s : string) : list ascii := String.list_ascii_of_string s.
Definition of_chars (l : list ascii) : string := String.string_of_list_ascii l.

(** [s.endswith(suf)] *)
Definition endswith (s suf : string) : bool :=
  bool_decide (chars suf `suffix_of` chars s).

(** [s.startswith(pre)] *)
Definition startswith (s pre : string) : bool :=
  bool_decide (chars pre `prefix_of` chars s).

(** [sep.join(xs)] *)
Fixpoint join (sep : string) (xs : list string) : string :=
  match xs with
  | [] => ""
  | [x] => x
  | x :: rest => x +:+ sep +:+ join sep rest
  end.

(** The white space that [str.strip] removes, among the code points
    below 256. *)
Definition is_space (c : ascii) : bool :=
  let n := nat_of_ascii c in
  (((9 <=? n) && (n <=? 13)) || ((28 <=? n) && (n <=? 32))
   || (n =? 133) || (n =? 160))%nat.

Fixpoint drop_while {A} (p : A -> bool) (l : list A) : list A :=
  match l with
  | [] => []
  | x :: rest => if p x then drop_while p rest else l
  end.

(** [s.strip()] *)
Definition strip (s : string) : string :=
  of_chars (rev (drop_while is_space (rev (drop_while is_space (chars s))))).

(** [s.rfind(c)] as the number of characters after the last [c], when
    there is one. *)
Fixpoint find_index (c : ascii) (l : list ascii) : option nat :=
  match l with
  | [] => None
  | x :: rest => if Ascii.eqb x c then Some 0
                 else option_map S (find_index c rest)
  end.

Definition after_last (c : ascii) (l : list ascii) : option nat :=
  find_index c (rev l).

(** [s.split(sep)] for a one-character separator. *)
Fixpoint split_on (sep : ascii) (l : list ascii) : list (list ascii) :=
  match l with
  | [] => [[]]
  | x :: rest =>
      if Ascii.eqb x sep then [] :: split_on sep rest
      else match split_on sep rest with
           | [] => [[x]]
           | cur :: more => (x :: cur) :: more
           end
  end.

Definition split (sep : ascii) (s : string) : list string :=
  map of_chars (split_on sep (chars s)).

(** [str(n)] for an [int] *)
Definition of_nat (n : nat) : string :=
  DecimalString.NilEmpty.string_of_uint (Nat.to_uint n).

Definition of_Z (z : Z) : string :=
  DecimalString.NilZero.string_of_int (Z.to_int z).

(** [sub in s] *)
Fixpoint contains_chars (sub l : list ascii) : bool :=
  bool_decide (sub `prefix_of` l) ||
  match l with
  | [] => false
  | _ :: rest => contains_chars sub rest
  end.

Definition contains (sub s : string) : bool :=
  contains_chars (chars sub) (chars s).

End Str.

(** ** [pathlib] paths *)

Module PathLib.

(** A path is its [parts]: an absolute path starts with the part ["/"],
    the empty list is ["."]. *)
Abbreviation Path := (list string).

Definition is_absolute (p : Path) : bool :=
  match p with
  | root :: _ => String.eqb root "/"
  | [] => false
  end.

(** [Path(s)]: empty and ["."] components are dropped. *)
Definition Path_of_string (s : string) : Path :=
  let comps :=
    filter (fun c => c ≠ "" ∧ c ≠ ".") (Str.split "/"%char s) in
  if Str.startswith s "/" then "/" :: comps else comps.

(** [str(p)] *)
Definition to_string (p : Path) : string :=
  match p with
  | [] => "."
  | root :: rest =>
      if String.eqb root "/" then "/" +:+ Str.join "/" rest
      else Str.join "/" p
  end.

(** [p.parent]: the root and ["."] are their own parents. *)
Definition parent (p : Path) : Path :=
  match p with
  | [root] => if String.eqb root "/" then p else []
  | _ => removelast p
  end.

(** [p / s] *)
Definition div (p : Path) (s : string) : Path :=
  let q := Path_of_string s in
  if is_absolute q then q else p ++ q.

(** [p.name] *)
Definition name (p : Path) : string :=
  match p with
  | [root] => if String.eqb root "/" then "" else root
  | _ => List.last p ""
  end.

(** Length of [PurePath.suffix] of a file name: the last dot counts only
    when it is neither the first nor the last character. *)
Definition suffix_len (nm : string) : nat :=
  let l := Str.chars nm in
  match Str.after_last "."%char l with
  | Some k => if ((0 <? k) && (k + 1 <? length l))%nat then S k else 0
  | None => 0
  end.

Definition stem_of_name (nm : string) : string :=
  let l := Str.chars nm in
  Str.of_chars (take (length l - suffix_len nm) l).

(** [p.stem] *)
Definition stem (p : Path) : string := stem_of_name (name p).

(** [p.with_suffix(suf)]: [ValueError] on a path without a name. *)
Definition with_suffix (p : Path) (suf : string) : option Path :=
  let nm := name p in
  if String.eqb nm "" then None
  else Some (removelast p ++ [stem_of_name nm +:+ suf]).

(** [p.relative_to(q)]: [ValueError] unless [q] is a prefix of [p]. *)
Definition relative_to (p q : Path) : option Path :=
  if bool_decide (q `prefix_of` p) then Some (drop (length q) p) else None.

End PathLib.

Export PathLib.

Definition nl : string := String (ascii_of_nat 10) "".

(** ** compare_models.py *)

Module CompareModels.

(** What the tool writes; the text of a temporary model is the config
    block followed by [content] with [ref('original_name')] replaced by
    [ref('temp_name')], the text of the macro is the template with the two
    model names spliced in. *)
Inductive contents :=
| Text (s : string)
| TempModel (content original_name temp_name : string)
| ComparisonMacro (model1_name model2_name : string).

Record World := mkWorld {
  cwd : Path;                       (* [Path.cwd()], absolute *)
  files : gmap Path contents;       (* regular files, by absolute path *)
  stdout : list string;             (* what [print] wrote, oldest first *)
  calls : nat;                      (* subprocesses started so far *)
}.

Definition set_files (f : gmap Path contents -> gmap Path contents)
    (w : World) : World :=
  mkWorld (cwd w) (f (files w)) (stdout w) (calls w).

Definition absolute (w : World) (p : Path) : Path :=
  if is_absolute p then p else cwd w ++ p.

(** [p.exists()] *)
Definition exists_in (w : World) (p : Path) : bool :=
  bool_decide (is_Some (files w !! absolute w p)).

Inductive proc_outcome :=
| ProcNotStarted (msg : string)              (* e.g. executable not found *)
| ProcExit (rc : Z) (out err : string).

Inductive write_outcome :=
| Written
| FailedNoFile (msg : string)    (* [mkdir] or [open] raised *)
| FailedFileLeft (msg : string). (* [write] raised after [open] created the file *)

(** The services the tool calls. Each answer may depend on the whole
    world at the time of the call. *)
Record Env := mkEnv {
  run_process : World -> list string -> option Path -> proc_outcome;
  rglob : World -> Path -> string -> service (list Path);
  read_text : World -> Path -> service string;
  write_text : World -> Path -> write_outcome;
  os_remove : World -> Path -> service unit;
  temp_directory : World -> Path;                    (* [TemporaryDirectory()] *)
  copytree : World -> Path -> Path -> service unit;
  rmtree_if_exists : World -> Path -> service unit;
  persist_results : World -> string -> string -> string -> service unit;
}.

Section WithEnv.
Context (env : Env).

Definition get_world : M World World := fun w => (Ok w, w).

Definition print (line : string) : M World unit :=
  fun w => (Ok tt, mkWorld (cwd w) (files w) (stdout w ++ [line]) (calls w)).

(** A call to the filesystem; its failures are [OSError]s. *)
Definition of_io {A} (f : World -> service A) : M World A :=
  fun w => (service_result OSError (f w), w).

Definition path_exists (p : Path) : M World bool :=
  fun w => (Ok (exists_in w p), w).

(** [with open(p, 'w') as f: f.write(c)] *)
Definition write_file (p : Path) (c : contents) : M World unit :=
  fun w => match write_text env w p with
           | Written => (Ok tt, set_files (insert (absolute w p) c) w)
           | FailedNoFile msg => (Raise (OSError msg), w)
           | FailedFileLeft msg =>
               (Raise (OSError msg),
                set_files (insert (absolute w p) (Text "")) w)
           end.

(** [os.remove(p)] *)
Definition remove (p : Path) : M World unit :=
  fun w => match os_remove env w p with
           | Done _ => (Ok tt, set_files (delete (absolute w p)) w)
           | Failed msg => (Raise (OSError msg), w)
           end.

Record CompletedProcess := mkCompleted {
  returncode : Z;
  cp_stdout : pyval;
  cp_stderr : pyval;
}.

(** [subprocess.run(cmd, cwd=..., capture_output=..., text=..., check=...)]:
    captured streams are [str] in text mode and [bytes] otherwise. *)
Definition subprocess_run (cmd : list string) (dir : option Path)
    (capture_output text check : bool) : M World CompletedProcess :=
  fun w =>
    let w1 := mkWorld (cwd w) (files w) (stdout w) (S (calls w)) in
    match run_process env w cmd dir with
    | ProcNotStarted msg => (Raise (OSError msg), w1)
    | ProcExit rc out err =>
        let wrap s := if capture_output
                      then (if text then PyStr s else PyBytes s)
                      else PyNone in
        if check && negb (rc =? 0)%Z
        then (Raise (CalledProcessError rc (wrap out) (wrap err)), w1)
        else (Ok (mkCompleted rc (wrap out) (wrap err)), w1)
    end.

Definition str_of (v : pyval) : string :=
  match v with PyStr s | PyBytes s => s | PyNone => "None" end.

(** The [while current != current.parent] loop of [find_model_path] and
    [main]: the nearest ancestor of [current], the root excluded, that
    holds [dbt_project.yml]. [None] is the loop ending without [break]. *)
Fixpoint find_project_root (w : World) (fuel : nat) (current : Path)
    : option Path :=
  match fuel with
  | O => None
  | S fuel' =>
      if bool_decide (current = parent current) then None
      else if exists_in w (div current "dbt_project.yml") then Some current
      else find_project_root w fuel' (parent current)
  end.

Definition project_root_of (w : World) : option Path :=
  find_project_root w (S (length (cwd w))) (cwd w).

(** Lines 33-48: the search under [models]. *)
Definition search_models (project_root : Path) (model_name : string)
    : M World (option Path) :=
  let models_dir := div project_root "models" in
  matches <- of_io (fun w =>
      rglob env w models_dir ("*" +:+ model_name +:+ ".sql")) ;;
  match matches with
  | [] => print ("Could not find model " +:+ model_name) ;;; ret None
  | first :: _ =>
      if (1 <? length matches)%nat then
        print ("Found multiple matches for " +:+ model_name +:+ ":") ;;;
        for_each matches (fun m => print ("  " +:+ to_string m)) ;;;
        print "Please specify the model more precisely" ;;;
        ret None
      else ret (Some first)
  end.

Definition find_model_path (model_name : string) : M World (option Path) :=
  try_except
    (w <- get_world ;;
     match project_root_of w with
     | None => print "Could not find dbt_project.yml" ;;; ret None
     | Some project_root =>
         if Str.endswith model_name ".sql" then
           let path := Path_of_string model_name in
           found <- path_exists path ;;
           if found then ret (Some path)
           else search_models project_root (stem path)
         else search_models project_root model_name
     end)
    (fun e =>
       if is_Exception e
       then print ("Error in find_model_path: " +:+ exn_str e) ;;; ret None
       else raise e).

(** Lines 54-87. The handlers see [relative_path] as the body left it:
    unbound when [git rev-parse] is what failed. *)
Definition main_branch_handler (relative_path : option Path) (e : exn)
    : M World (option string) :=
  match e with
  | CalledProcessError _ _ stderr =>
      rp <- read_local "relative_path" relative_path ;;
      print ("Warning: Could not find " +:+ to_string rp +:+ " in main branch") ;;;
      msg <- decode stderr ;;
      print ("Git error: " +:+ msg) ;;;
      ret None
  | _ =>
      if is_Exception e
      then print ("Error accessing main branch content: " +:+ exn_str e) ;;;
           ret None
      else raise e
  end.

Definition get_main_branch_content (model_path : Path)
    : M World (option string) :=
  try_except_locals (None : option Path)
    (top <- lift (subprocess_run ["git"; "rev-parse"; "--show-toplevel"] None
                    true true true) ;;
     let git_root := Str.strip (str_of (cp_stdout top)) in
     let git_root_path := Path_of_string git_root in
     let relative_path :=
       match relative_to model_path git_root_path with
       | Some r => r
       | None => model_path
       end in
     set_locals (fun _ => Some relative_path) ;;;
     lift (print ("Looking for file in main branch at: "
                  +:+ to_string relative_path)) ;;;
     shown <- lift (subprocess_run
                      ["git"; "show"; "main:" +:+ to_string relative_path] None
                      true true true) ;;
     ret (Some (str_of (cp_stdout shown))))
    main_branch_handler.

(** Lines 89-116. [None] stands for the pair [(None, None)]. *)
Definition create_temp_model (content suffix original_name : string)
    (model_dir : Path) : M World (option (Path * string)) :=
  try_except
    (let temp_name := "temp_" +:+ original_name +:+ "_" +:+ suffix in
     let analysis_dir := div model_dir "analysis" in
     let temp_path := div analysis_dir (temp_name +:+ ".sql") in
     write_file temp_path (TempModel content original_name temp_name) ;;;
     ret (Some (temp_path, temp_name)))
    (fun e =>
       if is_Exception e
       then print ("Error creating temporary model: " +:+ exn_str e) ;;;
            ret None
       else raise e).

(** Lines 118-222: the template always goes to the same relative path. *)
Definition macro_file : Path := ["macros"; "compare_versions.sql"].

Definition create_comparison_macro (model1_name model2_name : string)
    : M World Path :=
  let macros_dir := Path_of_string "macros" in
  let macro_path := div macros_dir "compare_versions.sql" in
  write_file macro_path (ComparisonMacro model1_name model2_name) ;;;
  ret macro_path.

(** Lines 224-251. *)
Definition get_immediate_downstream_models (model_name : string)
    : M World (list string) :=
  try_except
    (subprocess_run ["dbt"; "deps"] None true true true ;;;
     listed <- subprocess_run
                 ["dbt"; "list"; "--select"; model_name +:+ "+1"] None
                 true true true ;;
     let lines := Str.split (ascii_of_nat 10) (str_of (cp_stdout listed)) in
     let models := filter (fun l => l ≠ "") (map Str.strip lines) in
     ret (filter (fun m => m ≠ model_name) models))
    (fun e =>
       if is_CalledProcessError e
       then print ("Error getting downstream models: " +:+ exn_str e) ;;;
            ret []
       else raise e).

(** Lines 253-321. The result directory lies under [output_dir] and holds
    none of the temporary files; parsing and writing are left to the
    environment, which may raise (the [mkdir] before the [try]). *)
Definition save_results (results output_dir model_name : string)
    : M World unit :=
  of_io (fun w => persist_results env w results output_dir model_name).

(** The cleanup loops of lines 549-555 and 561-567. A [Path] is truthy,
    so [if path and path.exists()] skips [None] and missing files. *)
Definition cleanup_path (path : option Path) : M World unit :=
  match path with
  | None => ret tt
  | Some p =>
      found <- path_exists p ;;
      if found then
        try_except
          (remove p ;;;
           print ("Cleaned up temporary file: " +:+ to_string p))
          (fun e =>
             if is_Exception e
             then print ("Warning: Could not remove temporary file "
                         +:+ to_string p +:+ ": " +:+ exn_str e)
             else raise e)
      else ret tt
  end.

Definition cleanup_paths (paths : list (option Path)) : M World unit :=
  for_each paths cleanup_path.

(** [if not content]: [None] and the empty string are falsy. *)
Definition falsy (content : option string) : bool :=
  match content with
  | None => true
  | Some c => String.eqb c ""
  end.

Definition dbt_run (model : string) : list string :=
  ["dbt"; "run"; "--models"; model; "--target"; "dev"; "--full-refresh"].

Definition dbt_compare : list string :=
  ["dbt"; "run-operation"; "compare_versions"; "--target"; "dev"].

(** Lines 478-555: the body of the loop over the downstream models; each
    [continue] is the end of a branch. *)
Definition compare_downstream (output_dir : string) (model_dir : Path)
    (model : string) : M World unit :=
  print (nl +:+ "Comparing downstream model: " +:+ model) ;;;
  downstream_path <- find_model_path model ;;
  match downstream_path with
  | None => print ("Could not find downstream model: " +:+ model)
  | Some downstream_path =>
      main_downstream_content <- get_main_branch_content downstream_path ;;
      if falsy main_downstream_content
      then print ("Could not get main branch content for: " +:+ model)
      else
        current_downstream_content <-
          of_io (fun w => read_text env w downstream_path) ;;
        main_down <- create_temp_model (default "" main_downstream_content)
                       ("main_down_" +:+ model) model model_dir ;;
        current_down <- create_temp_model current_downstream_content
                          ("current_down_" +:+ model) model model_dir ;;
        match main_down, current_down with
        | Some (main_down_path, main_down_name),
          Some (current_down_path, current_down_name) =>
            down_macro_path <-
              create_comparison_macro main_down_name current_down_name ;;
            try_finally
              (print ("Running main branch version of: " +:+ model) ;;;
               subprocess_run (dbt_run main_down_name) None true true true ;;;
               print ("Running current branch version of: " +:+ model) ;;;
               subprocess_run (dbt_run current_down_name) None
                 true true true ;;;
               print ("Comparing versions of: " +:+ model) ;;;
               compare_result <- subprocess_run dbt_compare None
                                   true true true ;;
               save_results (str_of (cp_stdout compare_result)) output_dir
                 (model +:+ "_downstream"))
              (cleanup_paths [Some main_down_path; Some current_down_path;
                              Some down_macro_path])
        | _, _ => print ("Could not create temporary models for: " +:+ model)
        end
  end.

Record Locals := mkLocals {
  main_path : option Path;
  current_path : option Path;
  macro_path : option Path;
}.

(** [except subprocess.CalledProcessError as e: print ...; sys.exit(1)] *)
Definition exit_on_process_error (what : string) (with_streams : bool)
    (e : exn) : M World unit :=
  match e with
  | CalledProcessError _ out err =>
      print (what +:+ exn_str e) ;;;
      (if with_streams then print (str_of out) ;;; print (str_of err)
       else ret tt) ;;;
      sys_exit 1
  | _ => raise e
  end.

Definition or_else (v : pyval) (alt : string) : string :=
  match v with
  | PyStr s | PyBytes s => if String.eqb s "" then alt else s
  | PyNone => alt
  end.

(** Lines 383-557: the body of [with tempfile.TemporaryDirectory()]. *)
Definition run_comparisons (project_root : option Path)
    (output_dir original_name main_name current_name : string)
    (model_dir : Path) (include_downstream : bool) (main_dir : Path)
    : M World unit :=
  root <- read_local "project_root" project_root ;;
  of_io (fun w => copytree env w root main_dir) ;;;
  print (nl +:+ "Getting main branch version of models directory...") ;;;
  of_io (fun w => rmtree_if_exists env w (div main_dir "models")) ;;;
  try_except
    (subprocess_run ["git"; "checkout"; "main"; "--"; "models"]
       (Some main_dir) false false true ;;;
     print "Successfully copied models from main branch")
    (exit_on_process_error "Error getting models from main branch: " false) ;;;
  print (nl +:+ "Running main branch model...") ;;;
  main_result <- subprocess_run (dbt_run ("+" +:+ main_name) ++ ["--debug"])
                   (Some main_dir) true true false ;;
  print (nl +:+ "Complete command output:") ;;;
  print "==================================================" ;;;
  print "STDOUT:" ;;;
  print (or_else (cp_stdout main_result) "No stdout") ;;;
  print (nl +:+ "STDERR:") ;;;
  print (or_else (cp_stderr main_result) "No stderr") ;;;
  print "==================================================" ;;;
  (if negb (returncode main_result =? 0)%Z then
     print (nl +:+ "Full error details:") ;;;
     print ("Command: dbt run --models +" +:+ main_name
            +:+ " --target dev --full-refresh --debug") ;;;
     print ("Return code: " +:+ Str.of_Z (returncode main_result)) ;;;
     sys_exit 1
   else ret tt) ;;;
  print (nl +:+ "Running current branch model...") ;;;
  try_except
    (current_result <- subprocess_run (dbt_run ("+" +:+ current_name)) None
                         true true true ;;
     print (str_of (cp_stdout current_result)))
    (exit_on_process_error "Error running current branch model: " true) ;;;
  print (nl +:+ "Comparing versions...") ;;;
  try_except
    (compare_result <- subprocess_run dbt_compare None true true true ;;
     save_results (str_of (cp_stdout compare_result)) output_dir original_name)
    (exit_on_process_error "Error executing comparison: " true) ;;;
  if include_downstream then
    downstream_models <- get_immediate_downstream_models original_name ;;
    match downstream_models with
    | [] => print (nl +:+ "No immediate downstream models found.")
    | _ =>
        print (nl +:+ "Found " +:+ Str.of_nat (length downstream_models)
               +:+ " immediate downstream models:") ;;;
        for_each downstream_models (fun model => print ("  - " +:+ model)) ;;;
        for_each downstream_models
          (compare_downstream output_dir model_dir)
    end
  else ret tt.

(** Lines 325-567. *)
Definition main (model_name output_dir : string) (include_downstream : bool)
    : M World unit :=
  try_finally_locals (mkLocals None None None)
    (w0 <- lift get_world ;;
     let project_root := project_root_of w0 in
     model_path <- lift (find_model_path model_name) ;;
     match model_path with
     | None => sys_exit 1
     | Some model_path =>
         lift (print ("Found model at: " +:+ to_string model_path)) ;;;
         current_content <-
           lift (of_io (fun w => read_text env w model_path)) ;;
         main_content <- lift (get_main_branch_content model_path) ;;
         if falsy main_content then sys_exit 1
         else
           let model_dir := parent model_path in
           let original_name := stem model_path in
           created_main <- lift (create_temp_model (default "" main_content)
                                   "main" original_name model_dir) ;;
           set_locals (fun l => mkLocals (fst <$> created_main)
                                  (current_path l) (macro_path l)) ;;;
           created_current <- lift (create_temp_model current_content
                                      "current" original_name model_dir) ;;
           set_locals (fun l => mkLocals (main_path l)
                                  (fst <$> created_current) (macro_path l)) ;;;
           match created_main, created_current with
           | Some (_, main_name), Some (_, current_name) =>
               lift (print ("Created temporary models: " +:+ main_name
                            +:+ " and " +:+ current_name)) ;;;
               macro <- lift (create_comparison_macro main_name current_name) ;;
               set_locals (fun l => mkLocals (main_path l) (current_path l)
                                      (Some macro)) ;;;
               lift (print "Created comparison macro") ;;;
               w1 <- lift get_world ;;
               lift (run_comparisons project_root output_dir original_name
                       main_name current_name model_dir include_downstream
                       (temp_directory env w1))
           | _, _ =>
               lift (print "Failed to create temporary models") ;;;
               sys_exit 1
           end
     end)
    (fun l => cleanup_paths [main_path l; current_path l; macro_path l]).

End WithEnv.

End CompareModels.

(** ** The [compare_versions] macro

    What the template written by [create_comparison_macro] computes when
    dbt renders it: lines 125-164 of the template, as Jinja evaluates
    them. *)

Module CompareVersionsMacro.

Record Column := mkColumn { col_name : string; dtype : string }.

Record Report := mkReport {
  common_cols : list string;
  version1_only_cols : list string;
  version2_only_cols : list string;
  type_changes : list (string * string * string);
}.

Section Macro.

(** The [lower] filter. *)
Variable lower : string -> string.

(** [adapter.get_columns_in_relation(ref(name))] *)
Variable columns_in_relation : string -> list Column.

(** Jinja keeps a [set] made inside a [for] body local to that body, so
    the flags [col_in_version2] and [col_in_version1] assigned in the inner
    loops are still [false] when the outer body tests them. [true] here
    gives the other reading, where the assignment reaches the outer
    variable. *)
Variable set_escapes_loop : bool.

Definition same_name (a b : Column) : bool :=
  bool_decide (lower (col_name a) = lower (col_name b)).

(** The flag as the outer body reads it once the inner loop is over. *)
Definition flag_after_loop (inner_flag : bool) : bool :=
  if set_escapes_loop then inner_flag else false.

Definition type_change : Type := string * string * string.

(** Lines 136-148: one round of the inner loop of the first pass, on
    [common_cols], [type_changes] and the flag set in that loop. *)
Definition first_inner (col1 : Column)
    (st : list string * list type_change * bool) (col2 : Column)
    : list string * list type_change * bool :=
  let '(common, changes, flag) := st in
  if same_name col1 col2 then
    (common ++ [col_name col1],
     if bool_decide (dtype col1 ≠ dtype col2)
     then changes ++ [(col_name col1, dtype col1, dtype col2)]
     else changes,
     true)
  else st.

(** Lines 134-152: one round of the outer loop of the first pass. *)
Definition first_outer (cols2 : list Column)
    (st : list string * list string * list type_change) (col1 : Column)
    : list string * list string * list type_change :=
  let '(common, only1, changes) := st in
  let '(common', changes', flag) :=
    fold_left (first_inner col1) cols2 (common, changes, false) in
  (common',
   if flag_after_loop flag then only1 else only1 ++ [col_name col1],
   changes').

(** Lines 156-160. *)
Definition second_inner (col2 : Column) (flag : bool) (col1 : Column)
    : bool :=
  if same_name col2 col1 then true else flag.

(** Lines 154-164. *)
Definition second_outer (cols1 : list Column) (only2 : list string)
    (col2 : Column) : list string :=
  let flag := fold_left (second_inner col2) cols1 false in
  if flag_after_loop flag then only2 else only2 ++ [col_name col2].

Definition compare_columns (cols1 cols2 : list Column) : Report :=
  let '(common, only1, changes) :=
    fold_left (first_outer cols2) cols1 ([], [], []) in
  let only2 := fold_left (second_outer cols1) cols2 [] in
  mkReport common only1 only2 changes.

(** Rendering the template generated for the two model names. *)
Definition compare_versions (model1_name model2_name : string) : Report :=
  compare_columns (columns_in_relation model1_name)
                  (columns_in_relation model2_name).

(** What [dbt run-operation compare_versions] computes from the file that
    is in [macros/] at that time. *)
Definition run_operation (c : CompareModels.contents) : option Report :=
  match c with
  | CompareModels.ComparisonMacro m1 m2 => Some (compare_versions m1 m2)
  | _ => None
  end.

End Macro.

End CompareVersionsMacro.

(** ** Unicode strings and A1 notation

    [chr] reaches code points that one byte does not hold, so the range
    strings of the appender are lists of code points. *)

Module A1.

Abbreviation ustr := (list N).

Definition ustr_of (s : string) : ustr := map N_of_ascii (Str.chars s).

(** [chr(i)]: [ValueError] above the last code point. *)
Definition chr (i : nat) : option N :=
  if (N.of_nat i <=? 1114111)%N then Some (N.of_nat i) else None.

Definition digit_code (d : nat) : N := (48 + N.of_nat d)%N.

Fixpoint uint_codes (d : Decimal.uint) : ustr :=
  match d with
  | Decimal.Nil => []
  | Decimal.D0 d' => digit_code 0 :: uint_codes d'
  | Decimal.D1 d' => digit_code 1 :: uint_codes d'
  | Decimal.D2 d' => digit_code 2 :: uint_codes d'
  | Decimal.D3 d' => digit_code 3 :: uint_codes d'
  | Decimal.D4 d' => digit_code 4 :: uint_codes d'
  | Decimal.D5 d' => digit_code 5 :: uint_codes d'
  | Decimal.D6 d' => digit_code 6 :: uint_codes d'
  | Decimal.D7 d' => digit_code 7 :: uint_codes d'
  | Decimal.D8 d' => digit_code 8 :: uint_codes d'
  | Decimal.D9 d' => digit_code 9 :: uint_codes d'
  end.

(** [str(n)] as code points. *)
Definition str_nat (n : nat) : ustr := uint_codes (Nat.to_uint n).

Definition is_upper (c : N) : bool := ((65 <=? c) && (c <=? 90))%N.
Definition is_digit (c : N) : bool := ((48 <=? c) && (c <=? 57))%N.

(** Column letters in bijective base 26: A = 1, Z = 26, AA = 27. *)
Definition column_number (letters : ustr) : nat :=
  fold_left (fun acc c => 26 * acc + (N.to_nat c - 64)) letters 0.

(** The letters of column [n]; there is no column 0. *)
Fixpoint column_letters_fuel (fuel n : nat) : ustr :=
  match fuel with
  | O => []
  | S fuel' =>
      if (n =? 0)%nat then []
      else column_letters_fuel fuel' ((n - 1) / 26)
             ++ [N.of_nat (65 + (n - 1) mod 26)]
  end.

Definition column_letters (n : nat) : option ustr :=
  if (n =? 0)%nat then None else Some (column_letters_fuel n n).

Definition row_number (digits : ustr) : nat :=
  fold_left (fun acc c => 10 * acc + (N.to_nat c - 48)) digits 0.

Fixpoint span (p : N -> bool) (l : ustr) : ustr * ustr :=
  match l with
  | [] => ([], [])
  | c :: rest =>
      if p c then let '(a, b) := span p rest in (c :: a, b)
      else ([], l)
  end.

(** A cell reference: upper-case column letters, then a row number
    without sign or leading zero. The result is (row, column), from 1. *)
Definition parse_cell (s : ustr) : option (nat * nat) :=
  let '(letters, digits) := span is_upper s in
  match letters, digits with
  | _ :: _, d :: _ =>
      if forallb is_digit digits && negb (d =? 48)%N
      then Some (row_number digits, column_number letters)
      else None
  | _, _ => None
  end.

Fixpoint split_colon (s : ustr) : ustr * option ustr :=
  match s with
  | [] => ([], None)
  | c :: rest =>
      if (c =? 58)%N then ([], Some rest)
      else let '(a, b) := split_colon rest in (c :: a, b)
  end.

(** A range: one cell, or [cell:cell]. *)
Definition parse_range (s : ustr)
    : option ((nat * nat) * option (nat * nat)) :=
  match split_colon s with
  | (first, None) => c ← parse_cell first; Some (c, None)
  | (first, Some second) =>
      c1 ← parse_cell first; c2 ← parse_cell second; Some (c1, Some c2)
  end.

Definition valid (s : ustr) : bool := bool_decide (is_Some (parse_range s)).

End A1.

(** ** email_processor.py *)

Module EmailProcessor.

(** Cell values of a dataframe; [VNaN] is [np.nan]. *)
Inductive value :=
| VStr (s : string)
| VInt (z : Z)
| VNaN.

(** A dataframe: its column labels and its rows. Every row of a frame has
    one value per label ([wf]). *)
Record DataFrame := mkDF {
  columns : list string;
  rows : list (list value);
}.

Definition wf (df : DataFrame) : Prop :=
  Forall (fun r => length r = length (columns df)) (rows df).

(** [df.rename(columns=mapping)] *)
Definition rename (mapping : gmap string string) (df : DataFrame)
    : DataFrame :=
  mkDF (map (fun c => default c (mapping !! c)) (columns df)) (rows df).

(** [df[col] = v] for a scalar [v]: a new last column, or every column
    that bears the label. *)
Definition set_scalar (col : string) (v : value) (df : DataFrame)
    : DataFrame :=
  if bool_decide (col ∈ columns df) then
    mkDF (columns df)
      (map (fun r => zip_with (fun c x => if bool_decide (c = col) then v else x)
                       (columns df) r) (rows df))
  else mkDF (columns df ++ [col]) (map (fun r => r ++ [v]) (rows df)).

Definition fillna_value (fill : value) (x : value) : value :=
  match x with VNaN => fill | _ => x end.

(** [df[col] = df[col].fillna(fill)] *)
Definition fillna (col : string) (fill : value) (df : DataFrame)
    : DataFrame :=
  mkDF (columns df)
    (map (fun r => zip_with (fun c x => if bool_decide (c = col)
                                        then fillna_value fill x else x)
                     (columns df) r) (rows df)).

Inductive level := INFO | WARNING | ERROR.

(** The YAML configuration, a missing key being [None]. *)
Record Config := mkConfig {
  archive_method : option string;
  archive_local_path : option string;
  column_mapping : gmap string (gmap string string);
  loa_sheet_id : option string;
  loa_sheet_name : option string;
  to_sheet_id : option string;
  to_sheet_name : option string;
}.

(** The attributes [_init_archive] gives the processor: [archive_dir] in
    local mode, the Drive folder ids in cloud mode. *)
Record Processor := mkProcessor {
  config : Config;
  archive_dir : option Path;
  drive_folder_ids : option (gmap string string);
}.

Record Metadata := mkMetadata {
  original_filename : string;
  archived_filename : string;
  file_type : string;
  archived_timestamp : string;
  archived_by : string;
}.

Inductive data :=
| Bytes (b : string)
| Json (m : Metadata).

Record DriveFile := mkDriveFile {
  drive_name : string;
  drive_parent : string;
  drive_description : Metadata;
  drive_media : Path;
}.

Abbreviation grid := (list (list string)).

Record World := mkWorld {
  log : list (level * string);
  sheets : gmap (string * string) grid;  (* by spreadsheet key and title *)
  fs : gmap Path data;
  drive : list DriveFile;                (* files created in Drive *)
}.

Record DateTime := mkDateTime {
  year : nat; month : nat; day : nat;
  hour : nat; minute : nat; second : nat;
}.

Record Env := mkEnv {
  read_excel : World -> Path -> service DataFrame;
  time_now : World -> Z;                            (* [int(time.time())] *)
  datetime_now : World -> DateTime;
  drive_list : World -> string -> service (list string);
  drive_create : World -> DriveFile -> service string;  (* the [webViewLink] *)
}.

(** The names bound at module level: the imports of lines 1-18, [logger]
    and the class. A function body that does not assign a name finds it
    here or among the builtins, or raises [NameError]. *)
Definition module_globals : list string :=
  ["os"; "imaplib"; "email"; "decode_header"; "tempfile"; "pd"; "np";
   "logging"; "yaml"; "time"; "json"; "re"; "datetime"; "Path"; "shutil";
   "gspread"; "ServiceAccountCredentials"; "set_with_dataframe"; "logger";
   "WorkdayEmailProcessor"].

(** The names bound by the body of [_init_archive] (lines 84-168): they
    are locals of that call. *)
Definition init_archive_locals : list string :=
  ["archive_method"; "archive_dir"; "build"; "MediaFileUpload";
   "drive_service"; "parent_folder_name"; "response"; "folder_metadata";
   "parent_folder"; "parent_folder_id"; "loa_folder_name"; "loa_folder";
   "loa_folder_id"; "to_folder_name"; "to_folder"; "to_folder_id"; "e"].

(** The builtins the module uses. *)
Definition builtins : list string :=
  ["len"; "chr"; "int"; "str"; "open"; "isinstance"; "bytes";
   "Exception"; "ValueError"].

Section WithEnv.
Context (env : Env).

Definition logger (lv : level) (msg : string) : M World unit :=
  fun w => (Ok tt, mkWorld (log w ++ [(lv, msg)]) (sheets w) (fs w) (drive w)).

Definition get_world : M World World := fun w => (Ok w, w).

(** A call to an outside service, with the class of its failures. *)
Definition call {A} (cls : string -> exn) (f : World -> service A)
    : M World A :=
  fun w => (service_result cls (f w), w).

(** [d[key]] on a configuration entry. *)
Definition require {A} (key : string) (v : option A) : M World A :=
  match v with
  | Some a => ret a
  | None => raise (KeyError key)
  end.

(** Looking up a name that the function body does not bind. *)
Definition load_global (name : string) : M World unit :=
  if bool_decide (name ∈ module_globals ++ builtins) then ret tt
  else raise (NameError ("name '" +:+ name +:+ "' is not defined")).

(** Lines 387-406 and 428-448: what follows [read_excel] and the
    renaming, for the kind with the given required columns. *)
Definition missing_columns (required_columns : list string)
    (df : DataFrame) : list string :=
  filter (fun col => col ∉ columns df) required_columns.

Definition check_required (required_columns : list string)
    (df : DataFrame) : M World unit :=
  let missing := missing_columns required_columns df in
  match missing with
  | [] => ret tt
  | _ => raise (ValueError ("Missing required columns: "
                            +:+ Str.join ", " missing))
  end.

Definition add_timestamp (df : DataFrame) : M World DataFrame :=
  if bool_decide ("timestamp_unix" ∉ columns df) then
    w <- get_world ;;
    let current_timestamp := time_now env w in
    logger INFO "Added timestamp_unix column" ;;;
    ret (set_scalar "timestamp_unix" (VInt current_timestamp) df)
  else ret df.

Definition renamed (kind : string) (cfg : Config) (df : DataFrame)
    : DataFrame :=
  let mapping := default ∅ (column_mapping cfg !! kind) in
  if bool_decide (mapping = ∅) then df else rename mapping df.

Definition loa_required : list string :=
  ["Employee ID"; "Effective Date"; "First Day of Leave"].

Definition to_required : list string :=
  ["Employee ID"; "Time Off Date"; "Duration"].

(** Lines 374-413. *)
Definition process_loa_file (self : Processor) (file_path : Path)
    : M World DataFrame :=
  logger INFO ("Processing LOA file: " +:+ to_string file_path) ;;;
  try_except
    (df <- call ValueError (fun w => read_excel env w file_path) ;;
     let df := renamed "loa" (config self) df in
     check_required loa_required df ;;;
     df <- add_timestamp df ;;
     let date_columns :=
       filter (fun col => Str.contains "Date" col = true
                          ∨ Str.contains "Day" col = true) (columns df) in
     let df := fold_left (fun d col =>
                 if bool_decide (col ∈ columns d)
                 then fillna col (VStr "") d else d) date_columns df in
     logger INFO ("Successfully processed LOA file with "
                  +:+ Str.of_nat (length (rows df)) +:+ " records") ;;;
     ret df)
    (fun e =>
       if is_Exception e
       then logger ERROR ("Error processing LOA file: " +:+ exn_str e) ;;;
            raise e
       else raise e).

(** Lines 415-455. *)
Definition process_to_file (self : Processor) (file_path : Path)
    : M World DataFrame :=
  logger INFO ("Processing Time Off file: " +:+ to_string file_path) ;;;
  try_except
    (df <- call ValueError (fun w => read_excel env w file_path) ;;
     let df := renamed "to" (config self) df in
     check_required to_required df ;;;
     df <- add_timestamp df ;;
     let df := if bool_decide ("Status" ∉ columns df)
               then set_scalar "Status" (VStr "Approved") df else df in
     let df := if bool_decide (("Unit of Time" ∉ columns df)
                               ∧ ("Duration" ∈ columns df))
               then set_scalar "Unit of Time" (VStr "Hours") df else df in
     logger INFO ("Successfully processed Time Off file with "
                  +:+ Str.of_nat (length (rows df)) +:+ " records") ;;;
     ret df)
    (fun e =>
       if is_Exception e
       then logger ERROR ("Error processing Time Off file: " +:+ exn_str e) ;;;
            raise e
       else raise e).

Definition set_sheets (f : gmap (string * string) grid
                            -> gmap (string * string) grid) (w : World)
    : World :=
  mkWorld (log w) (f (sheets w)) (fs w) (drive w).

Definition set_fs (f : gmap Path data -> gmap Path data) (w : World)
    : World :=
  mkWorld (log w) (sheets w) (f (fs w)) (drive w).

(** *** The spreadsheet service *)

(** How a written value reads back; strings are stored as they are. A
    NaN is never written: see [service_update]. *)
Definition display (v : value) : string :=
  match v with
  | VStr s => s
  | VInt z => Str.of_Z z
  | VNaN => ""
  end.

Definition pad_to {A} (d : A) (n : nat) (l : list A) : list A :=
  l ++ replicate (n - length l) d.

(** Writing [vals] into a row from the column at offset [c0]. *)
Definition write_row (c0 : nat) (vals row : list string) : list string :=
  take c0 (pad_to "" c0 row) ++ vals ++ drop (c0 + length vals) row.

Fixpoint write_rows (c0 : nat) (block : list (list string)) (g : grid)
    : grid :=
  match block with
  | [] => g
  | vals :: block' =>
      match g with
      | [] => write_row c0 vals [] :: write_rows c0 block' []
      | row :: g' => write_row c0 vals row :: write_rows c0 block' g'
      end
  end.

(** Writing a block whose top-left cell is at offsets [(r0, c0)]. *)
Definition write_block (r0 c0 : nat) (block : list (list string)) (g : grid)
    : grid :=
  let g' := pad_to [] r0 g in
  take r0 g' ++ write_rows c0 block (drop r0 g').

Definition is_nan (v : value) : bool :=
  match v with VNaN => true | _ => false end.

Definition has_nan (values : list (list value)) : bool :=
  existsb (existsb is_nan) values.

(** [values.update]. The values travel as JSON, which has no NaN: a
    request that holds one is refused before anything is written. The
    range must parse; a one-cell range anchors the block, a two-cell range
    must also contain it. *)
Definition service_update (range_name : A1.ustr)
    (values : list (list value)) (g : grid) : result grid :=
  if has_nan values
  then Raise (ValueError "Out of range float values are not JSON compliant")
  else
    match A1.parse_range range_name with
    | None => Raise (APIError "Unable to parse range")
    | Some ((r, c), last) =>
        let fits :=
          match last with
          | None => true
          | Some (r', c') =>
              (length values <=? r' + 1 - r)%nat
              && forallb (fun row => (length row <=? c' + 1 - c)%nat) values
          end in
        if fits
        then Ok (write_block (r - 1) (c - 1) (map (map display) values) g)
        else Raise (APIError "Requested writing outside the range")
    end.

(** [gc.open_by_key(sheet_id).worksheet(sheet_name)] *)
Definition open_worksheet (ws : string * string) : M World unit :=
  fun w => match sheets w !! ws with
           | Some _ => (Ok tt, w)
           | None => (Raise (APIError "spreadsheet or worksheet not found"), w)
           end.

(** [worksheet.get_all_values()] *)
Definition get_all_values (ws : string * string) : M World grid :=
  fun w => (Ok (default [] (sheets w !! ws)), w).

(** [worksheet.update(range_name, values)] *)
Definition worksheet_update (ws : string * string) (range_name : A1.ustr)
    (values : list (list value)) : M World unit :=
  fun w => match service_update range_name values
                   (default [] (sheets w !! ws)) with
           | Ok g => (Ok tt, set_sheets (insert ws g) w)
           | Raise e => (Raise e, w)
           end.

(** *** [append_to_gsheet] *)

(** [s.upper()] on ASCII letters. *)
Definition upper (s : string) : string :=
  Str.of_chars
    (map (fun c => let n := nat_of_ascii c in
                   if ((97 <=? n) && (n <=? 122))%nat
                   then ascii_of_nat (n - 32) else c) (Str.chars s)).

(** [chr(i)] inside an f-string. *)
Definition chr_or_raise (i : nat) : M World N :=
  match A1.chr i with
  | Some c => ret c
  | None => raise (ValueError "chr() arg not in range(0x110000)")
  end.

Fixpoint index_of (col : string) (cols : list string) : option nat :=
  match cols with
  | [] => None
  | c :: rest => if bool_decide (c = col) then Some 0
                 else S <$> index_of col rest
  end.

(** Lines 518-525: the frame built on [headers]. The first column taken
    from [df] gives the new frame the rows of [df]; before that it has
    none. A label that [df] bears twice is read at its first place. *)
Definition aligned_values (headers : list string) (df : DataFrame)
    : list (list value) :=
  if existsb (fun col => bool_decide (col ∈ columns df)) headers then
    map (fun r =>
           map (fun col => match index_of col (columns df) with
                           | Some i => default VNaN (r !! i)
                           | None => VNaN
                           end) headers) (rows df)
  else [].

(** Line 515: [f"A1:{chr(64 + len(df.columns))}{len(df) + 1}"] *)
Definition top_range (df : DataFrame) : M World A1.ustr :=
  c <- chr_or_raise (64 + length (columns df)) ;;
  ret (A1.ustr_of "A1:" ++ [c] ++ A1.str_nat (length (rows df) + 1)).

(** Line 526:
    [f"A{start_row}:{chr(64 + len(headers))}{start_row + len(df) - 1}"] *)
Definition append_range (start_row : nat) (headers : list string)
    (df : DataFrame) : M World A1.ustr :=
  c <- chr_or_raise (64 + length headers) ;;
  ret (A1.ustr_of "A" ++ A1.str_nat start_row ++ A1.ustr_of ":" ++ [c]
       ++ A1.str_nat (start_row + length (rows df) - 1)).

Definition sheet_of (cfg : Config) (sheet_type : string)
    : M World (string * string) :=
  if String.eqb sheet_type "loa" then
    sheet_id <- require "loa_sheet_id" (loa_sheet_id cfg) ;;
    ret (sheet_id, default "Sheet1" (loa_sheet_name cfg))
  else
    sheet_id <- require "to_sheet_id" (to_sheet_id cfg) ;;
    ret (sheet_id, default "Sheet1" (to_sheet_name cfg)).

(** Lines 490-493 and 512-515, with the update of line 529: the sheet is
    empty, headers and rows go to the top. *)
Definition write_with_headers (ws : string * string) (df : DataFrame)
    : M World unit :=
  let values := map VStr (columns df) :: rows df in
  range_name <- top_range df ;;
  worksheet_update ws range_name values.

(** Lines 494-509 and 516-526, with the update of line 529: the sheet has
    rows, of which the first is the header row. *)
Definition write_below (ws : string * string) (existing_data : grid)
    (headers : list string) (df : DataFrame) : M World unit :=
  let missing_columns := filter (fun col => col ∉ headers) (columns df) in
  headers <-
    match missing_columns with
    | [] => ret headers
    | _ =>
        logger WARNING ("New columns not in existing sheet: "
                        +:+ Str.join ", " missing_columns) ;;;
        let new_headers := headers ++ missing_columns in
        worksheet_update ws (A1.ustr_of "A1") [map VStr new_headers] ;;;
        ret new_headers
    end ;;
  let start_row := length existing_data + 1 in
  let values := aligned_values headers df in
  range_name <- append_range start_row headers df ;;
  worksheet_update ws range_name values.

(** Lines 470-536. *)
Definition append_to_gsheet (self : Processor) (df : DataFrame)
    (sheet_type : string) : M World bool :=
  logger INFO ("Appending " +:+ Str.of_nat (length (rows df)) +:+ " rows to "
               +:+ upper sheet_type +:+ " Google Sheet") ;;;
  try_except
    (ws <- sheet_of (config self) sheet_type ;;
     open_worksheet ws ;;;
     existing_data <- get_all_values ws ;;
     match existing_data with
     | [] => write_with_headers ws df
     | headers :: _ => write_below ws existing_data headers df
     end ;;;
     logger INFO ("Successfully appended data to " +:+ upper sheet_type
                  +:+ " Google Sheet") ;;;
     ret true)
    (fun e =>
       if is_Exception e
       then logger ERROR ("Error appending to Google Sheet: " +:+ exn_str e) ;;;
            ret false
       else raise e).

(** *** [archive_file] *)

Fixpoint zeros (n : nat) : string :=
  match n with
  | O => ""
  | S n' => "0" +:+ zeros n'
  end.

(** [%0wd] *)
Definition padded (width n : nat) : string :=
  let s := Str.of_nat n in
  zeros (width - String.length s) +:+ s.

(** [strftime("%Y%m%d_%H%M%S")] *)
Definition strftime_compact (d : DateTime) : string :=
  padded 4 (year d) +:+ padded 2 (month d) +:+ padded 2 (day d) +:+ "_"
  +:+ padded 2 (hour d) +:+ padded 2 (minute d) +:+ padded 2 (second d).

(** [isoformat()], to the second. *)
Definition isoformat (d : DateTime) : string :=
  padded 4 (year d) +:+ "-" +:+ padded 2 (month d) +:+ "-"
  +:+ padded 2 (day d) +:+ "T" +:+ padded 2 (hour d) +:+ ":"
  +:+ padded 2 (minute d) +:+ ":" +:+ padded 2 (second d).

Definition now : M World DateTime :=
  fun w => (Ok (datetime_now env w), w).

Definition fs_exists (p : Path) : M World bool :=
  fun w => (Ok (bool_decide (is_Some (fs w !! p))), w).

(** [shutil.copy2(src, dst)]: an existing [dst] is replaced. *)
Definition copy2 (src dst : Path) : M World unit :=
  fun w => match fs w !! src with
           | Some d => (Ok tt, set_fs (insert dst d) w)
           | None => (Raise (OSError "No such file or directory"), w)
           end.

(** [with open(p, 'w') as f: json.dump(m, f, indent=2)] *)
Definition write_json (p : Path) (m : Metadata) : M World unit :=
  fun w => (Ok tt, set_fs (insert p (Json m)) w).

(** [self.<attr>] for an attribute that [_init_archive] may not have set. *)
Definition attribute {A} (attr : string) (v : option A) : M World A :=
  match v with
  | Some a => ret a
  | None => raise (AttributeError
      ("'WorkdayEmailProcessor' object has no attribute '" +:+ attr +:+ "'"))
  end.

(** [drive_service.files().create(...).execute()] *)
Definition files_create (f : DriveFile) : M World string :=
  fun w => match drive_create env w f with
           | Done link => (Ok link,
                           mkWorld (log w) (sheets w) (fs w) (drive w ++ [f]))
           | Failed msg => (Raise (APIError msg), w)
           end.

Definition kind_key (file_type : string) : string :=
  if String.eqb file_type "loa" then "loa" else "to".

(** Lines 200-225. *)
Definition archive_local (self : Processor) (file_path : Path)
    (filename : string) (metadata : Metadata) : M World (option string) :=
  dir <- attribute "archive_dir" (archive_dir self) ;;
  let target_dir := div dir (kind_key (file_type metadata)) in
  let target_path := div target_dir filename in
  taken <- fs_exists target_path ;;
  renamed <-
    (if taken then
       t <- now ;;
       let timestamp := strftime_compact t in
       let archived := timestamp +:+ "_" +:+ filename in
       ret (div target_dir archived,
            mkMetadata (original_filename metadata) archived
              (file_type metadata) (archived_timestamp metadata)
              (archived_by metadata))
     else ret (target_path, metadata)) ;;
  let '(target_path, metadata) := renamed in
  copy2 file_path target_path ;;;
  metadata_path <-
    match with_suffix target_path ".json" with
    | Some p => ret p
    | None => raise (ValueError "path has an empty name")
    end ;;
  write_json metadata_path metadata ;;;
  logger INFO ("Archived file to local storage: " +:+ to_string target_path) ;;;
  ret (Some (to_string target_path)).

(** Lines 227-264. *)
Definition archive_drive (self : Processor) (file_path : Path)
    (filename : string) (metadata : Metadata) : M World (option string) :=
  folder_ids <- attribute "drive_folder_ids" (drive_folder_ids self) ;;
  let key := kind_key (file_type metadata) in
  folder_id <- require key (folder_ids !! key) ;;
  response <- call APIError (fun w =>
      drive_list env w ("name='" +:+ filename +:+ "' and '" +:+ folder_id
                        +:+ "' in parents and trashed=false")) ;;
  renamed <-
    (match response with
     | [] => ret (filename, metadata)
     | _ =>
         t <- now ;;
         let archived := strftime_compact t +:+ "_" +:+ filename in
         ret (archived,
              mkMetadata (original_filename metadata) archived
                (file_type metadata) (archived_timestamp metadata)
                (archived_by metadata))
     end) ;;
  let '(archived, metadata) := renamed in
  let file_metadata := mkDriveFile archived folder_id metadata file_path in
  load_global "MediaFileUpload" ;;;
  link <- files_create file_metadata ;;
  logger INFO ("Archived file to Google Drive: " +:+ link) ;;;
  ret (Some link).

(** Lines 182-271. *)
Definition archive_file (self : Processor) (file_path : Path)
    (file_type : string) : M World (option string) :=
  try_except
    (let filename := name file_path in
     t <- now ;;
     let metadata := mkMetadata filename filename file_type (isoformat t)
                       "workday_email_processor" in
     method <- require "method" (archive_method (config self)) ;;
     if String.eqb method "local" then
       archive_local self file_path filename metadata
     else if String.eqb method "google_drive" then
       archive_drive self file_path filename metadata
     else raise (ValueError ("Unsupported archive method: " +:+ method)))
    (fun e =>
       if is_Exception e
       then logger ERROR ("Error archiving file: " +:+ exn_str e) ;;;
            ret None
       else raise e).

End WithEnv.

End EmailProcessor.

(** ** Names and dates of the Workday exports

    File names are strings of code points below 256; among these the
    decimal digits are [0] to [9]. *)

Module WorkdayFiles.

Import EmailProcessor.

Definition is_digit (c : ascii) : bool :=
  let n := nat_of_ascii c in ((48 <=? n) && (n <=? 57))%nat.

(** [re.search(r'(\d{8})', s)]: the leftmost [n] digits in a row. *)
Fixpoint search_digits (n : nat) (l : list ascii) : option (list ascii) :=
  match l with
  | [] => None
  | _ :: rest =>
      let window := take n l in
      if (length window =? n)%nat && forallb is_digit window then Some window
      else search_digits n rest
  end.

Definition digit_value (c : ascii) : nat := nat_of_ascii c - 48.

(** [int(ds)] for a string of digits. *)
Definition number (ds : list ascii) : nat :=
  fold_left (fun acc c => 10 * acc + digit_value c) ds 0.

Definition is_leap (y : nat) : bool :=
  ((y mod 4 =? 0) && negb (y mod 100 =? 0) || (y mod 400 =? 0))%nat.

Definition days_in_month (y m : nat) : nat :=
  match m with
  | 1 | 3 | 5 | 7 | 8 | 10 | 12 => 31
  | 4 | 6 | 9 | 11 => 30
  | 2 => if is_leap y then 29 else 28
  | _ => 0
  end.

(** The dates that [datetime] accepts. *)
Definition valid_date (y m d : nat) : bool :=
  ((1 <=? y) && (y <=? 99 * 100 + 99) && (1 <=? m) && (m <=? 12)
   && (1 <=? d) && (d <=? days_in_month y m))%nat.

(** [datetime.strptime(ds, '%Y%m%d')] on eight digits: four for the year,
    two for the month, two for the day; [None] stands for [ValueError],
    raised when the digits do not fit the format or are not a date. *)
Definition strptime_ymd (ds : list ascii) : option DateTime :=
  let y := number (take 4 ds) in
  let m := number (take 2 (drop 4 ds)) in
  let d := number (drop 6 ds) in
  if valid_date y m d then Some (mkDateTime y m d 0 0 0) else None.

(** Lines 457-468. *)
Definition extract_date_from_filename (filename : string)
    : option DateTime :=
  match search_digits 8 (Str.chars filename) with
  | Some date_str => strptime_ymd date_str
  | None => None
  end.

End WorkdayFiles.

(** ** [save_results]

    The body of the function that the orchestrator reaches through
    [persist_results]: the parsing of what the macro logged and the files
    it leaves in the result directory. *)

Module SaveResults.

(** A text file, or the rows handed to [csv.writer]. *)
Inductive artifact :=
| TextFile (s : string)
| CsvFile (rows : list (list string)).

Record World := mkWorld {
  files : gmap Path artifact;
  stdout : list string;
}.

(** What [open] and the writes in its block do: the file is complete,
    or [open] raised, or a write raised and left a part of the file. *)
Inductive write_result :=
| Wrote
| Refused (msg : string)
| Broke (msg : string) (part : artifact).

Record Env := mkEnv {
  datetime_now : World -> EmailProcessor.DateTime;
  mkdir : World -> Path -> service unit;     (* [parents=True, exist_ok=True] *)
  open_write : World -> Path -> artifact -> write_result;
}.

(** The line boundaries of [str.splitlines] below code point 256. *)
Definition is_break (c : ascii) : bool :=
  let n := nat_of_ascii c in
  (((10 <=? n) && (n <=? 13)) || ((28 <=? n) && (n <=? 30)) || (n =? 133))%nat.

(** [s.splitlines()], [cur] being the line read so far, last character
    first: a carriage return and the line feed after it are one boundary,
    and the end of the string closes a line only when it is not empty. *)
Fixpoint splitlines_from (cur l : list ascii) : list string :=
  match l with
  | [] => match cur with [] => [] | _ => [Str.of_chars (rev cur)] end
  | c :: rest =>
      if (nat_of_ascii c =? 13)%nat then
        Str.of_chars (rev cur)
        :: match rest with
           | c' :: rest' =>
               if (nat_of_ascii c' =? 10)%nat then splitlines_from [] rest'
               else splitlines_from [] rest
           | [] => []
           end
      else if is_break c then Str.of_chars (rev cur) :: splitlines_from [] rest
      else splitlines_from (c :: cur) rest
  end.

Definition splitlines (s : string) : list string :=
  splitlines_from [] (Str.chars s).

Definition start_marker : string := "MODEL COMPARISON RESULTS START".
Definition data_marker : string := "DATA COMPARISON:".
Definition end_marker : string := "MODEL COMPARISON RESULTS END".

(** Lines 265-279: the loop over the lines, with its four variables. *)
Fixpoint parse_lines (lines schema_changes data_comparison : list string)
    (in_results in_data : bool) : list string * list string :=
  match lines with
  | [] => (schema_changes, data_comparison)
  | line :: rest =>
      if Str.contains start_marker line
      then parse_lines rest schema_changes data_comparison true in_data
      else if Str.contains data_marker line
      then parse_lines rest schema_changes data_comparison in_results true
      else if Str.contains end_marker line
      then (schema_changes, data_comparison)
      else if in_results then
        if in_data && Str.contains "|" line
        then parse_lines rest schema_changes (data_comparison ++ [line])
               in_results in_data
        else if negb in_data && Str.contains ":" line
        then parse_lines rest (schema_changes ++ [line]) data_comparison
               in_results in_data
        else parse_lines rest schema_changes data_comparison
               in_results in_data
      else parse_lines rest schema_changes data_comparison in_results in_data
  end.

(** The white space that [str.strip] removes, below code point 256. *)
Definition is_space (c : ascii) : bool :=
  let n := nat_of_ascii c in
  (((9 <=? n) && (n <=? 13)) || ((28 <=? n) && (n <=? 32))
   || (n =? 133) || (n =? 160))%nat.

Definition strip (s : string) : string :=
  Str.of_chars
    (rev (Str.drop_while is_space
            (rev (Str.drop_while is_space (Str.chars s))))).

(** Line 297 *)
Definition table_row (line : string) : list string :=
  filter (fun col => col ≠ "") (map strip (Str.split "|"%char line)).

(** Lines 293-299 *)
Definition table_of (data_comparison : list string) : list (list string) :=
  filter (fun row => row ≠ [])
    (map table_row
       (filter (fun line => Str.contains "|" line = true) data_comparison)).

(** Lines 283-288 *)
Definition text_report (schema_changes data_comparison : list string)
    : string :=
  "SCHEMA CHANGES" +:+ nl +:+ "==============" +:+ nl
  +:+ Str.join nl schema_changes
  +:+ nl +:+ nl +:+ "DATA COMPARISON" +:+ nl +:+ "===============" +:+ nl
  +:+ Str.join nl data_comparison.

Section WithEnv.
Context (env : Env).

Definition print (line : string) : M World unit :=
  fun w => (Ok tt, mkWorld (files w) (stdout w ++ [line])).

Definition now : M World EmailProcessor.DateTime :=
  fun w => (Ok (datetime_now env w), w).

Definition make_directory (p : Path) : M World unit :=
  fun w => (service_result OSError (mkdir env w p), w).

(** [with open(p, 'w') as f: ...] *)
Definition write (p : Path) (a : artifact) : M World unit :=
  fun w => match open_write env w p a with
           | Wrote => (Ok tt, mkWorld (<[p := a]> (files w)) (stdout w))
           | Refused msg => (Raise (OSError msg), w)
           | Broke msg part =>
               (Raise (OSError msg),
                mkWorld (<[p := part]> (files w)) (stdout w))
           end.

(** Lines 290-307 *)
Definition save_csv (result_dir : Path) (data_comparison : list string)
    : M World unit :=
  match data_comparison with
  | [] => ret tt
  | _ =>
      let table_data := table_of data_comparison in
      if (2 <=? length table_data)%nat then
        let csv_path := div result_dir "model_comparison.csv" in
        write csv_path (CsvFile table_data) ;;;
        print (nl +:+ "CSV results saved to: " +:+ to_string csv_path)
      else ret tt
  end.

(** Lines 253-321 *)
Definition save_results (results_json : string) (output_dir : Path)
    (model_name : string) : M World (option Path) :=
  t <- now ;;
  let timestamp := EmailProcessor.strftime_compact t in
  let result_dir :=
    div output_dir (model_name +:+ "_comparison_" +:+ timestamp) in
  make_directory result_dir ;;;
  try_except
    (let '(schema_changes, data_comparison) :=
       parse_lines (splitlines results_json) [] [] false false in
     write (div result_dir "model_comparison.txt")
       (TextFile (text_report schema_changes data_comparison)) ;;;
     save_csv result_dir data_comparison ;;;
     print (nl +:+ "Results saved to: " +:+ to_string result_dir) ;;;
     write (div result_dir "raw_output.txt") (TextFile results_json) ;;;
     ret (Some result_dir))
    (fun e =>
       if is_Exception e
       then print ("Error saving results: " +:+ exn_str e) ;;;
            print (nl +:+ "Raw output:") ;;;
            print results_json ;;;
            ret None
       else raise e).

End WithEnv.

End SaveResults.

(** ** The mailbox and the main process of email_processor.py *)

Module Pipeline.

Import EmailProcessor.

(** *** The kind of an attachment (lines 324-339) *)

(** [s.lower()] below code point 256. *)
Definition lower_char (c : ascii) : ascii :=
  let n := nat_of_ascii c in
  if (((65 <=? n) && (n <=? 90))
      || ((192 <=? n) && (n <=? 222) && negb (n =? 215)))%nat
  then ascii_of_nat (n + 32) else c.

Definition lower (s : string) : string :=
  Str.of_chars (map lower_char (Str.chars s)).

(** [\s] below code point 256. *)
Definition is_space (c : ascii) : bool :=
  let n := nat_of_ascii c in
  (((9 <=? n) && (n <=? 13)) || ((28 <=? n) && (n <=? 32))
   || (n =? 133) || (n =? 160))%nat.

(** The two patterns are words separated by [\s+]. No word starts with
    white space, so [\s+] takes all the white space there is. *)
Fixpoint match_words (words : list string) (l : list ascii) : bool :=
  match words with
  | [] => true
  | word :: more =>
      let chars := Str.chars word in
      bool_decide (chars `prefix_of` l)
      && match more with
         | [] => true
         | _ =>
             match drop (length chars) l with
             | c :: rest =>
                 is_space c
                 && match_words more (Str.drop_while is_space rest)
             | [] => false
             end
         end
  end.

(** [re.search(pattern, s)] for such a pattern. *)
Fixpoint search_words (words : list string) (l : list ascii) : bool :=
  match_words words l
  || match l with
     | [] => false
     | _ :: rest => search_words words rest
     end.

Definition is_excel (filename : string) : bool :=
  Str.endswith filename ".xlsx" || Str.endswith filename ".xls".

Definition file_type_of (filename : string) : option string :=
  let lowered := Str.chars (lower filename) in
  if search_words ["leave"; "of"; "absence"] lowered then Some "loa"
  else if search_words ["time"; "off"] lowered then Some "to"
  else None.

(** *** The world of the whole process *)

(** The [email] part of the configuration, a missing key being [None]. *)
Record EmailConfig := mkEmailConfig {
  imap_server : option string;
  username : option string;
  password : option string;
  search_criteria : option string;
  mark_as_processed : option bool;
  processed_folder : option string;
}.

(** The processor with the attributes that [__init__] sets. *)
Record Self := mkSelf {
  processor : Processor;
  email : option EmailConfig;
  temp_dir : Path;
}.

(** One part of a message as [msg.walk()] gives it. *)
Record Part := mkPart {
  maintype : string;
  part_filename : option string;
  payload : string;
}.

(** The sheets, files and log of the processor, and the commands that
    changed the mailbox, oldest first. *)
Record World := mkWorld {
  base : EmailProcessor.World;
  mailbox : list (string * string * string);  (* message, command, argument *)
}.

Record FileInfo := mkFileInfo {
  fi_path : Path;
  fi_type : string;
  fi_message_id : string;
  fi_subject : string;
  fi_filename : string;
}.

(** One entry of [results]; an entry made by the handler has no date and
    carries the error. *)
Record Outcome := mkOutcome {
  out_file : string;
  out_date : option string;
  out_type : string;
  out_records : nat;
  out_success : bool;
  out_archived : bool;
  out_archive_location : option string;
  out_error : option string;
}.

Record Env := mkEnv {
  sheets_env : EmailProcessor.Env;
  imap_connect : World -> string -> service unit;
  imap_login : World -> string -> string -> service unit;
  imap_select : World -> string -> service unit;
  imap_search : World -> string -> service (string * list string);
  (* the status, and lines 305-311: the subject and the parts *)
  imap_fetch : World -> string
               -> service (string * service (string * list Part));
  imap_store : World -> string -> string -> service unit;
  imap_copy : World -> string -> string -> service unit;
  imap_close : World -> service unit;
  imap_logout : World -> service unit;
  open_attachment : World -> Path -> service unit;
  rmtree : World -> Path -> service unit;
  (* [strftime('%Y-%m-%d')]: how a year below 1000 is written depends on
     the platform *)
  strftime_date : DateTime -> string;
}.

Section WithEnv.
Context (env : Env).

(** A statement of the processor, run in the whole world. *)
Definition within {A} (m : M EmailProcessor.World A) : M World A :=
  fun w => match m (base w) with
           | (r, b) => (r, mkWorld b (mailbox w))
           end.

Definition logger (lv : level) (msg : string) : M World unit :=
  within (EmailProcessor.logger lv msg).

Definition call {A} (cls : string -> exn) (f : World -> service A)
    : M World A :=
  fun w => (service_result cls (f w), w).

Definition require {A} (key : string) (v : option A) : M World A :=
  match v with
  | Some a => ret a
  | None => raise (KeyError key)
  end.

(** A command that changes the mailbox. *)
Definition command (message_id name argument : string)
    (f : World -> service unit) : M World unit :=
  fun w => match f w with
           | Done _ =>
               (Ok tt,
                mkWorld (base w) (mailbox w ++ [(message_id, name, argument)]))
           | Failed msg => (Raise (OSError msg), w)
           end.

(** [with open(p, 'wb') as f: f.write(b)] *)
Definition save (p : Path) (b : string) : M World unit :=
  fun w => match open_attachment env w p with
           | Done _ =>
               (Ok tt,
                mkWorld (set_fs (insert p (Bytes b)) (base w)) (mailbox w))
           | Failed msg => (Raise (OSError msg), w)
           end.

(** A loop that appends to a list. *)
Fixpoint collect {A B} (xs : list A) (body : A -> M World (list B))
    : M World (list B) :=
  match xs with
  | [] => ret []
  | x :: rest =>
      found <- body x ;;
      more <- collect rest body ;;
      ret (found ++ more)
  end.

(** [f"{message_id}"] for the bytes of a message number. *)
Definition repr_bytes (b : string) : string := "b'" +:+ b +:+ "'".

(** Lines 316-353: one part of a message. *)
Definition attachment (self : Self) (message_id subject : string)
    (part : Part) : M World (list FileInfo) :=
  if String.eqb (maintype part) "multipart" then ret []
  else
    match part_filename part with
    | None => ret []
    | Some filename =>
        if String.eqb filename "" then ret []
        else if negb (is_excel filename) then ret []
        else
          match file_type_of filename with
          | None =>
              logger WARNING ("Unrecognized Workday file type: " +:+ filename) ;;;
              ret []
          | Some file_type =>
              let file_path := div (temp_dir self) filename in
              save file_path (payload part) ;;;
              logger INFO ("Saved attachment: " +:+ filename +:+ " as "
                           +:+ file_type +:+ " type") ;;;
              ret [mkFileInfo file_path file_type message_id subject filename]
          end
    end.

(** Lines 355-362 *)
Definition mark (cfg : EmailConfig) (message_id : string) : M World unit :=
  if default false (mark_as_processed cfg) then
    command message_id "store" "+FLAGS \Seen"
      (fun w => imap_store env w message_id "+FLAGS \Seen") ;;;
    match processed_folder cfg with
    | Some folder =>
        command message_id "copy" folder
          (fun w => imap_copy env w message_id folder) ;;;
        command message_id "store" "+FLAGS \Deleted"
          (fun w => imap_store env w message_id "+FLAGS \Deleted")
    | None => ret tt
    end
  else ret tt.

(** Lines 296-362: one message. *)
Definition message (self : Self) (cfg : EmailConfig) (message_id : string)
    : M World (list FileInfo) :=
  fetched <- call OSError (fun w => imap_fetch env w message_id) ;;
  let '(status, parsed) := fetched in
  if negb (String.eqb status "OK") then
    logger ERROR ("Error fetching email " +:+ repr_bytes message_id +:+ ": "
                  +:+ status) ;;;
    ret []
  else
    msg <- call ValueError (fun _ => parsed) ;;
    let '(subject, parts) := msg in
    logger INFO ("Processing email: " +:+ subject) ;;;
    saved <- collect parts (attachment self message_id subject) ;;
    mark cfg message_id ;;;
    ret saved.

(** Lines 273-372. *)
Definition fetch_email_attachments (self : Self) : M World (list FileInfo) :=
  logger INFO "Starting email attachment fetch process" ;;;
  try_except
    (cfg <- require "email" (email self) ;;
     server <- require "imap_server" (imap_server cfg) ;;
     call OSError (fun w => imap_connect env w server) ;;;
     user <- require "username" (username cfg) ;;
     pass <- require "password" (password cfg) ;;
     call OSError (fun w => imap_login env w user pass) ;;;
     call OSError (fun w => imap_select env w "inbox") ;;;
     criteria <- require "search_criteria" (search_criteria cfg) ;;
     found <- call OSError (fun w => imap_search env w criteria) ;;
     let '(status, message_ids) := found in
     if negb (String.eqb status "OK") then
       logger ERROR ("Error searching for emails: " +:+ status) ;;;
       ret []
     else
       logger INFO ("Found " +:+ Str.of_nat (length message_ids)
                    +:+ " matching emails") ;;;
       downloaded_files <- collect message_ids (message self cfg) ;;
       call OSError (fun w => imap_close env w) ;;;
       call OSError (fun w => imap_logout env w) ;;;
       logger INFO ("Downloaded " +:+ Str.of_nat (length downloaded_files)
                    +:+ " attachments") ;;;
       ret downloaded_files)
    (fun e =>
       if is_Exception e
       then logger ERROR ("Error in email processing: " +:+ exn_str e) ;;;
            ret []
       else raise e).

(** Lines 558-588: one file, when nothing raises. [None] is the
    [continue] of line 572. *)
Definition handle (self : Self) (file_info : FileInfo)
    : M World (list Outcome) :=
  let file_path := fi_path file_info in
  let file_type := fi_type file_info in
  let filename := fi_filename file_info in
  let file_date := WorkdayFiles.extract_date_from_filename filename in
  let date_str :=
    match file_date with
    | Some t => strftime_date env t
    | None => "unknown date"
    end in
  processed <-
    (if String.eqb file_type "loa" then
       df <- within (process_loa_file (sheets_env env) (processor self)
                       file_path) ;;
       success <- within (append_to_gsheet (processor self) df "loa") ;;
       ret (Some (df, success))
     else if String.eqb file_type "to" then
       df <- within (process_to_file (sheets_env env) (processor self)
                       file_path) ;;
       success <- within (append_to_gsheet (processor self) df "to") ;;
       ret (Some (df, success))
     else
       logger WARNING ("Unknown file type for: " +:+ to_string file_path) ;;;
       ret None) ;;
  match processed with
  | None => ret []
  | Some (df, success) =>
      archive_location <-
        (if success : bool
         then within (archive_file (sheets_env env) (processor self)
                        file_path file_type)
         else ret None) ;;
      ret [mkOutcome filename (Some date_str) file_type (length (rows df))
             success (bool_decide (is_Some archive_location))
             archive_location None]
  end.

(** Lines 553-599: one round of the loop over the files. *)
Definition process_file (self : Self) (file_info : FileInfo)
    : M World (list Outcome) :=
  try_except (handle self file_info)
    (fun e =>
       if is_Exception e
       then logger ERROR ("Error processing file "
                          +:+ to_string (fi_path file_info) +:+ ": "
                          +:+ exn_str e) ;;;
            ret [mkOutcome (fi_filename file_info) None (fi_type file_info)
                   0 false false None (Some (exn_str e))]
       else raise e).

(** Line 606 *)
Definition summary_line (r : Outcome) : string :=
  let status := if out_success r then "SUCCESS" else "FAILED" in
  let archived := if out_archived r then "ARCHIVED" else "NOT ARCHIVED" in
  out_file r +:+ " (" +:+ out_type r +:+ ", "
  +:+ default "unknown date" (out_date r) +:+ "): " +:+ status +:+ " - "
  +:+ Str.of_nat (out_records r) +:+ " records - " +:+ archived.

(** [shutil.rmtree(temp_dir)]: the files below the directory go. *)
Definition remove_tree (dir : Path) : M World unit :=
  fun w => match rmtree env w dir with
           | Done _ =>
               (Ok tt,
                mkWorld
                  (set_fs (filter (fun e => ~ dir `prefix_of` e.1)) (base w))
                  (mailbox w))
           | Failed msg => (Raise (OSError msg), w)
           end.

(** Lines 613-620 *)
Definition cleanup (self : Self) : M World unit :=
  try_except
    (remove_tree (temp_dir self) ;;;
     logger INFO ("Removed temporary directory: "
                  +:+ to_string (temp_dir self)))
    (fun e =>
       if is_Exception e
       then logger ERROR ("Error cleaning up temp directory: " +:+ exn_str e)
       else raise e).

(** Lines 538-620. [None] is the plain [return] of line 548. *)
Definition run (self : Self) : M World (option (list Outcome)) :=
  logger INFO "Starting Workday email to Google Sheets process" ;;;
  try_finally
    (try_except
       (downloaded_files <- fetch_email_attachments self ;;
        match downloaded_files with
        | [] => logger INFO "No new files found in emails" ;;; ret None
        | _ =>
            results <- collect downloaded_files (process_file self) ;;
            logger INFO "Process completed. Summary:" ;;;
            for_each results (fun r => logger INFO (summary_line r)) ;;;
            ret (Some results)
        end)
       (fun e =>
          if is_Exception e
          then logger ERROR ("Error in main process: " +:+ exn_str e) ;;;
               raise e
          else raise e))
    (cleanup self).

End WithEnv.

End Pipeline.

(** * Concrete runs *)

Module Runs.

Import CompareModels.

Definition newline : string := nl.

(** A project [/proj] with one model, [orders]. *)
Definition project_files : gmap Path contents :=
  {[ ["/"; "proj"; "dbt_project.yml"] := Text "name: proj";
     ["/"; "proj"; "models"; "orders.sql"] := Text "select 1" ]}.

Definition start : World := mkWorld ["/"; "proj"] project_files [] 0.

Definition is_cmd (prefix : list string) (cmd : list string) : bool :=
  bool_decide (prefix `prefix_of` cmd).

(** git knows the repository but [main] does not have the file. *)
Definition git_without_baseline (w : World) (cmd : list string)
    (dir : option Path) : proc_outcome :=
  if is_cmd ["git"; "rev-parse"] cmd then ProcExit 0 ("/proj" +:+ nl) ""
  else if is_cmd ["git"; "show"] cmd
  then ProcExit 128 "" "fatal: path 'models/orders.sql' does not exist in 'main'"
  else ProcExit 0 "" "".

Definition rglob_orders (w : World) (dir : Path) (pattern : string)
    : service (list Path) :=
  Done (if String.eqb pattern "*orders.sql"
        then [["/"; "proj"; "models"; "orders.sql"]] else []).

Definition env_without_baseline : Env :=
  mkEnv git_without_baseline rglob_orders
    (fun _ _ => Done "select 1") (fun _ _ => Written) (fun _ _ => Done tt)
    (fun _ => ["/"; "tmp"; "main"]) (fun _ _ _ => Done tt)
    (fun _ _ => Done tt) (fun _ _ _ _ => Done tt).

(** The same project with a second [orders] model under [staging], and
    a locator called with the path of the first one. *)
Definition two_orders_files : gmap Path contents :=
  <[ ["/"; "proj"; "models"; "staging"; "orders.sql"] := Text "select 2" ]>
    project_files.

Definition two_orders : World := mkWorld ["/"; "proj"] two_orders_files [] 0.

Definition rglob_two_orders (w : World) (dir : Path) (pattern : string)
    : service (list Path) :=
  Done (if String.eqb pattern "*orders.sql"
        then [["/"; "proj"; "models"; "orders.sql"];
              ["/"; "proj"; "models"; "staging"; "orders.sql"]]
        else []).

Definition env_two_orders : Env :=
  mkEnv git_without_baseline rglob_two_orders
    (fun _ _ => Done "select 1") (fun _ _ => Written) (fun _ _ => Done tt)
    (fun _ => ["/"; "tmp"; "main"]) (fun _ _ _ => Done tt)
    (fun _ _ => Done tt) (fun _ _ _ _ => Done tt).

(** A repository where everything answers: [orders] has one downstream
    model, [customers]; both are on [main]. *)
Definition shop_files : gmap Path contents :=
  <[ ["/"; "proj"; "models"; "customers.sql"]
       := Text "select * from {{ ref('orders') }}" ]> project_files.

Definition shop : World := mkWorld ["/"; "proj"] shop_files [] 0.

Definition git_and_dbt (w : World) (cmd : list string) (dir : option Path)
    : proc_outcome :=
  if is_cmd ["git"; "rev-parse"] cmd then ProcExit 0 ("/proj" +:+ nl) ""
  else if is_cmd ["git"; "show"] cmd then ProcExit 0 "select 0" ""
  else if is_cmd ["dbt"; "list"] cmd
  then ProcExit 0 ("orders" +:+ nl +:+ "customers" +:+ nl) ""
  else ProcExit 0 "" "".

Definition rglob_shop (w : World) (dir : Path) (pattern : string)
    : service (list Path) :=
  Done (if String.eqb pattern "*orders.sql"
        then [["/"; "proj"; "models"; "orders.sql"]]
        else if String.eqb pattern "*customers.sql"
        then [["/"; "proj"; "models"; "customers.sql"]]
        else []).

Definition env_shop : Env :=
  mkEnv git_and_dbt rglob_shop
    (fun _ _ => Done "select 1") (fun _ _ => Written) (fun _ _ => Done tt)
    (fun _ => ["/"; "tmp"; "main"]) (fun _ _ _ => Done tt)
    (fun _ _ => Done tt) (fun _ _ _ _ => Done tt).

(** The same, but no file can be removed. *)
Definition env_locked : Env :=
  mkEnv git_and_dbt rglob_shop
    (fun _ _ => Done "select 1") (fun _ _ => Written)
    (fun _ _ => Failed "Permission denied")
    (fun _ => ["/"; "tmp"; "main"]) (fun _ _ _ => Done tt)
    (fun _ _ => Done tt) (fun _ _ _ _ => Done tt).

(** The same, but the current version of the downstream model cannot be
    written. *)
Definition current_down_customers : Path :=
  ["/"; "proj"; "models"; "analysis";
   "temp_customers_current_down_customers.sql"].

Definition main_down_customers : Path :=
  ["/"; "proj"; "models"; "analysis";
   "temp_customers_main_down_customers.sql"].

Definition env_disk_full : Env :=
  mkEnv git_and_dbt rglob_shop
    (fun _ _ => Done "select 1")
    (fun _ p => if bool_decide (p = current_down_customers)
                then FailedNoFile "No space left on device" else Written)
    (fun _ _ => Done tt)
    (fun _ => ["/"; "tmp"; "main"]) (fun _ _ _ => Done tt)
    (fun _ _ => Done tt) (fun _ _ _ _ => Done tt).

(** A third model, [payments], also downstream of [orders]. *)
Definition market_files : gmap Path contents :=
  <[ ["/"; "proj"; "models"; "payments.sql"]
       := Text "select * from {{ ref('orders') }}" ]> shop_files.

Definition market : World := mkWorld ["/"; "proj"] market_files [] 0.

Definition rglob_market (w : World) (dir : Path) (pattern : string)
    : service (list Path) :=
  if String.eqb pattern "*payments.sql"
  then Done [["/"; "proj"; "models"; "payments.sql"]]
  else rglob_shop w dir pattern.

Definition dbt_lists_two (w : World) (cmd : list string) (dir : option Path)
    : proc_outcome :=
  if is_cmd ["dbt"; "list"] cmd
  then ProcExit 0 ("orders" +:+ nl +:+ "customers" +:+ nl
                   +:+ "payments" +:+ nl) ""
  else git_and_dbt w cmd dir.

Definition env_market : Env :=
  mkEnv dbt_lists_two rglob_market
    (fun _ _ => Done "select 1") (fun _ _ => Written) (fun _ _ => Done tt)
    (fun _ => ["/"; "tmp"; "main"]) (fun _ _ _ => Done tt)
    (fun _ _ => Done tt) (fun _ _ _ _ => Done tt).

(** The same, but dbt fails on the main version of [customers]. *)
Definition dbt_fails_downstream (w : World) (cmd : list string)
    (dir : option Path) : proc_outcome :=
  if is_cmd ["dbt"; "run"; "--models"; "temp_customers_main_down_customers"]
       cmd
  then ProcExit 1 "Compilation Error" ""
  else dbt_lists_two w cmd dir.

Definition env_broken_customers : Env :=
  mkEnv dbt_fails_downstream rglob_market
    (fun _ _ => Done "select 1") (fun _ _ => Written) (fun _ _ => Done tt)
    (fun _ => ["/"; "tmp"; "main"]) (fun _ _ _ => Done tt)
    (fun _ _ => Done tt) (fun _ _ _ _ => Done tt).

(** The same, but dbt fails on the main version of the primary model. *)
Definition dbt_fails_primary (w : World) (cmd : list string)
    (dir : option Path) : proc_outcome :=
  if is_cmd ["dbt"; "run"; "--models"; "+temp_orders_main"] cmd
  then ProcExit 2 "Database Error" "relation does not exist"
  else dbt_lists_two w cmd dir.

Definition env_broken_primary : Env :=
  mkEnv dbt_fails_primary rglob_market
    (fun _ _ => Done "select 1") (fun _ _ => Written) (fun _ _ => Done tt)
    (fun _ => ["/"; "tmp"; "main"]) (fun _ _ _ => Done tt)
    (fun _ _ => Done tt) (fun _ _ _ _ => Done tt).

(** The shop with another answer of the processes. *)
Definition env_running (run : World -> list string -> option Path
                              -> proc_outcome) : Env :=
  mkEnv run rglob_shop
    (fun _ _ => Done "select 1") (fun _ _ => Written) (fun _ _ => Done tt)
    (fun _ => ["/"; "tmp"; "main"]) (fun _ _ _ => Done tt)
    (fun _ _ => Done tt) (fun _ _ _ _ => Done tt).

(** git is not installed. *)
Definition git_missing (w : World) (cmd : list string) (dir : option Path)
    : proc_outcome :=
  if is_cmd ["git"] cmd
  then ProcNotStarted "[Errno 2] No such file or directory: 'git'"
  else git_and_dbt w cmd dir.

(** The working directory is not in a repository. *)
Definition git_outside_repository (w : World) (cmd : list string)
    (dir : option Path) : proc_outcome :=
  if is_cmd ["git"; "rev-parse"] cmd
  then ProcExit 128 "" "fatal: not a git repository"
  else git_and_dbt w cmd dir.

(** On [main] the model is an empty file. *)
Definition git_empty_baseline (w : World) (cmd : list string)
    (dir : option Path) : proc_outcome :=
  if is_cmd ["git"; "show"] cmd then ProcExit 0 "" ""
  else git_and_dbt w cmd dir.

(** The packages of the project cannot be installed. *)
Definition dbt_deps_fails (w : World) (cmd : list string)
    (dir : option Path) : proc_outcome :=
  if is_cmd ["dbt"; "deps"] cmd
  then ProcExit 1 "" "Could not resolve packages"
  else git_and_dbt w cmd dir.

(** The two temporary models of [orders] are on disk and the first one
    cannot be removed. *)
Definition temp_orders_main : Path :=
  ["/"; "proj"; "models"; "analysis"; "temp_orders_main.sql"].

Definition temp_orders_current : Path :=
  ["/"; "proj"; "models"; "analysis"; "temp_orders_current.sql"].

Definition shop_with_temp_models : World :=
  mkWorld ["/"; "proj"]
    (<[ temp_orders_main := TempModel "select 0" "orders" "temp_orders_main" ]>
       (<[ temp_orders_current
             := TempModel "select 1" "orders" "temp_orders_current" ]>
          shop_files))
    [] 0.

Definition env_one_locked : Env :=
  mkEnv git_and_dbt rglob_shop
    (fun _ _ => Done "select 1") (fun _ _ => Written)
    (fun _ p => if bool_decide (p = temp_orders_main)
                then Failed "Permission denied" else Done tt)
    (fun _ => ["/"; "tmp"; "main"]) (fun _ _ _ => Done tt)
    (fun _ _ => Done tt) (fun _ _ _ _ => Done tt).

End Runs.

Module Ingest.

Import EmailProcessor.

(** A Time Off export without its [Duration] column. *)
Definition to_without_duration : DataFrame :=
  mkDF ["Employee ID"; "Time Off Date"; "Type"]
       [[VStr "E1"; VStr "2025-03-12"; VStr "Vacation"]].

Definition local_config : Config :=
  mkConfig (Some "local") (Some "/archive") ∅
    (Some "loa-key") None (Some "to-key") None.

Definition local_processor : Processor :=
  mkProcessor local_config (Some ["/"; "archive"]) None.

Definition march_12 : DateTime := mkDateTime 2025 3 12 7 0 0.

Definition env_of (df : DataFrame) : Env :=
  mkEnv (fun _ _ => Done df) (fun _ => 1741788000%Z) (fun _ => march_12)
    (fun _ _ => Done []) (fun _ _ => Done "https://drive.example/view").

Definition empty_world : World := mkWorld [] ∅ ∅ [].

(** [pd.DataFrame()]: no column and no row. *)
Definition no_columns : DataFrame := mkDF [] [].

(** A frame of 27 columns, [c1] to [c27], and one row. *)
Definition wide_columns : list string :=
  map (fun i => "c" +:+ Str.of_nat i) (seq 1 27).

Definition wide : DataFrame :=
  mkDF wide_columns [map (fun i => VInt (Z.of_nat i)) (seq 1 27)].

(** The destination worksheet of the Time Off kind, without any cell. *)
Definition to_sheet : string * string := ("to-key", "Sheet1").

Definition empty_sheet_world : World := mkWorld [] {[ to_sheet := [] ]} ∅ [].

(** The processor as [_init_archive] leaves it in cloud mode. *)
Definition folder_ids : gmap string string :=
  {[ "parent" := "root-folder"; "loa" := "loa-folder"; "to" := "to-folder" ]}.

Definition cloud_config : Config :=
  mkConfig (Some "google_drive") None ∅
    (Some "loa-key") None (Some "to-key") None.

Definition cloud_processor : Processor :=
  mkProcessor cloud_config None (Some folder_ids).

(** An archive that already holds [report.xlsx] of the Time Off kind,
    and a new download of the same name. *)
Definition download : Path := ["/"; "tmp"; "run"; "report.xlsx"].

Definition archived_report : Path := ["/"; "archive"; "to"; "report.xlsx"].

Definition collision_world : World :=
  mkWorld [] ∅
    {[ download := Bytes "second export";
       archived_report := Bytes "first export" ]} [].

Definition cloud_world : World :=
  mkWorld [] ∅ {[ ["/"; "tmp"; "timeoff.xlsx"] := Bytes "PK" ]} [].

(** A Time Off export with its required columns and a status. *)
Definition time_off : DataFrame :=
  mkDF ["Employee ID"; "Time Off Date"; "Duration"; "Status"]
       [[VStr "E1"; VStr "2025-03-12"; VInt 8; VStr "Submitted"]].

(** A Leave of Absence export where the leave has no end yet. *)
Definition leave : DataFrame :=
  mkDF ["Employee ID"; "Effective Date"; "First Day of Leave";
        "Estimated Last Day of Leave"; "Reason"]
       [[VStr "E1"; VStr "2025-03-01"; VStr "2025-03-10"; VNaN; VNaN]].

(** The Time Off worksheet with a header row and one row. *)
Definition to_grid : grid :=
  [["Employee ID"; "Time Off Date"]; ["E0"; "2025-03-01"]].

Definition to_sheet_world : World := mkWorld [] {[ to_sheet := to_grid ]} ∅ [].

(** A download and an archive that is still empty. *)
Definition download_world : World :=
  mkWorld [] ∅ {[ download := Bytes "second export" ]} [].

End Ingest.

Module Reports.

Import SaveResults.

(** What the macro logs for a model with one more row than [main]. *)
Definition macro_log : string :=
  "12:00:01  Running macro" +:+ nl
  +:+ "12:00:02  MODEL COMPARISON RESULTS START" +:+ nl
  +:+ "12:00:02  Common columns: id, amount" +:+ nl
  +:+ "12:00:02  DATA COMPARISON:" +:+ nl
  +:+ "| version | row_count |" +:+ nl
  +:+ "| ------- | --------- |" +:+ nl
  +:+ "| main    |       100 |" +:+ nl
  +:+ "| current |       101 |" +:+ nl
  +:+ "12:00:03  MODEL COMPARISON RESULTS END" +:+ nl
  +:+ "12:00:03  Done: 1" +:+ nl.

Definition writable : Env :=
  mkEnv (fun _ => Ingest.march_12) (fun _ _ => Done tt) (fun _ _ _ => Wrote).

(** A disk that takes the report and is full after it. *)
Definition full_disk : Env :=
  mkEnv (fun _ => Ingest.march_12) (fun _ _ => Done tt)
    (fun _ p a =>
       if String.eqb (name p) "model_comparison.txt" then Wrote
       else Refused "[Errno 28] No space left on device").

Definition nothing : World := mkWorld ∅ [].

Definition comparisons : Path := ["model_comparisons"].

End Reports.

Module Inbox.

Import EmailProcessor.
Import Pipeline.

Definition leave_name : string :=
  "SILL_CXO  Leave of Absence 20250312 07_00 PDT.xlsx".

Definition leave_part : Part := mkPart "application" (Some leave_name) "PK".

Definition picture_part : Part := mkPart "image" (Some "logo.png") "PNG".

Definition container_part : Part := mkPart "multipart" None "".

(** An attachment whose name is an absolute path. *)
Definition shared_name : string := "/srv/share/Time Off 20250312.xlsx".

Definition shared_part : Part := mkPart "application" (Some shared_name) "PK".

Definition account : EmailConfig :=
  mkEmailConfig (Some "imap.example.com") (Some "risk") (Some "secret")
    (Some "UNSEEN") (Some true) None.

Definition temp : Path := ["/"; "tmp"; "tmpk3v9"].

Definition risk : Self := mkSelf Ingest.local_processor (Some account) temp.

Definition dashed (t : DateTime) : string :=
  padded 4 (year t) +:+ "-" +:+ padded 2 (month t) +:+ "-"
  +:+ padded 2 (day t).

(** A mailbox with one message that carries the given parts, where closing
    the connection does as given. *)
Definition mail_env (parts : list Part) (close : service unit) : Env :=
  mkEnv (Ingest.env_of Ingest.leave)
    (fun _ _ => Done tt) (fun _ _ _ => Done tt) (fun _ _ => Done tt)
    (fun _ _ => Done ("OK", ["1"]))
    (fun _ _ => Done ("OK", Done ("Workday export", parts)))
    (fun _ _ _ => Done tt) (fun _ _ _ => Done tt)
    (fun _ => close) (fun _ => Done tt)
    (fun _ _ => Done tt) (fun _ _ => Done tt)
    dashed.

Definition leave_mail : list Part :=
  [container_part; leave_part; picture_part].

Definition fresh : World := mkWorld Ingest.empty_world [].

End Inbox.

(** * Theorems *)

(** ** The baseline fetcher *)

Section BaselineFetcher.
Import CompareModels.
Context (env : Env).

Definition rev_parse : list string := ["git"; "rev-parse"; "--show-toplevel"].

(** When [git rev-parse] itself exits non-zero, the handler reads
    [relative_path] before any statement has bound it. *)
Lemma get_main_branch_content_rev_parse_failure w model_path rc out err :
  run_process env w rev_parse None = ProcExit rc out err ->
  rc ≠ 0%Z ->
  exists msg w',
    get_main_branch_content env model_path w = (Raise (UnboundLocalError msg), w').
Proof.
  intros Hrun Hrc.
  unfold get_main_branch_content, try_except_locals, bind, lift, subprocess_run.
  cbn. fold rev_parse. rewrite Hrun.
  destruct (Z.eqb_spec rc 0) as [->|_]; [done|]. cbn.
  eauto.
Qed.

(** C9 (the code departs from it): when [git show] exits non-zero the
    fetcher does not return [None]. The [CalledProcessError] clause runs,
    [e.stderr] is a [str] because the process ran in text mode, the call of
    [.decode()] on it raises [AttributeError], and an exception raised inside
    an [except] clause is not offered to the [except Exception] clause of the
    same [try]: it reaches the caller. *)
Theorem get_main_branch_content_propagates w model_path top top_err :
  run_process env w rev_parse None = ProcExit 0 top top_err ->
  (forall w' target, exists rc out err,
      run_process env w' ["git"; "show"; target] None = ProcExit rc out err
      /\ rc ≠ 0%Z) ->
  exists w',
    get_main_branch_content env model_path w
    = (Raise (AttributeError "'str' object has no attribute 'decode'"), w').
Proof.
  intros Htop Hshow.
  unfold get_main_branch_content, try_except_locals, bind, lift, subprocess_run.
  cbn. fold rev_parse. rewrite Htop. cbn.
  match goal with
  | |- context [run_process env ?w1 ["git"; "show"; ?t] None] =>
      destruct (Hshow w1 t) as (rc & out & err & -> & Hrc)
  end.
  destruct (Z.eqb_spec rc 0) as [->|_]; [done|]. cbn.
  eauto.
Qed.

End BaselineFetcher.

Lemma get_main_branch_content_propagates_witness :
  exists w',
    CompareModels.get_main_branch_content Runs.env_without_baseline
      ["/"; "proj"; "models"; "orders.sql"] Runs.start
    = (Raise (AttributeError "'str' object has no attribute 'decode'"), w').
Proof.
  apply (get_main_branch_content_propagates Runs.env_without_baseline
           Runs.start _ ("/proj" +:+ nl) "").
  - reflexivity.
  - intros w' target. exists 128%Z. do 2 eexists. split; [reflexivity|lia].
Defined.

(** ** The model locator *)

Section Locator.
Import CompareModels.
Context (env : Env).

(** The name the search is made with: the stem of a name in [.sql]. *)
Definition effective_name (model_name : string) : string :=
  if Str.endswith model_name ".sql" then stem (Path_of_string model_name)
  else model_name.

(** The name is a path in [.sql] that exists: line 29 returns it. *)
Definition explicit_path (w : World) (model_name : string) : bool :=
  Str.endswith model_name ".sql" && exists_in w (Path_of_string model_name).

Definition candidates_report (model_name : string) (matches : list Path)
    : list string :=
  ["Found multiple matches for " +:+ model_name +:+ ":"]
  ++ map (fun m => "  " +:+ to_string m) matches
  ++ ["Please specify the model more precisely"].

(** One match is returned; none is reported as not found, several are
    reported one by one; both of these return [None]. *)
Definition resolved (matches : list Path) (model_name : string) (w : World)
    (out : result (option Path) * World) : Prop :=
  files out.2 = files w /\
  match matches with
  | [] => out.1 = Ok None
          /\ stdout out.2 = stdout w ++ ["Could not find model " +:+ model_name]
  | [p] => out.1 = Ok (Some p) /\ stdout out.2 = stdout w
  | _ => out.1 = Ok None
         /\ stdout out.2 = stdout w ++ candidates_report model_name matches
  end.

(** The locator as the specification states it, at one call: whatever
    the files that match under [models], the outcome is [resolved]. *)
Definition locator_as_stated (w : World) (model_name : string) : Prop :=
  forall root matches,
    project_root_of w = Some root ->
    rglob env w (div root "models")
      ("*" +:+ effective_name model_name +:+ ".sql") = Done matches ->
    resolved matches (effective_name model_name) w
      (find_model_path env model_name w).

Lemma for_each_print {A} (f : A -> string) (xs : list A) (w : World) :
  for_each xs (fun x => print (f x)) w
  = (Ok tt, mkWorld (cwd w) (files w) (stdout w ++ map f xs) (calls w)).
Proof.
  revert w. induction xs as [|x xs IH]; intros w; cbn.
  - rewrite app_nil_r. by destruct w.
  - unfold bind. cbn. rewrite IH. cbn. by rewrite <- app_assoc.
Qed.

Lemma search_models_resolved w root model_name matches :
  rglob env w (div root "models") ("*" +:+ model_name +:+ ".sql")
  = Done matches ->
  resolved matches model_name w (search_models env root model_name w).
Proof.
  intros Hglob. unfold search_models, bind, of_io. rewrite Hglob.
  destruct matches as [|p [|q rest]]; cbn.
  - done.
  - done.
  - rewrite for_each_print. cbn. split; [done|]. split; [done|].
    unfold candidates_report. cbn. by rewrite <- !app_assoc.
Qed.

Lemma parent_snoc (p : Path) (x : string) :
  parent (p ++ [x]) = p \/ parent (p ++ [x]) = p ++ [x].
Proof.
  destruct p as [|a p'].
  - cbn. destruct (String.eqb x "/"); auto.
  - left. rewrite <- (removelast_last (a :: p') x) at 2.
    by destruct p'.
Qed.

(** The loop that looks for the project root never runs out of rounds:
    one round for each part of the working directory, and one more, is
    enough. *)
Lemma find_project_root_enough w extra p :
  find_project_root w (S (length p) + extra) p
  = find_project_root w (S (length p)) p.
Proof.
  revert extra. induction p as [|x p IH] using rev_ind; intros extra.
  - cbn. done.
  - cbn [find_project_root Nat.add].
    case_bool_decide as Hpar; [done|].
    destruct (exists_in w _); [done|].
    destruct (parent_snoc p x) as [Heq|Heq]; [|congruence].
    rewrite Heq, length_app. cbn [length].
    replace (length p + 1 + extra) with (S (length p) + (0 + extra)) by lia.
    replace (length p + 1) with (S (length p) + 0) by lia.
    by rewrite !IH.
Qed.


End Locator.



(** ** The tabular normalizer *)

Section Normalizer.
Import EmailProcessor.
Context (env : Env).

Definition schema_error (missing : list string) : exn :=
  ValueError ("Missing required columns: " +:+ Str.join ", " missing).

Lemma elem_of_missing_columns required df col :
  col ∈ missing_columns required df <-> col ∈ required /\ col ∉ columns df.
Proof. unfold missing_columns. rewrite list_elem_of_filter. tauto. Qed.

Lemma check_required_missing required df w :
  missing_columns required df ≠ [] ->
  check_required required df w
  = (Raise (schema_error (missing_columns required df)), w).
Proof.
  intros Hne. unfold check_required, schema_error.
  destruct (missing_columns required df); [done|reflexivity].
Qed.

(** C2: a file whose columns, once renamed, lack a required column of its
    kind makes the normalizer raise the error that names the missing
    columns, those and no other, in the order of the required list; no
    frame is returned and neither the sheets nor the files change. *)
Theorem normalizer_schema_error (self : Processor) (file_path : Path)
    (df : DataFrame) (w : World) :
  (forall w', read_excel env w' file_path = Done df) ->
  let loa_df := renamed "loa" (config self) df in
  let to_df := renamed "to" (config self) df in
  (missing_columns loa_required loa_df ≠ [] ->
   exists w',
     process_loa_file env self file_path w
     = (Raise (schema_error (missing_columns loa_required loa_df)), w')
     /\ sheets w' = sheets w /\ fs w' = fs w /\ drive w' = drive w)
  /\ (missing_columns to_required to_df ≠ [] ->
      exists w',
        process_to_file env self file_path w
        = (Raise (schema_error (missing_columns to_required to_df)), w')
        /\ sheets w' = sheets w /\ fs w' = fs w /\ drive w' = drive w)
  /\ (forall required d col,
        col ∈ missing_columns required d
        <-> col ∈ required /\ col ∉ columns d).
Proof.
  intros Hread loa_df to_df. split; [|split].
  - intros Hne. unfold process_loa_file, try_except, bind, call, logger.
    rewrite Hread. cbn [service_result]. fold loa_df.
    rewrite (check_required_missing _ _ _ Hne). cbn. eauto.
  - intros Hne. unfold process_to_file, try_except, bind, call, logger.
    rewrite Hread. cbn [service_result]. fold to_df.
    rewrite (check_required_missing _ _ _ Hne). cbn. eauto.
  - apply elem_of_missing_columns.
Qed.

End Normalizer.

Lemma normalizer_schema_error_witness :
  exists w',
    EmailProcessor.process_to_file (Ingest.env_of Ingest.to_without_duration)
      Ingest.local_processor ["/"; "tmp"; "timeoff.xlsx"] Ingest.empty_world
    = (Raise (ValueError "Missing required columns: Duration"), w').
Proof.
  destruct (normalizer_schema_error (Ingest.env_of Ingest.to_without_duration)
              Ingest.local_processor ["/"; "tmp"; "timeoff.xlsx"]
              Ingest.to_without_duration Ingest.empty_world
              (fun _ => eq_refl)) as (_ & Hto & _).
  destruct Hto as (w' & Hrun & _).
  - vm_compute. discriminate.
  - exists w'. exact Hrun.
Defined.

(** ** Archiving to Google Drive *)

Section CloudArchive.
Import EmailProcessor.
Context (env : Env).

Definition name_error : exn :=
  NameError "name 'MediaFileUpload' is not defined".

Definition name_error_entry : level * string :=
  (ERROR, "Error archiving file: name 'MediaFileUpload' is not defined").

(** The cloud branch always ends in an exception, before [files().create]:
    the [NameError] at the latest. *)
Lemma archive_drive_never_uploads self file_path filename metadata w :
  exists e,
    archive_drive env self file_path filename metadata w = (Raise e, w)
    /\ is_Exception e = true
    /\ (forall ids fid,
          drive_folder_ids self = Some ids ->
          ids !! kind_key (file_type metadata) = Some fid ->
          (forall w0 q, exists found, drive_list env w0 q = Done found) ->
          e = name_error).
Proof.
  unfold archive_drive, bind, attribute, require, call.
  destruct (drive_folder_ids self) as [ids|]; cbn;
    [|eexists; repeat split; intros; discriminate].
  destruct (ids !! kind_key (file_type metadata)) as [fid|] eqn:Hfid; cbn;
    [|eexists; repeat split; intros ?? [= <-]; congruence].
  match goal with
  | |- context [drive_list env w ?q] =>
      destruct (drive_list env w q) as [found|msg] eqn:Hlist
  end; cbn.
  - destruct found as [|f found]; cbn; eexists; repeat split.
  - eexists. repeat split.
    intros ids' fid' [= <-] Hfid' Hall.
    match type of Hlist with
    | drive_list env w ?q = _ => destruct (Hall w q) as [found Hok]
    end.
    congruence.
Qed.

(** C8: with the archive method [google_drive], [archive_file] returns
    [None] and creates nothing in Drive, whatever the file and whatever the
    service answers. [MediaFileUpload] is a local of [_init_archive] and is
    bound neither at module level nor as a builtin, so when the folder
    lookup and the listing succeed, the exception that the handler logs is
    the [NameError]. *)
Theorem archive_file_google_drive_returns_none self file_path file_type w :
  archive_method (config self) = Some "google_drive" ->
  ("MediaFileUpload" ∈ init_archive_locals
   /\ "MediaFileUpload" ∉ module_globals ++ builtins)
  /\ exists w',
      archive_file env self file_path file_type w = (Ok None, w')
      /\ drive w' = drive w /\ fs w' = fs w /\ sheets w' = sheets w
      /\ (forall ids fid,
            drive_folder_ids self = Some ids ->
            ids !! kind_key file_type = Some fid ->
            (forall w0 q, exists found, drive_list env w0 q = Done found) ->
            log w' = log w ++ [name_error_entry]).
Proof.
  intros Hmethod. split.
  { split.
    - by apply (bool_decide_unpack _).
    - by apply (bool_decide_unpack _). }
  unfold archive_file, try_except, bind, now, require. rewrite Hmethod.
  cbn [String.eqb Ascii.eqb Bool.eqb].
  set (metadata := mkMetadata _ _ _ _ _).
  destruct (archive_drive_never_uploads self file_path (name file_path)
              metadata w) as (e & Hrun & He & Hname).
  cbn. rewrite Hrun, He. cbn.
  eexists. repeat split.
  intros ids fid Hids Hfid Hall.
  by rewrite (Hname ids fid Hids Hfid Hall).
Qed.

End CloudArchive.

Lemma archive_file_google_drive_returns_none_witness :
  exists w',
    EmailProcessor.archive_file (Ingest.env_of Ingest.to_without_duration)
      Ingest.cloud_processor ["/"; "tmp"; "timeoff.xlsx"] "to"
      Ingest.cloud_world
    = (Ok None, w')
    /\ EmailProcessor.drive w' = []
    /\ EmailProcessor.log w' = [name_error_entry].
Proof.
  destruct (archive_file_google_drive_returns_none
              (Ingest.env_of Ingest.to_without_duration)
              Ingest.cloud_processor ["/"; "tmp"; "timeoff.xlsx"] "to"
              Ingest.cloud_world eq_refl)
    as (_ & w' & Hrun & Hdrive & _ & _ & Hlog).
  exists w'. split; [exact Hrun|]. split; [exact Hdrive|].
  apply (Hlog Ingest.folder_ids "to-folder"); [reflexivity|reflexivity|].
  intros w0 q. exists []. reflexivity.
Defined.

(** ** A1 notation *)

Section A1Facts.
Import A1.

Lemma row_number_acc d acc :
  fold_left (fun a c => 10 * a + (N.to_nat c - 48)) (uint_codes d) acc
  = Nat.of_uint_acc d acc.
Proof.
  revert acc. induction d; intros acc; cbn [uint_codes fold_left Nat.of_uint_acc];
    [done|..]; rewrite IHd; f_equal; rewrite Nat.tail_mul_spec;
    unfold digit_code; cbn; lia.
Qed.

(** Reading back the decimal writing of a number. *)
Lemma row_number_str_nat n : row_number (str_nat n) = n.
Proof.
  unfold row_number, str_nat. rewrite row_number_acc.
  apply DecimalNat.Unsigned.of_to.
Qed.

Lemma uint_codes_digits d : forallb is_digit (uint_codes d) = true.
Proof. induction d; cbn; auto. Qed.

Lemma str_nat_digits n : forallb is_digit (str_nat n) = true.
Proof. apply uint_codes_digits. Qed.

(** A positive number is written with at least one digit and without a
    leading zero. *)
Lemma str_nat_head n :
  n ≠ 0 ->
  exists d rest, str_nat n = d :: rest /\ is_digit d = true /\ d ≠ 48%N.
Proof.
  intros Hn. unfold str_nat.
  assert (Hnorm : Decimal.unorm (Nat.to_uint n) = Nat.to_uint n).
  { rewrite <- DecimalNat.Unsigned.to_of, DecimalNat.Unsigned.of_to. done. }
  destruct (Nat.to_uint n) as [|d|d|d|d|d|d|d|d|d|d] eqn:E;
    try (cbn; eexists _, _; split; [reflexivity|split; [reflexivity|done]]).
  - by apply DecimalFacts.unorm_nonnil in Hnorm.
  - exfalso. apply Hn.
    rewrite <- (DecimalNat.Unsigned.of_to n), E.
    rewrite DecimalFacts.unorm_D0 in Hnorm.
    unfold Decimal.unorm in Hnorm.
    destruct (Decimal.nzhead d) eqn:Hz; try discriminate Hnorm.
    + injection Hnorm as <-. reflexivity.
    + by apply DecimalFacts.nzhead_nonzero in Hz.
Qed.

Lemma digit_not_upper d : is_digit d = true -> is_upper d = false.
Proof.
  unfold is_digit, is_upper. intros [_ H]%andb_prop. apply N.leb_le in H.
  apply andb_false_iff. left. apply N.leb_gt. lia.
Qed.

Lemma span_digits ds :
  forallb is_digit ds = true -> span is_upper ds = ([], ds).
Proof.
  destruct ds as [|d ds]; cbn; [done|].
  intros [Hd _]%andb_prop. by rewrite (digit_not_upper d Hd).
Qed.

(** One column letter and a positive row number make a cell reference. *)
Lemma parse_cell_letter c r :
  is_upper c = true -> r ≠ 0 ->
  parse_cell (c :: str_nat r) = Some (r, N.to_nat c - 64).
Proof.
  intros Hc Hr. unfold parse_cell. cbn [span]. rewrite Hc.
  rewrite (span_digits _ (str_nat_digits r)).
  destruct (str_nat_head r Hr) as (d & rest & E & Hd & Hne).
  pose proof (str_nat_digits r) as Hall.
  pose proof (row_number_str_nat r) as Hrow.
  rewrite E in *. rewrite Hall.
  destruct (N.eqb_spec d 48); [done|]. cbn [negb andb].
  rewrite Hrow. reflexivity.
Qed.

(** Anything else in the place of the column letter does not. *)
Lemma parse_cell_not_letter c rest :
  is_upper c = false -> parse_cell (c :: rest) = None.
Proof. intros Hc. unfold parse_cell. cbn [span]. by rewrite Hc. Qed.

Lemma split_colon_app l rest :
  forallb (fun c => negb (c =? 58)%N) l = true ->
  split_colon (l ++ 58%N :: rest) = (l, Some rest).
Proof.
  induction l as [|c l IH]; cbn; [done|].
  intros [Hc Hl]%andb_prop. destruct (c =? 58)%N; [done|].
  by rewrite (IH Hl).
Qed.

Lemma digits_no_colon ds :
  forallb is_digit ds = true ->
  forallb (fun c => negb (c =? 58)%N) ds = true.
Proof.
  induction ds as [|d ds IH]; cbn; [done|].
  intros [Hd Hds]%andb_prop. rewrite (IH Hds), andb_true_r.
  unfold is_digit in Hd. apply andb_prop in Hd as [_ Hd].
  apply N.leb_le in Hd. apply negb_true_iff, N.eqb_neq. lia.
Qed.

(** The two ranges of the appender, as [parse_range] reads them. *)
Lemma parse_top_range c k :
  parse_range (ustr_of "A1:" ++ [c] ++ str_nat k)
  = first ← Some (1, 1); last ← parse_cell (c :: str_nat k);
    Some (first, Some last).
Proof. reflexivity. Qed.

Lemma parse_append_range start c k :
  start ≠ 0 ->
  parse_range (ustr_of "A" ++ str_nat start ++ ustr_of ":" ++ [c] ++ str_nat k)
  = last ← parse_cell (c :: str_nat k); Some ((start, 1), Some last).
Proof.
  intros Hstart. unfold parse_range.
  change (ustr_of "A" ++ str_nat start ++ ustr_of ":" ++ [c] ++ str_nat k)
    with ((65%N :: str_nat start) ++ 58%N :: c :: str_nat k).
  rewrite split_colon_app.
  - rewrite (parse_cell_letter 65 start eq_refl Hstart). reflexivity.
  - cbn. apply digits_no_colon, str_nat_digits.
Qed.

Lemma chr_letter n :
  1 <= n <= 26 ->
  chr (64 + n) = Some (N.of_nat (64 + n))
  /\ is_upper (N.of_nat (64 + n)) = true
  /\ column_letters n = Some [N.of_nat (64 + n)].
Proof.
  intros Hn. unfold chr, is_upper, column_letters.
  destruct (N.leb_spec (N.of_nat (64 + n)) 1114111); [|lia].
  split; [done|]. split.
  { apply andb_true_iff. split; apply N.leb_le; lia. }
  destruct n as [|n']; [lia|]. cbn [Nat.eqb column_letters_fuel].
  replace (S n' - 1) with n' by lia.
  rewrite (Nat.div_small n' 26), (Nat.mod_small n' 26) by lia.
  replace (65 + n') with (64 + S n') by lia.
  by destruct n'.
Qed.

Lemma chr_not_letter n c :
  n = 0 \/ 26 < n -> chr (64 + n) = Some c -> is_upper c = false.
Proof.
  unfold chr, is_upper. intros Hn.
  destruct (N.leb_spec (N.of_nat (64 + n)) 1114111); [|done].
  intros [= <-]. apply andb_false_iff.
  destruct Hn as [->|Hn]; [left|right]; apply N.leb_gt; lia.
Qed.

End A1Facts.

(** ** The end column of the appender's range *)

Section EndColumn.
Import EmailProcessor A1.

Definition no_valid_range (out : result ustr) : Prop :=
  match out with
  | Ok s => valid s = false
  | Raise e => e = ValueError "chr() arg not in range(0x110000)"
  end.

(** The end column as the specification states it, for the range written
    on an empty sheet: up to 26 columns [chr(64 + n)] is the letter of
    column [n], beyond 26 the range is not A1 notation. *)
Definition end_column_as_stated (df : DataFrame) (w : World) : Prop :=
  let n := length (columns df) in
  (n <= 26 ->
   exists c s, chr (64 + n) = Some c /\ column_letters n = Some [c]
               /\ top_range df w = (Ok s, w) /\ valid s = true)
  /\ (26 < n ->
      (forall c, chr (64 + n) = Some c -> is_upper c = false)
      /\ no_valid_range (top_range df w).1).

Lemma valid_of_parse s r : parse_range s = Some r -> valid s = true.
Proof. intros H. unfold valid. rewrite H. by apply bool_decide_eq_true_2. Qed.

Lemma top_range_letter df w :
  1 <= length (columns df) <= 26 ->
  top_range df w
  = (Ok (ustr_of "A1:" ++ [N.of_nat (64 + length (columns df))]
         ++ str_nat (length (rows df) + 1)), w)
  /\ parse_range (ustr_of "A1:" ++ [N.of_nat (64 + length (columns df))]
                  ++ str_nat (length (rows df) + 1))
     = Some ((1, 1), Some (length (rows df) + 1, length (columns df))).
Proof.
  intros Hn. destruct (chr_letter _ Hn) as (Hchr & Hup & _).
  unfold top_range, chr_or_raise, bind. rewrite Hchr. split; [done|].
  rewrite parse_top_range, parse_cell_letter by (done || lia).
  cbn. repeat f_equal. lia.
Qed.

Lemma append_range_letter start_row headers df w :
  2 <= start_row ->
  1 <= length headers <= 26 ->
  append_range start_row headers df w
  = (Ok (ustr_of "A" ++ str_nat start_row ++ ustr_of ":"
         ++ [N.of_nat (64 + length headers)]
         ++ str_nat (start_row + length (rows df) - 1)), w)
  /\ parse_range (ustr_of "A" ++ str_nat start_row ++ ustr_of ":"
                  ++ [N.of_nat (64 + length headers)]
                  ++ str_nat (start_row + length (rows df) - 1))
     = Some ((start_row, 1),
             Some (start_row + length (rows df) - 1, length headers)).
Proof.
  intros Hs Hn. destruct (chr_letter _ Hn) as (Hchr & Hup & _).
  unfold append_range, chr_or_raise, bind. rewrite Hchr. split; [done|].
  rewrite parse_append_range, parse_cell_letter by (done || lia).
  cbn. repeat f_equal. lia.
Qed.

Lemma top_range_not_letter df w :
  length (columns df) = 0 \/ 26 < length (columns df) ->
  no_valid_range (top_range df w).1.
Proof.
  intros Hn. unfold top_range, chr_or_raise, bind.
  destruct (chr (64 + length (columns df))) as [c|] eqn:Hchr.
  - unfold ret. cbn [fst no_valid_range].
    unfold valid. rewrite parse_top_range.
    rewrite (parse_cell_not_letter c _ (chr_not_letter _ c Hn Hchr)).
    apply bool_decide_eq_false_2. intros [? H]. discriminate H.
  - reflexivity.
Qed.

Lemma append_range_not_letter start_row headers df w :
  2 <= start_row ->
  length headers = 0 \/ 26 < length headers ->
  no_valid_range (append_range start_row headers df w).1.
Proof.
  intros Hs Hn. unfold append_range, chr_or_raise, bind.
  destruct (chr (64 + length headers)) as [c|] eqn:Hchr.
  - unfold ret. cbn [fst no_valid_range].
    unfold valid. rewrite parse_append_range by lia.
    rewrite (parse_cell_not_letter c _ (chr_not_letter _ c Hn Hchr)).
    apply bool_decide_eq_false_2. intros [? H]. discriminate H.
  - reflexivity.
Qed.


End EndColumn.



Example top_range_no_columns :
  EmailProcessor.top_range Ingest.no_columns Ingest.empty_world
  = (Ok (A1.ustr_of "A1:@1"), Ingest.empty_world)
  /\ A1.valid (A1.ustr_of "A1:@1") = false.
Proof. split; reflexivity. Qed.

(** ** The spreadsheet appender *)

Section Appender.
Import EmailProcessor.

Lemma write_row_fresh vals : write_row 0 vals [] = vals.
Proof. unfold write_row. cbn. by rewrite drop_nil, app_nil_r. Qed.

Lemma write_rows_fresh block : write_rows 0 block [] = block.
Proof.
  induction block as [|vals block IH]; cbn [write_rows]; [done|].
  by rewrite write_row_fresh, IH.
Qed.

(** A block written just below the last row leaves every row in place. *)
Lemma write_block_below block (g : grid) :
  write_block (length g) 0 block g = g ++ block.
Proof.
  unfold write_block, pad_to. rewrite Nat.sub_diag. cbn [replicate].
  rewrite app_nil_r, firstn_all, drop_all. by rewrite write_rows_fresh.
Qed.

(** A first row written over a shorter one that it extends. *)
Lemma write_block_header (headers extra : list string) (rest : grid) :
  write_block 0 0 [headers ++ extra] (headers :: rest)
  = (headers ++ extra) :: rest.
Proof.
  unfold write_block, pad_to. cbn. rewrite app_nil_r.
  unfold write_row, pad_to. cbn.
  assert (Hlen : length headers <= length (headers ++ extra))
    by (rewrite length_app; lia).
  by rewrite take_0, (drop_ge _ _ Hlen), app_nil_r.
Qed.

Lemma map_display_VStr (l : list string) : map display (map VStr l) = l.
Proof. induction l as [|x l IH]; cbn; [done|]. by rewrite IH. Qed.

Lemma has_nan_strings (l : list string) (values : list (list value)) :
  has_nan (map VStr l :: values) = has_nan values.
Proof.
  unfold has_nan. cbn [existsb].
  assert (H : existsb is_nan (map VStr l) = false).
  { induction l as [|x l IH]; cbn; [done|exact IH]. }
  by rewrite H.
Qed.

(** A range that is not A1 notation is refused, and so is a value that
    cannot be sent. *)
Lemma worksheet_update_invalid ws range_name values w :
  A1.valid range_name = false ->
  exists e,
    worksheet_update ws range_name values w = (Raise e, w)
    /\ is_Exception e = true.
Proof.
  intros Hv. unfold worksheet_update, service_update.
  destruct (has_nan values); [by eexists|].
  destruct (A1.parse_range range_name) as [r|] eqn:E; [|by eexists].
  unfold A1.valid in Hv. rewrite E in Hv.
  apply bool_decide_eq_false_1 in Hv. by destruct Hv.
Qed.

Lemma worksheet_update_nan ws range_name values w :
  has_nan values = true ->
  exists e,
    worksheet_update ws range_name values w = (Raise e, w)
    /\ is_Exception e = true.
Proof.
  intros Hnan. unfold worksheet_update, service_update. rewrite Hnan.
  by eexists.
Qed.

Lemma worksheet_update_anchor ws range_name values w r c :
  has_nan values = false ->
  A1.parse_range range_name = Some ((r, c), None) ->
  worksheet_update ws range_name values w
  = (Ok tt,
     set_sheets (insert ws (write_block (r - 1) (c - 1)
                              (map (map display) values)
                              (default [] (sheets w !! ws)))) w).
Proof.
  intros Hnan E. unfold worksheet_update, service_update.
  by rewrite Hnan, E.
Qed.

Lemma worksheet_update_block ws range_name values w r c r' c' :
  has_nan values = false ->
  A1.parse_range range_name = Some ((r, c), Some (r', c')) ->
  length values <= r' + 1 - r ->
  Forall (fun row => length row <= c' + 1 - c) values ->
  worksheet_update ws range_name values w
  = (Ok tt,
     set_sheets (insert ws (write_block (r - 1) (c - 1)
                              (map (map display) values)
                              (default [] (sheets w !! ws)))) w).
Proof.
  intros Hnan E Hrows Hcols. unfold worksheet_update, service_update.
  rewrite Hnan, E.
  apply Nat.leb_le in Hrows. rewrite Hrows. cbn [andb].
  assert (Hall : forallb (fun row => (length row <=? c' + 1 - c)%nat) values
                 = true).
  { apply forallb_forall. intros row Hin.
    rewrite Forall_forall in Hcols. apply Nat.leb_le, Hcols.
    by apply list_elem_of_In. }
  by rewrite Hall.
Qed.

Lemma aligned_values_length headers df :
  length (aligned_values headers df) <= length (rows df).
Proof.
  unfold aligned_values. destruct (existsb _ _); cbn; [|lia].
  by rewrite length_map.
Qed.

Lemma aligned_values_width headers df :
  Forall (fun row => length row = length headers) (aligned_values headers df).
Proof.
  unfold aligned_values. destruct (existsb _ _); [|constructor].
  apply Forall_forall. intros row Hin. apply list_elem_of_In in Hin.
  apply in_map_iff in Hin as (r & <- & _). by rewrite length_map.
Qed.

(** The header row once the columns of [df] that it lacks are added. *)
Definition extended (headers : list string) (df : DataFrame) : list string :=
  headers ++ filter (fun col => col ∉ headers) (columns df).

Definition appended_rows (headers : list string) (df : DataFrame) : grid :=
  map (map display) (aligned_values (extended headers df) df).

Lemma write_with_headers_ok ws df w :
  sheets w !! ws = Some [] ->
  wf df ->
  has_nan (rows df) = false ->
  1 <= length (columns df) <= 26 ->
  write_with_headers ws df w
  = (Ok tt,
     set_sheets (insert ws (columns df :: map (map display) (rows df))) w).
Proof.
  intros Hlook Hwf Hnan Hn. unfold write_with_headers, bind.
  destruct (top_range_letter df w Hn) as [-> Hparse].
  rewrite (worksheet_update_block _ _ _ _ _ _ _ _
             (eq_trans (has_nan_strings _ _) Hnan) Hparse).
  - rewrite Hlook. cbn [default from_option]. unfold id. do 2 f_equal. f_equal.
    change (1 - 1) with 0.
    match goal with
    | |- write_block 0 0 ?b [] = _ =>
        pose proof (write_block_below b []) as Hblock
    end.
    cbn [length app] in Hblock. rewrite Hblock. cbn [map].
    by rewrite map_display_VStr.
  - cbn [length]. lia.
  - constructor.
    + rewrite length_map. lia.
    + eapply Forall_impl; [exact Hwf|]. cbn. intros r ->. lia.
Qed.

Lemma write_with_headers_fails ws df w :
  length (columns df) = 0 \/ 26 < length (columns df) ->
  exists e,
    write_with_headers ws df w = (Raise e, w) /\ is_Exception e = true.
Proof.
  intros Hn. pose proof (top_range_not_letter df w Hn) as Hbad.
  unfold write_with_headers, bind.
  assert (Hsame : (top_range df w).2 = w).
  { unfold top_range, chr_or_raise, bind. by destruct (A1.chr _). }
  destruct (top_range df w) as [[s|e] w1]; cbn in Hbad, Hsame; subst w1.
  - destruct (worksheet_update_invalid ws s
                (map VStr (columns df) :: rows df) w Hbad) as (e & -> & He).
    eauto.
  - subst e. eauto.
Qed.

Lemma write_below_ok ws headers rest df w :
  sheets w !! ws = Some (headers :: rest) ->
  has_nan (aligned_values (extended headers df) df) = false ->
  1 <= length (extended headers df) <= 26 ->
  exists w',
    write_below ws (headers :: rest) headers df w = (Ok tt, w')
    /\ sheets w'
       = <[ws := extended headers df :: rest ++ appended_rows headers df]>
           (sheets w)
    /\ fs w' = fs w /\ drive w' = drive w.
Proof.
  intros Hlook Hnan Hn.
  unfold write_below, bind, appended_rows, extended in *.
  set (missing := filter (fun col => col ∉ headers) (columns df)) in *.
  assert (Hs : 2 <= length (headers :: rest) + 1) by (cbn; lia).
  destruct missing as [|m ms] eqn:Hmiss.
  - rewrite app_nil_r in *. unfold ret at 1.
    destruct (append_range_letter _ headers df w Hs Hn) as [-> Hparse].
    rewrite (worksheet_update_block _ _ _ _ _ _ _ _ Hnan Hparse).
    + eexists. split; [reflexivity|]. cbn [sheets set_sheets fs drive].
      rewrite Hlook. cbn [default from_option]. unfold id.
      replace (length (headers :: rest) + 1 - 1) with (length (headers :: rest))
        by lia.
      change (1 - 1) with 0. by rewrite write_block_below.
    + pose proof (aligned_values_length headers df). lia.
    + eapply Forall_impl; [apply aligned_values_width|]. cbn. intros r ->. lia.
  - unfold logger.
    rewrite (worksheet_update_anchor ws (A1.ustr_of "A1") _ _ 1 1
               (has_nan_strings _ []) eq_refl).
    cbn [sheets]. rewrite Hlook. cbn [default from_option map]. unfold id.
    rewrite map_display_VStr. change (1 - 1) with 0.
    rewrite write_block_header. unfold ret at 1.
    set (w1 := set_sheets _ _).
    destruct (append_range_letter _ (headers ++ m :: ms) df w1 Hs Hn)
      as [-> Hparse].
    rewrite (worksheet_update_block _ _ _ _ _ _ _ _ Hnan Hparse).
    + eexists. split; [reflexivity|]. subst w1.
      cbn [sheets set_sheets fs drive].
      rewrite lookup_insert_eq. cbn [default from_option]. unfold id.
      rewrite insert_insert_eq.
      replace (length (headers :: rest) + 1 - 1)
        with (length ((headers ++ m :: ms) :: rest)) by (cbn; lia).
      change (1 - 1) with 0. by rewrite write_block_below.
    + pose proof (aligned_values_length (headers ++ m :: ms) df). lia.
    + eapply Forall_impl; [apply aligned_values_width|]. cbn. intros r ->. lia.
Qed.

Lemma write_below_fails ws headers rest df w :
  sheets w !! ws = Some (headers :: rest) ->
  length (extended headers df) = 0 \/ 26 < length (extended headers df) ->
  exists e w',
    write_below ws (headers :: rest) headers df w = (Raise e, w')
    /\ is_Exception e = true
    /\ sheets w' = <[ws := extended headers df :: rest]> (sheets w).
Proof.
  intros Hlook Hn. unfold write_below, bind, extended in *.
  set (missing := filter (fun col => col ∉ headers) (columns df)) in *.
  assert (Hs : 2 <= length (headers :: rest) + 1) by (cbn; lia).
  assert (Hsame : forall hs w0,
            (append_range (length (headers :: rest) + 1) hs df w0).2 = w0).
  { intros hs w0. unfold append_range, chr_or_raise, bind.
    by destruct (A1.chr _). }
  destruct missing as [|m ms] eqn:Hmiss.
  - rewrite app_nil_r in *. unfold ret at 1.
    pose proof (append_range_not_letter _ headers df w Hs Hn) as Hbad.
    specialize (Hsame headers w).
    destruct (append_range _ headers df w) as [[s|e] w1];
      cbn in Hbad, Hsame; subst w1.
    + destruct (worksheet_update_invalid ws s (aligned_values headers df)
                  w Hbad) as (e & -> & He).
      eexists _, _. split; [reflexivity|]. split; [done|].
      by rewrite insert_id.
    + subst e. eexists _, _. split; [reflexivity|]. split; [done|].
      by rewrite insert_id.
  - unfold logger.
    rewrite (worksheet_update_anchor ws (A1.ustr_of "A1") _ _ 1 1
               (has_nan_strings _ []) eq_refl).
    cbn [sheets]. rewrite Hlook. cbn [default from_option map]. unfold id.
    rewrite map_display_VStr. change (1 - 1) with 0.
    rewrite write_block_header. unfold ret at 1.
    set (w1 := set_sheets _ _).
    pose proof (append_range_not_letter _ (headers ++ m :: ms) df w1 Hs Hn)
      as Hbad.
    specialize (Hsame (headers ++ m :: ms) w1).
    destruct (append_range _ (headers ++ m :: ms) df w1) as [[s|e] w2];
      cbn in Hbad, Hsame; subst w2.
    + destruct (worksheet_update_invalid ws s
                  (aligned_values (headers ++ m :: ms) df) w1 Hbad)
        as (e & -> & He).
      eexists _, _. split; [reflexivity|]. split; [done|]. done.
    + subst e. eexists _, _. split; [reflexivity|]. split; [done|]. done.
Qed.

(** What C1 states, on the code, whenever the range is A1 notation (1 to
    26 columns written) and no value to write is NaN: on an empty sheet
    the header row and the data rows are written from row 1; on a sheet
    with rows the incoming rows go below the last one, the rows already
    there stay as they are, and the header row only grows by the columns it
    lacked. *)
Theorem append_to_gsheet_appends self df sheet_type ws w existing :
  (forall w0, sheet_of (config self) sheet_type w0 = (Ok ws, w0)) ->
  sheets w !! ws = Some existing ->
  wf df ->
  match existing with
  | [] =>
      has_nan (rows df) = false ->
      1 <= length (columns df) <= 26 ->
      exists w',
        append_to_gsheet self df sheet_type w = (Ok true, w')
        /\ sheets w'
           = <[ws := columns df :: map (map display) (rows df)]> (sheets w)
  | headers :: rest =>
      has_nan (aligned_values (extended headers df) df) = false ->
      1 <= length (extended headers df) <= 26 ->
      exists w',
        append_to_gsheet self df sheet_type w = (Ok true, w')
        /\ sheets w'
           = <[ws := extended headers df :: rest ++ appended_rows headers df]>
               (sheets w)
  end.
Proof.
  intros Hsheet Hlook Hwf.
  unfold append_to_gsheet, try_except, bind, logger.
  rewrite Hsheet. unfold open_worksheet, get_all_values.
  set (w1 := mkWorld _ _ _ _).
  assert (Hlook1 : sheets w1 !! ws = Some existing) by exact Hlook.
  rewrite !Hlook1. cbn [default from_option]. unfold id.
  destruct existing as [|headers rest]; intros Hnan Hn; cbv beta iota.
  - rewrite (write_with_headers_ok ws df w1 Hlook1 Hwf Hnan Hn).
    eexists. split; reflexivity.
  - destruct (write_below_ok ws headers rest df w1 Hlook1 Hnan Hn)
      as (w' & -> & Hsheets & _).
    eexists. split; [reflexivity|]. exact Hsheets.
Qed.

(** C1 (the code departs from it): with no column or more than 26 the
    range that the appender asks for is not A1 notation, the service
    refuses it, and the handler returns [False]. An empty sheet stays
    empty; a sheet with rows gets at most its header row extended and no
    row below the last one. *)
Theorem append_to_gsheet_wide_frame self df sheet_type ws w existing :
  (forall w0, sheet_of (config self) sheet_type w0 = (Ok ws, w0)) ->
  sheets w !! ws = Some existing ->
  match existing with
  | [] =>
      length (columns df) = 0 \/ 26 < length (columns df) ->
      exists w',
        append_to_gsheet self df sheet_type w = (Ok false, w')
        /\ sheets w' = sheets w
  | headers :: rest =>
      length (extended headers df) = 0 \/ 26 < length (extended headers df) ->
      exists w',
        append_to_gsheet self df sheet_type w = (Ok false, w')
        /\ sheets w' = <[ws := extended headers df :: rest]> (sheets w)
  end.
Proof.
  intros Hsheet Hlook.
  unfold append_to_gsheet, try_except, bind, logger.
  rewrite Hsheet. unfold open_worksheet, get_all_values.
  set (w1 := mkWorld _ _ _ _).
  assert (Hlook1 : sheets w1 !! ws = Some existing) by exact Hlook.
  rewrite !Hlook1. cbn [default from_option]. unfold id.
  destruct existing as [|headers rest]; intros Hn; cbv beta iota.
  - destruct (write_with_headers_fails ws df w1 Hn) as (e & -> & ->).
    eexists. split; reflexivity.
  - destruct (write_below_fails ws headers rest df w1 Hlook1 Hn)
      as (e & w' & -> & -> & Hsheets).
    eexists. split; [reflexivity|]. exact Hsheets.
Qed.

End Appender.

Lemma append_to_gsheet_wide_frame_witness :
  exists w',
    EmailProcessor.append_to_gsheet Ingest.local_processor Ingest.wide "to"
      Ingest.empty_sheet_world
    = (Ok false, w')
    /\ EmailProcessor.sheets w' = EmailProcessor.sheets Ingest.empty_sheet_world.
Proof.
  apply (append_to_gsheet_wide_frame Ingest.local_processor Ingest.wide "to"
           Ingest.to_sheet Ingest.empty_sheet_world []
           (fun _ => eq_refl) eq_refl).
  right. vm_compute. lia.
Defined.

(** The range asked for with the 27 columns and the one row of
    [Ingest.wide]. *)
Example top_range_wide :
  EmailProcessor.top_range Ingest.wide Ingest.empty_sheet_world
  = (Ok (A1.ustr_of "A1:[2"), Ingest.empty_sheet_world).
Proof. vm_compute. reflexivity. Qed.

(** Within 26 columns the same sheet receives the headers and the row. *)
Example append_to_empty_sheet :
  exists w',
    EmailProcessor.append_to_gsheet Ingest.local_processor
      Ingest.to_without_duration "to" Ingest.empty_sheet_world
    = (Ok true, w')
    /\ EmailProcessor.sheets w' !! Ingest.to_sheet
       = Some [["Employee ID"; "Time Off Date"; "Type"];
               ["E1"; "2025-03-12"; "Vacation"]].
Proof.
  destruct (append_to_gsheet_appends Ingest.local_processor
              Ingest.to_without_duration "to" Ingest.to_sheet
              Ingest.empty_sheet_world [] (fun _ => eq_refl) eq_refl)
    as (w' & Hrun & Hsheets).
  - repeat constructor.
  - reflexivity.
  - cbn. lia.
  - exists w'. split; [exact Hrun|]. rewrite Hsheets.
    by rewrite lookup_insert_eq.
Qed.

(** ** Strings and file names *)

Section StringFacts.

Lemma chars_app a b : Str.chars (a +:+ b) = Str.chars a ++ Str.chars b.
Proof.
  unfold Str.chars. induction a as [|c a IH]; [done|].
  change (String c a +:+ b) with (String c (a +:+ b)).
  cbn [String.list_ascii_of_string app]. by rewrite IH.
Qed.

Lemma of_chars_chars s : Str.of_chars (Str.chars s) = s.
Proof. apply String.string_of_list_ascii_of_string. Qed.

Lemma chars_of_chars l : Str.chars (Str.of_chars l) = l.
Proof. apply String.list_ascii_of_string_of_list_ascii. Qed.

Lemma chars_inj a b : Str.chars a = Str.chars b -> a = b.
Proof. intros H. by rewrite <- (of_chars_chars a), H, of_chars_chars. Qed.

Lemma find_index_app_fresh c l rest :
  c ∉ l -> Str.find_index c (l ++ c :: rest) = Some (length l).
Proof.
  induction l as [|x l IH]; cbn; intros Hc.
  - by rewrite Ascii.eqb_refl.
  - apply not_elem_of_cons in Hc as [Hx Hl].
    destruct (Ascii.eqb_spec x c) as [->|_]; [done|].
    by rewrite (IH Hl).
Qed.

(** The stem of a name that ends in a dot and an extension without dot,
    after at least one other character. *)
Lemma stem_of_name_ext nm base ext :
  Str.chars nm = base ++ "."%char :: ext ->
  base ≠ [] -> ext ≠ [] -> "."%char ∉ ext ->
  stem_of_name nm = Str.of_chars base.
Proof.
  intros Hnm Hbase Hext Hdot. unfold stem_of_name, suffix_len, Str.after_last.
  rewrite Hnm, rev_app_distr. cbn [rev]. rewrite <- app_assoc. cbn [app].
  rewrite find_index_app_fresh
    by (by rewrite list_elem_of_In, <- in_rev, <- list_elem_of_In).
  rewrite length_rev, length_app. cbn [length].
  destruct ext as [|e ext]; [done|]. destruct base as [|b base]; [done|].
  cbn [length].
  replace (0 <? S (length ext))%nat with true by (symmetry; apply Nat.ltb_lt; lia).
  replace (S (length ext) + 1 <? S (length base) + S (S (length ext)))%nat
    with true by (symmetry; apply Nat.ltb_lt; lia).
  cbn [andb]. f_equal.
  replace (S (length base) + S (S (length ext)) - S (S (length ext)))
    with (length (b :: base)) by (cbn; lia).
  by rewrite take_app_length.
Qed.

(** A suffix that starts with a character foreign to the first part of a
    string lies in the second part. *)
Lemma suffix_app_fresh {A} (c : A) (s a b : list A) :
  c ∉ a -> (c :: s) `suffix_of` (a ++ b) -> (c :: s) `suffix_of` b.
Proof.
  intros Hc [k Hk]. revert k Hk. induction a as [|x a IH]; intros k Hk.
  - by exists k.
  - apply not_elem_of_cons in Hc as [Hx Ha].
    destruct k as [|y k]; cbn in Hk.
    + injection Hk as -> _. done.
    + injection Hk as _ Hk. by apply (IH Ha k).
Qed.

(** A string without slash that is neither empty nor a dot is one path
    component. *)
Definition is_component (s : string) : Prop :=
  ("/"%char ∉ Str.chars s) /\ s ≠ "" /\ s ≠ ".".

Lemma split_on_fresh sep l : sep ∉ l -> Str.split_on sep l = [l].
Proof.
  induction l as [|x l IH]; cbn; intros Hc; [done|].
  apply not_elem_of_cons in Hc as [Hx Hl].
  destruct (Ascii.eqb_spec x sep) as [->|_]; [done|].
  by rewrite (IH Hl).
Qed.

Lemma Path_of_string_component s : is_component s -> Path_of_string s = [s].
Proof.
  intros (Hslash & Hne & Hdot). unfold Path_of_string, Str.split.
  rewrite (split_on_fresh _ _ Hslash). cbn [map]. rewrite of_chars_chars.
  rewrite filter_cons_True by done. rewrite filter_nil.
  unfold Str.startswith. rewrite bool_decide_eq_false_2; [done|].
  intros [k Hk]. apply Hslash. rewrite Hk. cbn. left.
Qed.

Lemma div_component (p : Path) s : is_component s -> div p s = p ++ [s].
Proof.
  intros Hs. unfold div. rewrite (Path_of_string_component s Hs).
  destruct Hs as (Hslash & _). cbn.
  destruct (String.eqb_spec s "/") as [->|_]; [|done].
  exfalso. apply Hslash. cbn. left.
Qed.

End StringFacts.

(** ** Archiving to the local tree *)

Section LocalArchive.
Import EmailProcessor.

Definition is_stamp_char (c : ascii) : bool :=
  let n := nat_of_ascii c in
  ((48 <=? n) && (n <=? 57) || (n =? 95))%nat.

Lemma string_of_uint_stamp d :
  forallb is_stamp_char
    (Str.chars (DecimalString.NilEmpty.string_of_uint d)) = true.
Proof. induction d; cbn; auto. Qed.

Lemma zeros_stamp n : forallb is_stamp_char (Str.chars (zeros n)) = true.
Proof. induction n as [|n IH]; [done|]. exact IH. Qed.

Lemma padded_stamp width n :
  forallb is_stamp_char (Str.chars (padded width n)) = true.
Proof.
  unfold padded. rewrite chars_app, forallb_app, zeros_stamp.
  apply string_of_uint_stamp.
Qed.

(** The compact timestamp is made of digits and one underscore. *)
Lemma strftime_compact_stamp t :
  forallb is_stamp_char (Str.chars (strftime_compact t)) = true.
Proof.
  unfold strftime_compact.
  rewrite !chars_app, !forallb_app, !padded_stamp. reflexivity.
Qed.

Lemma stamp_fresh c l :
  is_stamp_char c = false -> forallb is_stamp_char l = true -> c ∉ l.
Proof.
  intros Hc Hl Hin. apply list_elem_of_In in Hin.
  rewrite forallb_forall in Hl. specialize (Hl c Hin). congruence.
Qed.

(** The name given on a collision. *)
Definition stamped (t : DateTime) (filename : string) : string :=
  strftime_compact t +:+ "_" +:+ filename.

Lemma chars_stamped t filename :
  Str.chars (stamped t filename)
  = (Str.chars (strftime_compact t) ++ ["_"%char]) ++ Str.chars filename.
Proof. unfold stamped. rewrite !chars_app, <- app_assoc. reflexivity. Qed.

Lemma stamp_prefix_fresh c t :
  is_stamp_char c = false -> c ∉ Str.chars (strftime_compact t) ++ ["_"%char].
Proof.
  intros Hc. apply (stamp_fresh c _ Hc).
  by rewrite forallb_app, strftime_compact_stamp.
Qed.

Lemma stamped_longer t filename :
  length (Str.chars filename) < length (Str.chars (stamped t filename)).
Proof. rewrite chars_stamped, !length_app. cbn. lia. Qed.

Lemma stamped_distinct t filename : stamped t filename ≠ filename.
Proof.
  intros H. pose proof (stamped_longer t filename) as Hlen.
  rewrite H in Hlen. lia.
Qed.

Lemma stamped_component t filename :
  is_component filename -> is_component (stamped t filename).
Proof.
  intros (Hslash & _ & _).
  assert (Hunder : "_"%char ∈ Str.chars (stamped t filename)).
  { rewrite chars_stamped. apply elem_of_app. left. apply elem_of_app.
    right. left. }
  split; [|split].
  - rewrite chars_stamped. intros [Hin|Hin]%elem_of_app; [|done].
    by apply (stamp_prefix_fresh "/"%char t).
  - intros E. rewrite E in Hunder. by apply elem_of_nil in Hunder.
  - intros E. rewrite E in Hunder. cbn in Hunder.
    apply list_elem_of_singleton in Hunder. discriminate Hunder.
Qed.

(** The sidecar of the renamed file is not the file that was there. *)
Lemma sidecar_not_original t filename :
  stem_of_name (stamped t filename) +:+ ".json" ≠ filename.
Proof.
  intros H. set (st := stem_of_name (stamped t filename)) in *.
  assert (Hchars : Str.chars (stamped t filename)
                   = ((Str.chars (strftime_compact t) ++ ["_"%char])
                      ++ Str.chars st) ++ "."%char :: Str.chars "json").
  { rewrite chars_stamped. rewrite <- H at 1. rewrite chars_app.
    by rewrite <- !app_assoc. }
  assert (Hst : st = Str.of_chars ((Str.chars (strftime_compact t)
                                    ++ ["_"%char]) ++ Str.chars st)).
  { apply (stem_of_name_ext _ _ _ Hchars).
    - by destruct (Str.chars (strftime_compact t)).
    - done.
    - by apply (bool_decide_unpack _). }
  apply (f_equal Str.chars) in Hst. rewrite chars_of_chars in Hst.
  apply (f_equal length) in Hst. rewrite !length_app in Hst. cbn in Hst. lia.
Qed.

(** Unless the file is itself a [.json], the sidecar is not the copy. *)
Lemma sidecar_not_copy t filename :
  Str.endswith filename ".json" = false ->
  stem_of_name (stamped t filename) +:+ ".json" ≠ stamped t filename.
Proof.
  intros Hend H. apply bool_decide_eq_false_1 in Hend. apply Hend.
  apply (suffix_app_fresh _ _ (Str.chars (strftime_compact t) ++ ["_"%char])).
  - by apply stamp_prefix_fresh.
  - rewrite <- chars_stamped, <- H, chars_app. by eexists.
Qed.

Context (env : Env).

Lemma kind_key_component file_type : is_component (kind_key file_type).
Proof.
  unfold kind_key. destruct (String.eqb file_type "loa");
    (split; [by apply (bool_decide_unpack _)|split; discriminate]).
Qed.

Lemma name_snoc (p : Path) x y : name ((p ++ [x]) ++ [y]) = y.
Proof.
  unfold name. destruct ((p ++ [x]) ++ [y]) as [|a [|b l]] eqn:E.
  - by destruct p.
  - destruct p; cbn in E; [discriminate E|]. destruct p; discriminate E.
  - rewrite <- E. apply last_last.
Qed.

Lemma with_suffix_snoc (p : Path) x y suf :
  y ≠ "" ->
  with_suffix ((p ++ [x]) ++ [y]) suf
  = Some ((p ++ [x]) ++ [stem_of_name y +:+ suf]).
Proof.
  intros Hy. unfold with_suffix. rewrite name_snoc.
  destruct (String.eqb_spec y ""); [done|]. by rewrite removelast_last.
Qed.

(** C6, amended: in local mode, when the archive already holds a file of
    the same name and the downloaded file can be read, the new copy is
    stored under the name prefixed with the timestamp, which differs from
    the name taken; the file that was there keeps its content; so does
    Drive. The copy holds the downloaded bytes unless the file is itself a
    [.json], which the sidecar then replaces. *)
Theorem archive_file_local_collision self file_path kind w dir d :
  archive_method (config self) = Some "local" ->
  archive_dir self = Some dir ->
  is_component (name file_path) ->
  fs w !! file_path = Some d ->
  let filename := name file_path in
  let target_dir := dir ++ [kind_key kind] in
  let archived := stamped (datetime_now env w) filename in
  is_Some (fs w !! (target_dir ++ [filename])) ->
  exists w',
    archive_file env self file_path kind w
    = (Ok (Some (to_string (target_dir ++ [archived]))), w')
    /\ archived ≠ filename
    /\ Str.startswith archived (strftime_compact (datetime_now env w)) = true
    /\ fs w' !! (target_dir ++ [filename]) = fs w !! (target_dir ++ [filename])
    /\ (Str.endswith filename ".json" = false ->
        fs w' !! (target_dir ++ [archived]) = Some d)
    /\ is_Some (fs w' !! (target_dir ++ [stem_of_name archived +:+ ".json"]))
    /\ drive w' = drive w.
Proof.
  intros Hmethod Hdir Hname Hsrc filename target_dir archived Htaken.
  pose proof (stamped_component (datetime_now env w) filename Hname) as Hcomp.
  unfold archive_file, try_except, bind, now, require, ret. rewrite Hmethod.
  cbv beta iota. rewrite String.eqb_refl.
  unfold archive_local, bind, attribute, ret. rewrite Hdir. cbv beta iota.
  cbn [file_type original_filename archived_timestamp archived_by].
  rewrite (div_component dir _ (kind_key_component kind)).
  fold target_dir. fold filename.
  rewrite (div_component target_dir filename Hname).
  unfold fs_exists. rewrite (bool_decide_eq_true_2 _ Htaken). cbv beta iota.
  unfold now. cbv beta iota.
  fold (stamped (datetime_now env w) filename). fold archived.
  rewrite (div_component target_dir archived Hcomp).
  unfold copy2. rewrite Hsrc. cbv beta iota.
  assert (Hws : with_suffix (target_dir ++ [archived]) ".json"
                = Some (target_dir ++ [stem_of_name archived +:+ ".json"])).
  { apply with_suffix_snoc, Hcomp. }
  rewrite Hws. unfold write_json, logger. cbv beta iota.
  eexists. split; [reflexivity|].
  cbn [fs set_fs drive].
  assert (Hne1 : target_dir ++ [archived] ≠ target_dir ++ [filename]).
  { intros E%app_inv_head. injection E as E.
    by apply (stamped_distinct (datetime_now env w) filename). }
  assert (Hne2 : target_dir ++ [stem_of_name archived +:+ ".json"]
                 ≠ target_dir ++ [filename]).
  { intros E%app_inv_head. injection E as E.
    by apply (sidecar_not_original (datetime_now env w) filename). }
  split; [apply stamped_distinct|]. split.
  { apply bool_decide_eq_true_2. unfold archived, stamped.
    rewrite chars_app. by eexists. }
  split.
  { by rewrite lookup_insert_ne, lookup_insert_ne. }
  split.
  { intros Hjson. rewrite lookup_insert_ne, lookup_insert_eq; [done|].
    intros E%app_inv_head. injection E as E.
    by apply (sidecar_not_copy (datetime_now env w) filename Hjson). }
  split; [|done].
  rewrite lookup_insert_eq. by eexists.
Qed.

End LocalArchive.

Lemma archive_file_local_collision_witness :
  exists w',
    EmailProcessor.archive_file (Ingest.env_of Ingest.to_without_duration)
      Ingest.local_processor Ingest.download "to" Ingest.collision_world
    = (Ok (Some "/archive/to/20250312_070000_report.xlsx"), w')
    /\ EmailProcessor.fs w' !! Ingest.archived_report
       = Some (EmailProcessor.Bytes "first export")
    /\ EmailProcessor.fs w'
         !! ["/"; "archive"; "to"; "20250312_070000_report.xlsx"]
       = Some (EmailProcessor.Bytes "second export").
Proof.
  destruct (archive_file_local_collision
              (Ingest.env_of Ingest.to_without_duration)
              Ingest.local_processor Ingest.download "to"
              Ingest.collision_world ["/"; "archive"]
              (EmailProcessor.Bytes "second export") eq_refl eq_refl)
    as (w' & Hrun & _ & _ & Hkept & Hcopy & _).
  - split; [by apply (bool_decide_unpack _)|split; discriminate].
  - reflexivity.
  - by eexists.
  - exists w'. split; [exact Hrun|]. split.
    + etrans; [exact Hkept|reflexivity].
    + by apply Hcopy.
Defined.

(** The run on the second [report.xlsx], evaluated. *)
Example archive_second_report :
  (EmailProcessor.archive_file (Ingest.env_of Ingest.to_without_duration)
     Ingest.local_processor Ingest.download "to" Ingest.collision_world).1
  = Ok (Some "/archive/to/20250312_070000_report.xlsx").
Proof. vm_compute. reflexivity. Qed.

(** C6 as stated: the name given on a collision carries the timestamp as
    a suffix, of the name or of its stem. *)
Definition archived_as_stated (env : EmailProcessor.Env)
    (self : EmailProcessor.Processor) (file_path : Path) (kind : string)
    (w : EmailProcessor.World) : Prop :=
  exists loc w',
    EmailProcessor.archive_file env self file_path kind w = (Ok (Some loc), w')
    /\ let stamp := EmailProcessor.strftime_compact
                      (EmailProcessor.datetime_now env w) in
       Str.endswith loc stamp = true
       \/ Str.endswith (stem (Path_of_string loc)) stamp = true.

(** It fails on the code: the second [report.xlsx] is stored as
    [20250312_070000_report.xlsx], the timestamp in front. *)
Lemma archive_file_prefix_counterexample :
  ~ archived_as_stated (Ingest.env_of Ingest.to_without_duration)
      Ingest.local_processor Ingest.download "to" Ingest.collision_world.
Proof.
  intros (loc & w' & Hrun & Hsuffix).
  pose proof archive_second_report as Hrun'. rewrite Hrun in Hrun'.
  injection Hrun' as ->.
  destruct Hsuffix as [H|H]; vm_compute in H; discriminate H.
Qed.

(** ** The comparison template *)

Section ComparisonTemplate.
Import CompareVersionsMacro.
Context (lower : string -> string).
Context (columns_in_relation : string -> list Column).
Context (set_escapes_loop : bool).

Abbreviation same := (same_name lower).
Abbreviation flag_read := (flag_after_loop set_escapes_loop).

(** The names of [mine] that the template reports as absent from
    [others]. *)
Definition only_names (mine others : list Column) : list string :=
  map col_name
    (filter (fun col => flag_read (existsb (same col) others) = false) mine).

(** The names of [cols1] once for each column of [cols2] of the same name
    up to case. *)
Definition common_names (cols1 cols2 : list Column) : list string :=
  concat (map (fun col1 =>
                 map (fun _ => col_name col1)
                   (filter (fun col2 => same col1 col2 = true) cols2))
            cols1).

Lemma first_inner_fold col1 cols2 common changes flag :
  exists changes',
    fold_left (first_inner lower col1) cols2 (common, changes, flag)
    = (common ++ map (fun _ => col_name col1)
                   (filter (fun col2 => same col1 col2 = true) cols2),
       changes',
       flag || existsb (same col1) cols2).
Proof.
  revert common changes flag.
  induction cols2 as [|col2 cols2 IH]; intros common changes flag;
    cbn [fold_left existsb].
  - exists changes. by rewrite filter_nil, app_nil_r, orb_false_r.
  - unfold first_inner at 2. destruct (same col1 col2) eqn:E.
    + rewrite filter_cons_True by done.
      edestruct IH as [changes' ->]. exists changes'.
      cbn [map]. by rewrite <- app_assoc, orb_true_r.
    + rewrite filter_cons_False by (by rewrite E).
      edestruct IH as [changes' ->]. exists changes'. done.
Qed.

Lemma first_outer_fold cols2 cols1 common only1 changes :
  exists changes',
    fold_left (first_outer lower set_escapes_loop cols2) cols1
      (common, only1, changes)
    = (common ++ common_names cols1 cols2,
       only1 ++ only_names cols1 cols2,
       changes').
Proof.
  revert common only1 changes.
  induction cols1 as [|col1 cols1 IH]; intros common only1 changes;
    cbn [fold_left].
  - exists changes. unfold common_names, only_names.
    by rewrite filter_nil, !app_nil_r.
  - unfold first_outer at 2.
    destruct (first_inner_fold col1 cols2 common changes false)
      as [changes1 ->]. cbn [orb].
    edestruct IH as [changes' ->]. exists changes'.
    unfold common_names, only_names. cbn [map concat].
    destruct (flag_read (existsb (same col1) cols2)) eqn:E.
    + rewrite filter_cons_False by (by rewrite E). by rewrite <- app_assoc.
    + rewrite filter_cons_True by done. cbn [map].
      by rewrite <- !app_assoc.
Qed.

Lemma second_inner_fold col2 cols1 flag :
  fold_left (second_inner lower col2) cols1 flag
  = flag || existsb (same col2) cols1.
Proof.
  revert flag. induction cols1 as [|col1 cols1 IH]; intros flag;
    cbn [fold_left existsb].
  - by rewrite orb_false_r.
  - unfold second_inner at 2. rewrite IH.
    destruct (same col2 col1); [by rewrite orb_true_r|done].
Qed.

Lemma second_outer_fold cols1 cols2 only2 :
  fold_left (second_outer lower set_escapes_loop cols1) cols2 only2
  = only2 ++ only_names cols2 cols1.
Proof.
  revert only2. induction cols2 as [|col2 cols2 IH]; intros only2;
    cbn [fold_left].
  - unfold only_names. by rewrite filter_nil, app_nil_r.
  - rewrite IH. unfold second_outer, only_names.
    rewrite second_inner_fold. cbn [orb].
    destruct (flag_read (existsb (same col2) cols1)) eqn:E.
    + by rewrite filter_cons_False by (by rewrite E).
    + rewrite filter_cons_True by done. cbn [map]. by rewrite <- app_assoc.
Qed.

(** What the two passes of the template leave in the three lists. *)
Lemma compare_columns_lists cols1 cols2 :
  let r := compare_columns lower set_escapes_loop cols1 cols2 in
  common_cols r = common_names cols1 cols2
  /\ version1_only_cols r = only_names cols1 cols2
  /\ version2_only_cols r = only_names cols2 cols1.
Proof.
  unfold compare_columns.
  destruct (first_outer_fold cols2 cols1 [] [] []) as [changes ->].
  rewrite second_outer_fold. cbn. done.
Qed.

Lemma elem_of_common_names cols1 cols2 k :
  k ∈ map lower (common_names cols1 cols2)
  <-> exists col1 col2,
        col1 ∈ cols1 /\ col2 ∈ cols2
        /\ lower (col_name col1) = k /\ lower (col_name col2) = k.
Proof.
  unfold common_names. rewrite list_elem_of_In, in_map_iff. split.
  - intros (nm & <- & Hin). apply in_concat in Hin as (l & Hl & Hnm).
    apply in_map_iff in Hl as (col1 & <- & Hcol1).
    apply in_map_iff in Hnm as (col2 & <- & Hcol2).
    apply list_elem_of_In, list_elem_of_filter in Hcol2 as [Hsame Hcol2].
    apply bool_decide_eq_true_1 in Hsame.
    exists col1, col2. rewrite <- Hsame. by rewrite list_elem_of_In.
  - intros (col1 & col2 & H1 & H2 & E1 & E2). exists (col_name col1).
    split; [done|]. apply in_concat.
    exists (map (fun _ => col_name col1)
              (filter (fun c2 => same col1 c2 = true) cols2)).
    split.
    + apply in_map_iff. exists col1. split; [done|]. by apply list_elem_of_In.
    + apply in_map_iff. exists col2. split; [done|].
      apply list_elem_of_In, list_elem_of_filter. split; [|done].
      apply bool_decide_eq_true_2. congruence.
Qed.

(** C7: the template generated for [(model2, model1)] reports as
    left-only what the template for [(model1, model2)] reports as
    right-only, and the other way round; the common columns are the same
    set of names up to case. This holds under both readings of a [set]
    made inside a [for] body. *)
Theorem compare_versions_swap model1_name model2_name :
  let run := run_operation lower columns_in_relation set_escapes_loop in
  exists r12 r21,
    run (CompareModels.ComparisonMacro model1_name model2_name) = Some r12
    /\ run (CompareModels.ComparisonMacro model2_name model1_name) = Some r21
    /\ version1_only_cols r21 = version2_only_cols r12
    /\ version2_only_cols r21 = version1_only_cols r12
    /\ (forall k, k ∈ map lower (common_cols r21)
                  <-> k ∈ map lower (common_cols r12)).
Proof.
  cbn. eexists _, _. split; [reflexivity|]. split; [reflexivity|].
  unfold compare_versions.
  destruct (compare_columns_lists (columns_in_relation model1_name)
              (columns_in_relation model2_name)) as (Hc12 & Ha12 & Hb12).
  destruct (compare_columns_lists (columns_in_relation model2_name)
              (columns_in_relation model1_name)) as (Hc21 & Ha21 & Hb21).
  rewrite Hc12, Ha12, Hb12, Hc21, Ha21, Hb21.
  split; [done|]. split; [done|].
  intros k. rewrite !elem_of_common_names. split.
  - intros (c2 & c1 & ? & ? & ? & ?). exists c1, c2. done.
  - intros (c1 & c2 & ? & ? & ? & ?). exists c2, c1. done.
Qed.

End ComparisonTemplate.

(** ** The orchestrator: which steps touch the files *)

Section Stable.
Import CompareModels.
Context (env : Env).

(** A statement that leaves the files and the working directory as they
    are, whatever it returns or raises. *)
Definition stable {A} (m : M World A) : Prop :=
  forall w, files (m w).2 = files w /\ cwd (m w).2 = cwd w.

Definition stable_locals {L A} (m : M (World * L) A) : Prop :=
  forall s, files (m s).2.1 = files s.1 /\ cwd (m s).2.1 = cwd s.1.

Lemma stable_ret {A} (a : A) : stable (ret a).
Proof. by intros w. Qed.

Lemma stable_raise {A} e : stable (@raise World A e).
Proof. by intros w. Qed.

Lemma stable_bind {A B} (m : M World A) (k : A -> M World B) :
  stable m -> (forall a, stable (k a)) -> stable (bind m k).
Proof.
  intros Hm Hk w. unfold bind. destruct (Hm w) as [Hf Hc].
  destruct (m w) as [[a|e] w1]; simpl in *; [|done].
  destruct (Hk a w1) as [Hf' Hc']. split; congruence.
Qed.

Lemma stable_try_except {A} (m : M World A) (h : exn -> M World A) :
  stable m -> (forall e, stable (h e)) -> stable (try_except m h).
Proof.
  intros Hm Hh w. unfold try_except. destruct (Hm w) as [Hf Hc].
  destruct (m w) as [[a|e] w1]; simpl in *; [done|].
  destruct (Hh e w1) as [Hf' Hc']. split; congruence.
Qed.

Lemma stable_for_each {A} (xs : list A) (body : A -> M World unit) :
  (forall x, stable (body x)) -> stable (for_each xs body).
Proof.
  intros Hbody. induction xs as [|x xs IH]; cbn [for_each].
  - apply stable_ret.
  - apply stable_bind; [apply Hbody|]. intros _. exact IH.
Qed.

Lemma stable_print line : stable (print line).
Proof. by intros w. Qed.

Lemma stable_get_world : stable get_world.
Proof. by intros w. Qed.

Lemma stable_path_exists p : stable (path_exists p).
Proof. by intros w. Qed.

Lemma stable_of_io {A} (f : World -> service A) : stable (of_io f).
Proof. by intros w. Qed.

Lemma stable_read_local {A} nm (v : option A) :
  stable (@read_local World A nm v).
Proof. intros w. by destruct v. Qed.

Lemma stable_decode v : stable (@decode World v).
Proof. intros w. by destruct v. Qed.

Lemma stable_sys_exit {A} code : stable (@sys_exit World A code).
Proof. by intros w. Qed.

Lemma stable_subprocess_run cmd dir capture text check :
  stable (subprocess_run env cmd dir capture text check).
Proof.
  intros w. unfold subprocess_run.
  destruct (run_process env w cmd dir) as [msg|rc out err]; [done|].
  by destruct (check && negb (rc =? 0)%Z).
Qed.

Lemma stable_if {A} (b : bool) (m1 m2 : M World A) :
  stable m1 -> stable m2 -> stable (if b then m1 else m2).
Proof. by destruct b. Qed.

Lemma stable_lift {L A} (m : M World A) : stable m -> @stable_locals L A (lift m).
Proof.
  intros Hm [w l]. unfold lift. simpl. destruct (Hm w) as [Hf Hc].
  by destruct (m w) as [r w1].
Qed.

Lemma stable_locals_bind {L A B} (m : M (World * L) A)
    (k : A -> M (World * L) B) :
  stable_locals m -> (forall a, stable_locals (k a)) ->
  stable_locals (bind m k).
Proof.
  intros Hm Hk s. unfold bind. destruct (Hm s) as [Hf Hc].
  destruct (m s) as [[a|e] s1]; simpl in *; [|done].
  destruct (Hk a s1) as [Hf' Hc']. split; congruence.
Qed.

Lemma stable_set_locals {L} (f : L -> L) : @stable_locals L unit (set_locals f).
Proof. by intros s. Qed.

Lemma stable_locals_ret {L A} (a : A) : @stable_locals L A (ret a).
Proof. by intros s. Qed.

Lemma stable_try_except_locals {L A} (l0 : L) (body : M (World * L) A)
    (h : L -> exn -> M World A) :
  stable_locals body -> (forall l e, stable (h l e)) ->
  stable (try_except_locals l0 body h).
Proof.
  intros Hb Hh w. unfold try_except_locals.
  destruct (Hb (w, l0)) as [Hf Hc].
  destruct (body (w, l0)) as [[a|e] s1]; simpl in *; [done|].
  destruct (Hh s1.2 e s1.1) as [Hf' Hc']. split; congruence.
Qed.

End Stable.

Create HintDb stable.

#[local] Hint Resolve stable_ret stable_raise stable_print stable_get_world
  stable_path_exists stable_of_io stable_read_local stable_decode
  stable_sys_exit stable_subprocess_run stable_set_locals stable_locals_ret
  : stable.

Ltac stable_step :=
  first
    [ solve [eauto with stable]
    | apply stable_if
    | apply stable_lift
    | apply stable_for_each; intros ?
    | apply stable_try_except; [|intros ?]
    | apply stable_try_except_locals; [|intros ? ?]
    | apply stable_bind; [|intros ?]
    | apply stable_locals_bind; [|intros ?]
    | match goal with
      | |- stable (match ?x with _ => _ end) => destruct x
      | |- stable_locals (match ?x with _ => _ end) => destruct x
      end ].

Ltac stable_auto := repeat stable_step.

Section StableSteps.
Import CompareModels.
Context (env : Env).

Lemma stable_search_models root model_name :
  stable (search_models env root model_name).
Proof. unfold search_models. stable_auto. Qed.

Lemma stable_find_model_path model_name :
  stable (find_model_path env model_name).
Proof.
  pose proof stable_search_models as Hsearch.
  unfold find_model_path. stable_auto.
Qed.

Lemma stable_main_branch_handler relative_path e :
  stable (main_branch_handler relative_path e).
Proof. unfold main_branch_handler. stable_auto. Qed.

Lemma stable_get_main_branch_content model_path :
  stable (get_main_branch_content env model_path).
Proof.
  pose proof stable_main_branch_handler as Hhandler.
  unfold get_main_branch_content. stable_auto.
Qed.

Lemma stable_get_immediate_downstream_models model_name :
  stable (get_immediate_downstream_models env model_name).
Proof. unfold get_immediate_downstream_models. stable_auto. Qed.

Lemma stable_save_results results output_dir model_name :
  stable (save_results env results output_dir model_name).
Proof. unfold save_results. stable_auto. Qed.

Lemma stable_exit_on_process_error what with_streams e :
  stable (exit_on_process_error what with_streams e).
Proof. unfold exit_on_process_error. stable_auto. Qed.

End StableSteps.

#[local] Hint Resolve stable_find_model_path stable_get_main_branch_content
  stable_get_immediate_downstream_models stable_save_results
  stable_exit_on_process_error : stable.

(** ** The orchestrator: cleanup *)

Section Cleanup.
Import CompareModels.
Context (env : Env).

(** A statement after which no file is there that was not there before. *)
Definition shrinking {A} (m : M World A) : Prop :=
  forall w, files (m w).2 ⊆ files w /\ cwd (m w).2 = cwd w.

Lemma stable_shrinking {A} (m : M World A) : stable m -> shrinking m.
Proof. intros Hm w. destruct (Hm w) as [-> ->]. done. Qed.

Lemma shrinking_bind {A B} (m : M World A) (k : A -> M World B) :
  shrinking m -> (forall a, shrinking (k a)) -> shrinking (bind m k).
Proof.
  intros Hm Hk w. unfold bind. destruct (Hm w) as [Hf Hc].
  destruct (m w) as [[a|e] w1]; simpl in *; [|done].
  destruct (Hk a w1) as [Hf' Hc']. split; [by etrans|congruence].
Qed.

Lemma shrinking_try_except {A} (m : M World A) (h : exn -> M World A) :
  shrinking m -> (forall e, shrinking (h e)) -> shrinking (try_except m h).
Proof.
  intros Hm Hh w. unfold try_except. destruct (Hm w) as [Hf Hc].
  destruct (m w) as [[a|e] w1]; simpl in *; [done|].
  destruct (Hh e w1) as [Hf' Hc']. split; [by etrans|congruence].
Qed.

Lemma shrinking_try_finally {A} (m : M World A) (fin : M World unit) :
  shrinking m -> shrinking fin -> shrinking (try_finally m fin).
Proof.
  intros Hm Hfin w. unfold try_finally. destruct (Hm w) as [Hf Hc].
  destruct (m w) as [r w1]; simpl in *.
  destruct (Hfin w1) as [Hf' Hc'].
  destruct (fin w1) as [[u|e] w2]; simpl in *; (split; [by etrans|congruence]).
Qed.

Lemma shrinking_for_each {A} (xs : list A) (body : A -> M World unit) :
  (forall x, shrinking (body x)) -> shrinking (for_each xs body).
Proof.
  intros Hbody. induction xs as [|x xs IH]; cbn [for_each].
  - by apply stable_shrinking, stable_ret.
  - apply shrinking_bind; [apply Hbody|]. intros _. exact IH.
Qed.

Lemma bind_ok {S A B} (m : M S A) (k : A -> M S B) s a s1 :
  m s = (Ok a, s1) -> bind m k s = k a s1.
Proof. intros H. unfold bind. by rewrite H. Qed.

Lemma bind_raise {S A B} (m : M S A) (k : A -> M S B) s e s1 :
  m s = (Raise e, s1) -> bind m k s = (Raise e, s1).
Proof. intros H. unfold bind. by rewrite H. Qed.

Lemma absolute_cwd w w' p : cwd w' = cwd w -> absolute w' p = absolute w p.
Proof. intros H. unfold absolute. by rewrite H. Qed.

(** [os.remove] takes a file away or raises. *)
Lemma shrinking_remove p : shrinking (remove env p).
Proof.
  intros w. unfold remove. destruct (os_remove env w p); simpl; [|done].
  split; [apply delete_subseteq|done].
Qed.

Lemma shrinking_cleanup_path path : shrinking (cleanup_path env path).
Proof.
  destruct path as [p|]; cbn [cleanup_path].
  - apply shrinking_bind; [by apply stable_shrinking, stable_path_exists|].
    intros [|]; [|by apply stable_shrinking, stable_ret].
    apply shrinking_try_except.
    + apply shrinking_bind; [apply shrinking_remove|].
      intros _. by apply stable_shrinking, stable_print.
    + intros e. apply stable_shrinking. stable_auto.
  - by apply stable_shrinking, stable_ret.
Qed.

Lemma shrinking_cleanup_paths paths : shrinking (cleanup_paths env paths).
Proof. apply shrinking_for_each, shrinking_cleanup_path. Qed.

(** When [os.remove] does not fail, the cleanup loop runs to its end and
    leaves none of its paths behind. *)
Hypothesis removal_succeeds : forall w p, os_remove env w p = Done tt.

Lemma cleanup_path_removes path w :
  exists w1,
    cleanup_path env path w = (Ok tt, w1)
    /\ forall p, path = Some p -> files w1 !! absolute w p = None.
Proof.
  destruct path as [p|]; cbn [cleanup_path].
  - unfold bind, path_exists, exists_in. cbn.
    case_bool_decide as Hex.
    + unfold try_except, bind, remove. rewrite removal_succeeds. cbn.
      eexists. split; [reflexivity|]. cbn.
      intros p' [= <-]. apply lookup_delete_eq.
    + eexists. split; [reflexivity|].
      intros p' [= <-]. by apply eq_None_not_Some.
  - eexists. split; [reflexivity|]. intros p' [=].
Qed.

Lemma cleanup_paths_removes paths w :
  (cleanup_paths env paths w).1 = Ok tt
  /\ forall p, Some p ∈ paths ->
       files (cleanup_paths env paths w).2 !! absolute w p = None.
Proof.
  revert w. induction paths as [|path paths IH]; intros w.
  - split; [done|]. intros p Hin. by apply elem_of_nil in Hin.
  - unfold cleanup_paths. cbn [for_each]. fold (cleanup_paths env paths).
    destruct (cleanup_path_removes path w) as (w1 & Hstep & Hgone).
    destruct (shrinking_cleanup_path path w) as [_ Hcwd].
    rewrite (bind_ok _ _ _ _ _ Hstep).
    rewrite Hstep in Hcwd. cbn [snd] in Hcwd.
    destruct (IH w1) as [Hok Hrest].
    destruct (shrinking_cleanup_paths paths w1) as [Hsub' _].
    split; [exact Hok|].
    intros p [Heq|Hin]%elem_of_cons.
    + eapply lookup_weaken_None; [|exact Hsub']. by apply Hgone.
    + rewrite <- (absolute_cwd w w1 p Hcwd). by apply Hrest.
Qed.

End Cleanup.

Ltac shrinking_step :=
  first
    [ solve [apply stable_shrinking; stable_auto]
    | apply shrinking_for_each; intros ?
    | apply shrinking_try_except; [|intros ?]
    | apply shrinking_bind; [|intros ?]
    | match goal with
      | |- shrinking (match ?x with _ => _ end) => destruct x
      end ].

(** Membership of a path in a longer list of tracked paths. *)
Ltac tracked_mono :=
  let q := fresh "q" in
  let Hq := fresh "Hq" in
  intros q Hq; apply list_elem_of_In in Hq; apply list_elem_of_In;
  cbn in *; intuition (discriminate || eauto).

Section CleanupGuarantee.
Import CompareModels.
Context (env : Env).

Hypothesis removal_succeeds : forall w p, os_remove env w p = Done tt.

(** Files kept in a scope: whatever was written before the scope under
    one of [paths] is gone after its [finally]. *)
Lemma try_finally_scoped {A} (body : M World A) paths w0 w :
  shrinking body ->
  cwd w = cwd w0 ->
  (forall k c, files w !! k = Some c ->
     files w0 !! k = Some c \/ exists p, Some p ∈ paths /\ k = absolute w0 p) ->
  files (try_finally body (cleanup_paths env paths) w).2 ⊆ files w0
  /\ cwd (try_finally body (cleanup_paths env paths) w).2 = cwd w0
  /\ (try_finally body (cleanup_paths env paths) w).1 = (body w).1.
Proof.
  intros Hbody Hcwd Htracked. unfold try_finally.
  destruct (Hbody w) as [Hsub1 Hcwd1].
  destruct (body w) as [r w1]; simpl in *.
  destruct (cleanup_paths_removes env removal_succeeds paths w1)
    as [Hok Hgone].
  destruct (shrinking_cleanup_paths env paths w1) as [Hsub2 Hcwd2].
  destruct (cleanup_paths env paths w1) as [[[]|e] w2]; simpl in *;
    [|discriminate Hok].
  split; [|split; [congruence|done]].
  apply map_subseteq_spec. intros k c Hk.
  assert (Hk1 : files w !! k = Some c).
  { eapply lookup_weaken; [|exact Hsub1].
    eapply lookup_weaken; [exact Hk|exact Hsub2]. }
  destruct (Htracked k c Hk1) as [Hin|(p & Hp & ->)]; [done|].
  specialize (Hgone p Hp).
  rewrite (absolute_cwd w0 w1 p) in Hgone by congruence. congruence.
Qed.

Lemma create_comparison_macro_path model1_name model2_name w :
  write_text env w macro_file = Written ->
  create_comparison_macro env model1_name model2_name w
  = (Ok macro_file,
     set_files (insert (absolute w macro_file)
                  (ComparisonMacro model1_name model2_name)) w).
Proof.
  intros Hw. unfold create_comparison_macro, bind, write_file.
  change (div (Path_of_string "macros") "compare_versions.sql")
    with macro_file.
  by rewrite Hw.
Qed.

(** A write that fails leaves no file behind. *)
Hypothesis no_partial_write :
  forall w p msg, write_text env w p ≠ FailedFileLeft msg.

Lemma write_file_outcome p c w :
  write_file env p c w
  = (Ok tt, set_files (insert (absolute w p) c) w)
  \/ exists e, write_file env p c w = (Raise e, w) /\ is_Exception e = true.
Proof.
  unfold write_file. destruct (write_text env w p) as [|msg|msg] eqn:E.
  - by left.
  - right. by eexists.
  - by destruct (no_partial_write w p msg).
Qed.

Definition temp_path_of (model_dir : Path) (original_name suffix : string)
    : Path :=
  div (div model_dir "analysis")
    (("temp_" +:+ original_name +:+ "_" +:+ suffix) +:+ ".sql").

(** [create_temp_model] returns the path of the file it has written, or
    [None] without a file. *)
Lemma create_temp_model_outcome content suffix original_name model_dir w :
  (exists c,
     create_temp_model env content suffix original_name model_dir w
     = (Ok (Some (temp_path_of model_dir original_name suffix,
                  "temp_" +:+ original_name +:+ "_" +:+ suffix)),
        set_files (insert (absolute w (temp_path_of model_dir original_name
                                         suffix)) c) w))
  \/ (exists w',
        create_temp_model env content suffix original_name model_dir w
        = (Ok None, w')
        /\ files w' = files w /\ cwd w' = cwd w).
Proof.
  unfold create_temp_model, try_except, bind. fold (temp_path_of model_dir original_name suffix).
  destruct (write_file_outcome (temp_path_of model_dir original_name suffix)
              (TempModel content original_name
                 ("temp_" +:+ original_name +:+ "_" +:+ suffix)) w)
    as [->|(e & -> & ->)].
  - left. by eexists.
  - right. by eexists.
Qed.

Lemma create_comparison_macro_outcome model1_name model2_name w :
  create_comparison_macro env model1_name model2_name w
  = (Ok macro_file,
     set_files (insert (absolute w macro_file)
                  (ComparisonMacro model1_name model2_name)) w)
  \/ exists e,
       create_comparison_macro env model1_name model2_name w = (Raise e, w).
Proof.
  unfold create_comparison_macro, bind.
  change (div (Path_of_string "macros") "compare_versions.sql")
    with macro_file.
  destruct (write_file_outcome macro_file
              (ComparisonMacro model1_name model2_name) w)
    as [->|(e & -> & _)]; [by left|right; by eexists].
Qed.

(** With every write succeeding, the comparison of one downstream model
    leaves no file behind, whatever git and dbt answer. *)
Lemma compare_downstream_shrinking output_dir model_dir model :
  (forall w p, write_text env w p = Written) ->
  shrinking (compare_downstream env output_dir model_dir model).
Proof.
  intros Hwrite. unfold compare_downstream.
  apply shrinking_bind; [shrinking_step|]. intros _.
  apply shrinking_bind; [shrinking_step|]. intros [downstream_path|];
    [|shrinking_step].
  apply shrinking_bind; [shrinking_step|]. intros content.
  destruct (falsy content); [shrinking_step|].
  apply shrinking_bind; [shrinking_step|]. intros current. intros w.
  set (suffix1 := "main_down_" +:+ model).
  set (suffix2 := "current_down_" +:+ model).
  destruct (create_temp_model_outcome (default "" content) suffix1 model
              model_dir w) as [[c1 E1]|(w' & E1 & _)].
  2:{ exfalso. revert E1. unfold create_temp_model, try_except, bind,
        write_file. by rewrite Hwrite. }
  rewrite (bind_ok _ _ _ _ _ E1).
  set (w1 := set_files _ w) in *.
  destruct (create_temp_model_outcome current suffix2 model model_dir w1)
    as [[c2 E2]|(w' & E2 & _)].
  2:{ exfalso. revert E2. unfold create_temp_model, try_except, bind,
        write_file. by rewrite Hwrite. }
  rewrite (bind_ok _ _ _ _ _ E2).
  set (w2 := set_files _ w1) in *. cbv beta iota.
  rewrite (bind_ok _ _ _ _ _
             (create_comparison_macro_path _ _ w2 (Hwrite w2 macro_file))).
  set (w3 := set_files _ w2) in *.
  match goal with
  | |- context [try_finally ?body (cleanup_paths env ?paths) w3] =>
      destruct (try_finally_scoped body paths w w3) as (Hsub & Hcwd & _)
  end.
  - repeat shrinking_step.
  - reflexivity.
  - intros k c Hk. subst w3 w2 w1. cbn [files set_files] in Hk.
    change (absolute (set_files _ (set_files _ w)) macro_file)
      with (absolute w macro_file) in Hk.
    change (absolute (set_files _ w) (temp_path_of model_dir model suffix2))
      with (absolute w (temp_path_of model_dir model suffix2)) in Hk.
    destruct (decide (absolute w macro_file = k)) as [<-|Hn3].
    { right. eexists. split; [|reflexivity]. set_solver. }
    rewrite lookup_insert_ne in Hk by done.
    destruct (decide (absolute w (temp_path_of model_dir model suffix2) = k))
      as [<-|Hn2].
    { right. eexists. split; [|reflexivity]. set_solver. }
    rewrite lookup_insert_ne in Hk by done.
    destruct (decide (absolute w (temp_path_of model_dir model suffix1) = k))
      as [<-|Hn1].
    { right. eexists. split; [|reflexivity]. set_solver. }
    rewrite lookup_insert_ne in Hk by done. by left.
  - split; [exact Hsub|exact Hcwd].
Qed.

(** Downstream models are compared only when asked for; then every write
    is taken to succeed. *)
Definition downstream_writes_succeed (include_downstream : bool) : Prop :=
  include_downstream = true -> forall w p, write_text env w p = Written.

Lemma run_comparisons_shrinking project_root output_dir original_name
    main_name current_name model_dir include_downstream main_dir :
  downstream_writes_succeed include_downstream ->
  shrinking (run_comparisons env project_root output_dir original_name
               main_name current_name model_dir include_downstream main_dir).
Proof.
  intros Hdown. unfold run_comparisons.
  do 19 (apply shrinking_bind; [shrinking_step|]; intros ?).
  destruct include_downstream; [|shrinking_step].
  apply shrinking_bind; [shrinking_step|]. intros models.
  destruct models as [|m models]; [shrinking_step|].
  apply shrinking_bind; [shrinking_step|]. intros _.
  apply shrinking_bind; [shrinking_step|]. intros _.
  apply shrinking_for_each. intros model.
  apply compare_downstream_shrinking. by apply Hdown.
Qed.

(** Every file of [w] that was not in [w0] is at one of [paths]. *)
Definition tracks (w0 : World) (paths : list (option Path)) (w : World)
    : Prop :=
  cwd w = cwd w0
  /\ forall k c, files w !! k = Some c ->
       files w0 !! k = Some c
       \/ exists p, Some p ∈ paths /\ k = absolute w0 p.

Lemma tracks_start w0 paths : tracks w0 paths w0.
Proof. split; [done|]. intros k c Hk. by left. Qed.

Lemma tracks_shrink w0 paths w w' :
  tracks w0 paths w -> files w' ⊆ files w -> cwd w' = cwd w ->
  tracks w0 paths w'.
Proof.
  intros [Hcwd Ht] Hsub Hcwd'. split; [congruence|].
  intros k c Hk. apply Ht. by eapply lookup_weaken.
Qed.

Lemma tracks_step {A} w0 paths w (m : M World A) :
  tracks w0 paths w -> shrinking m -> tracks w0 paths (m w).2.
Proof.
  intros Ht Hm. destruct (Hm w) as [Hsub Hcwd]. by eapply tracks_shrink.
Qed.

Lemma tracks_insert w0 paths paths' w p c :
  tracks w0 paths w ->
  Some p ∈ paths' ->
  (forall q, Some q ∈ paths -> Some q ∈ paths') ->
  tracks w0 paths' (set_files (insert (absolute w p) c) w).
Proof.
  intros [Hcwd Ht] Hp Hmono. split; [done|].
  intros k c' Hk. cbn [files set_files] in Hk.
  rewrite (absolute_cwd w0 w p Hcwd) in Hk.
  destruct (decide (absolute w0 p = k)) as [<-|Hne].
  - right. by exists p.
  - rewrite lookup_insert_ne in Hk by done.
    destruct (Ht k c' Hk) as [?|(q & Hq & ->)]; [by left|].
    right. exists q. split; [by apply Hmono|done].
Qed.

Lemma tracks_mono w0 paths paths' w :
  tracks w0 paths w -> (forall q, Some q ∈ paths -> Some q ∈ paths') ->
  tracks w0 paths' w.
Proof.
  intros [Hcwd Ht] Hmono. split; [done|].
  intros k c Hk. destruct (Ht k c Hk) as [?|(q & Hq & ->)]; [by left|].
  right. exists q. split; [by apply Hmono|done].
Qed.

(** The cleanup of the tracked paths leaves what was there at the start. *)
Lemma tracks_cleanup w0 paths w :
  tracks w0 paths w ->
  files (cleanup_paths env paths w).2 ⊆ files w0.
Proof.
  intros [Hcwd Ht].
  destruct (try_finally_scoped (ret tt) paths w0 w) as (Hsub & _ & _);
    [by apply stable_shrinking, stable_ret|done|done|].
  unfold try_finally, ret in Hsub.
  by destruct (cleanup_paths env paths w) as [[[]|e] w2].
Qed.

Lemma lift_eq {L A} (m : M World A) (w : World) (l : L) :
  lift m (w, l) = ((m w).1, ((m w).2, l)).
Proof. unfold lift. cbn. by destruct (m w). Qed.

Definition tracked (l : Locals) : list (option Path) :=
  [main_path l; current_path l; macro_path l].

Definition tracks_locals (w0 : World) (s : World * Locals) : Prop :=
  tracks w0 (tracked s.2) s.1.

Lemma lift_bind_ok {L A B} (m : M World A) (k : A -> M (World * L) B)
    w l a w1 :
  m w = (Ok a, w1) -> bind (lift m) k (w, l) = k a (w1, l).
Proof. intros H. unfold bind. by rewrite lift_eq, H. Qed.

Lemma lift_bind_raise {L A B} (m : M World A) (k : A -> M (World * L) B)
    w l e w1 :
  m w = (Raise e, w1) -> bind (lift m) k (w, l) = (Raise e, (w1, l)).
Proof. intros H. unfold bind. by rewrite lift_eq, H. Qed.

(** A step that writes no file, followed by the rest of the body. *)
Lemma tracks_locals_lift_bind {A B} w0 (m : M World A)
    (k : A -> M (World * Locals) B) w l :
  shrinking m ->
  tracks_locals w0 (w, l) ->
  (forall a w1, tracks_locals w0 (w1, l) -> tracks_locals w0 (k a (w1, l)).2) ->
  tracks_locals w0 (bind (lift m) k (w, l)).2.
Proof.
  intros Hm Ht Hk. pose proof (tracks_step w0 _ w m Ht Hm) as Ht1.
  destruct (m w) as [[a|e] w1] eqn:E; cbn [snd] in Ht1.
  - rewrite (lift_bind_ok _ _ _ _ _ _ E). by apply Hk.
  - by rewrite (lift_bind_raise _ _ _ _ _ _ E).
Qed.

Lemma tracks_locals_lift {A} w0 (m : M World A) w l :
  shrinking m ->
  tracks_locals w0 (w, l) ->
  tracks_locals w0 (lift m (w, l)).2.
Proof.
  intros Hm Ht. rewrite lift_eq. cbn [snd]. by apply (tracks_step w0 _ w m).
Qed.

Lemma set_locals_bind {B} (f : Locals -> Locals)
    (k : unit -> M (World * Locals) B) w l :
  bind (set_locals f) k (w, l) = k tt (w, f l).
Proof. reflexivity. Qed.

(** [path, name = create_temp_model(...)]: the path that is assigned
    tracks the file that was written. *)
Lemma create_temp_model_tracked w0 content suffix original_name model_dir
    w paths :
  tracks w0 paths w ->
  exists created w1,
    create_temp_model env content suffix original_name model_dir w
    = (Ok created, w1)
    /\ forall paths',
         (forall q, Some q ∈ paths -> Some q ∈ paths') ->
         fst <$> created ∈ paths' ->
         tracks w0 paths' w1.
Proof.
  intros Ht.
  destruct (create_temp_model_outcome content suffix original_name model_dir w)
    as [[c E]|(w' & E & Hf & Hc)].
  - eexists _, _. split; [exact E|]. intros paths' Hmono Hin.
    by eapply tracks_insert.
  - eexists _, _. split; [exact E|]. intros paths' Hmono _.
    eapply tracks_mono; [|exact Hmono].
    eapply tracks_shrink; [exact Ht|by rewrite Hf|done].
Qed.


End CleanupGuarantee.

(** The claim C4 at one run: no file written by the run is left. *)
Definition generated_files_removed (env : CompareModels.Env)
    (model_name output_dir : string) (include_downstream : bool)
    (w : CompareModels.World) : Prop :=
  CompareModels.files
    (CompareModels.main env model_name output_dir include_downstream w).2
  ⊆ CompareModels.files w.



(** The run of [orders] in the shop ends normally, all five comparisons
    made. *)
Example main_shop_returns :
  (CompareModels.main Runs.env_shop "orders" "model_comparisons" true
     Runs.shop).1 = Ok tt.
Proof. vm_compute. reflexivity. Qed.

(** A file that the amended claim does not cover: when the second
    temporary model of a downstream comparison cannot be written, line 502
    goes on to the next model and the first one stays. *)
Example downstream_partial_creation_leaks :
  CompareModels.files
    (CompareModels.main Runs.env_disk_full "orders" "model_comparisons" true
       Runs.shop).2
  !! Runs.main_down_customers
  = Some (CompareModels.TempModel "select 0" "customers"
            "temp_customers_main_down_customers").
Proof. vm_compute. reflexivity. Qed.

(** ** The orchestrator: what a failure aborts *)

Section Failures.
Import CompareModels.
Context (env : Env).

Lemma bind_cong {S A B} (m : M S A) (k1 k2 : A -> M S B) s :
  (forall a s1, m s = (Ok a, s1) -> k1 a s1 = k2 a s1) ->
  bind m k1 s = bind m k2 s.
Proof.
  intros H. unfold bind. destruct (m s) as [[a|e] s1] eqn:E; [|done].
  by apply H.
Qed.

(** The statement ends on an exception. *)
Definition raises {S A} (m : M S A) (s : S) : Prop :=
  exists e s1, m s = (Raise e, s1).

Lemma raises_bind {S A B} (m : M S A) (k : A -> M S B) s :
  (forall a s1, m s = (Ok a, s1) -> raises (k a) s1) ->
  raises (bind m k) s.
Proof.
  intros H. unfold raises, bind.
  destruct (m s) as [[a|e] s1] eqn:E; [by apply H|by eexists _, _].
Qed.

(** The handlers of the primary comparison print the error and the two
    captured streams, then exit with status 1. *)
Lemma exit_on_process_error_exits what rc out err w :
  exit_on_process_error what true (CalledProcessError rc out err) w
  = (Raise (SystemExit 1),
     mkWorld (cwd w) (files w)
       (stdout w ++ [what +:+ exn_str (CalledProcessError rc out err);
                     str_of out; str_of err])
       (calls w)).
Proof.
  unfold exit_on_process_error, bind, print, sys_exit, raise. cbn.
  by rewrite <- !app_assoc.
Qed.

(** The build of the main-branch model exits non-zero, in every world. *)
Definition main_build_fails (main_name : string) : Prop :=
  forall w dir, exists rc out err,
    run_process env w (dbt_run ("+" +:+ main_name) ++ ["--debug"]) dir
    = ProcExit rc out err /\ rc ≠ 0%Z.

Lemma subprocess_run_unchecked cmd dir w r w1 :
  subprocess_run env cmd dir true true false w = (Ok r, w1) ->
  exists out err,
    run_process env w cmd dir = ProcExit (returncode r) out err.
Proof.
  unfold subprocess_run.
  destruct (run_process env w cmd dir) as [msg|rc out err]; [done|].
  cbn. intros [= <- _]. by eexists _, _.
Qed.

(** When the primary build fails, the run ends on an exception before the
    downstream part, which makes no difference. *)
Lemma run_comparisons_primary_failure project_root output_dir original_name
    main_name current_name model_dir main_dir w :
  main_build_fails main_name ->
  raises (run_comparisons env project_root output_dir original_name
            main_name current_name model_dir true main_dir) w
  /\ run_comparisons env project_root output_dir original_name
       main_name current_name model_dir true main_dir w
     = run_comparisons env project_root output_dir original_name
         main_name current_name model_dir false main_dir w.
Proof.
  intros Hfail. unfold run_comparisons. split.
  - do 6 (apply raises_bind; intros ? ? _).
    apply raises_bind. intros main_result w7 E7.
    apply subprocess_run_unchecked in E7 as (out & err & E7).
    match type of E7 with
    | run_process env ?wx _ _ = _ =>
        destruct (Hfail wx (Some main_dir)) as (rc & out' & err' & E7' & Hrc)
    end.
    rewrite E7' in E7. injection E7 as Hrc' _ _.
    do 7 (apply raises_bind; intros ? ? _).
    rewrite <- Hrc'. destruct (Z.eqb_spec rc 0); [done|]. cbn [negb].
    by eexists _, _.
  - do 6 (apply bind_cong; intros ? ? _).
    apply bind_cong. intros main_result w7 E7.
    apply subprocess_run_unchecked in E7 as (out & err & E7).
    match type of E7 with
    | run_process env ?wx _ _ = _ =>
        destruct (Hfail wx (Some main_dir)) as (rc & out' & err' & E7' & Hrc)
    end.
    rewrite E7' in E7. injection E7 as Hrc' _ _.
    do 7 (apply bind_cong; intros ? ? _).
    rewrite <- Hrc'. destruct (Z.eqb_spec rc 0); [done|]. cbn [negb].
    reflexivity.
Qed.

Lemma print_bind {B} line (k : unit -> M World B) w :
  bind (print line) k w
  = k tt (mkWorld (cwd w) (files w) (stdout w ++ [line]) (calls w)).
Proof. reflexivity. Qed.

Lemma checked_run_fails cmd dir w rc out err :
  run_process env w cmd dir = ProcExit rc out err -> rc ≠ 0%Z ->
  subprocess_run env cmd dir true true true w
  = (Raise (CalledProcessError rc (PyStr out) (PyStr err)),
     mkWorld (cwd w) (files w) (stdout w) (S (calls w))).
Proof.
  intros E Hrc. unfold subprocess_run. rewrite E.
  destruct (Z.eqb_spec rc 0); [done|]. reflexivity.
Qed.

Section Downstream.
Context (output_dir : string) (model_dir : Path) (model : string).

Abbreviation compare := (compare_downstream env output_dir model_dir).

(** What the locator answers for the model, in the worlds that have the
    files and the working directory of [w]. *)
Definition located (w : World) (found : option Path) : Prop :=
  forall w0, cwd w0 = cwd w -> files w0 = files w ->
    (find_model_path env model w0).1 = Ok found.

(** A downstream model that is not found is skipped. *)
Lemma compare_downstream_not_found w :
  located w None ->
  (compare model w).1 = Ok tt.
Proof.
  intros Hfind. unfold compare_downstream. rewrite print_bind.
  set (w1 := mkWorld _ _ _ _). specialize (Hfind w1 eq_refl eq_refl).
  destruct (find_model_path env model w1) as [r w2] eqn:E.
  cbn in Hfind. subst r. by rewrite (bind_ok _ _ _ _ _ E).
Qed.

(** So is one without a baseline. *)
Lemma compare_downstream_no_baseline w downstream_path :
  located w (Some downstream_path) ->
  (forall w0, exists content,
      (get_main_branch_content env downstream_path w0).1 = Ok content
      /\ falsy content = true) ->
  (compare model w).1 = Ok tt.
Proof.
  intros Hfind Hbase. unfold compare_downstream. rewrite print_bind.
  set (w1 := mkWorld _ _ _ _). specialize (Hfind w1 eq_refl eq_refl).
  destruct (find_model_path env model w1) as [r w2] eqn:E.
  cbn in Hfind. subst r. rewrite (bind_ok _ _ _ _ _ E). cbv beta iota.
  destruct (Hbase w2) as (content & Hc & Hfalsy).
  destruct (get_main_branch_content env downstream_path w2) as [r w3] eqn:E3.
  cbn in Hc. subst r. rewrite (bind_ok _ _ _ _ _ E3). by rewrite Hfalsy.
Qed.

(** When the build tool exits non-zero on the main version of a
    downstream model, the comparison ends on that [CalledProcessError],
    after the cleanup of its [finally]. *)
Lemma compare_downstream_build_failure w downstream_path :
  located w (Some downstream_path) ->
  (forall w0, exists content,
      (get_main_branch_content env downstream_path w0).1 = Ok (Some content)
      /\ content ≠ "") ->
  (forall w0, exists text, read_text env w0 downstream_path = Done text) ->
  (forall w0 p, write_text env w0 p = Written) ->
  (forall w0 p, os_remove env w0 p = Done tt) ->
  (forall w0 dir, exists rc out err,
      run_process env w0
        (dbt_run ("temp_" +:+ model +:+ "_" +:+ "main_down_" +:+ model)) dir
      = ProcExit rc out err /\ rc ≠ 0%Z) ->
  exists rc out err w1,
    compare model w = (Raise (CalledProcessError rc out err), w1)
    /\ rc ≠ 0%Z /\ files w1 ⊆ files w.
Proof.
  intros Hfind Hbase Hread Hwrite Hremove Hdbt.
  assert (Hsub : files (compare model w).2 ⊆ files w).
  { apply (compare_downstream_shrinking env Hremove); [|done].
    intros w0 p msg. by rewrite Hwrite. }
  cut (exists rc out err w1,
         compare model w = (Raise (CalledProcessError rc out err), w1)
         /\ rc ≠ 0%Z).
  { intros (rc & out & err & w1 & Erun & Hrc). rewrite Erun in Hsub.
    by eexists _, _, _, _. }
  clear Hsub. unfold compare_downstream. rewrite print_bind.
  set (w1 := mkWorld _ _ _ _). specialize (Hfind w1 eq_refl eq_refl).
  destruct (find_model_path env model w1) as [r w2] eqn:E.
  cbn in Hfind. subst r. rewrite (bind_ok _ _ _ _ _ E). cbv beta iota.
  destruct (Hbase w2) as (content & Hc & Hne).
  destruct (get_main_branch_content env downstream_path w2) as [r w3] eqn:E3.
  cbn in Hc. subst r. rewrite (bind_ok _ _ _ _ _ E3).
  assert (Hfalsy : falsy (Some content) = false).
  { cbn. by destruct (String.eqb_spec content ""). }
  rewrite Hfalsy. destruct (Hread w3) as [text Htext].
  unfold of_io at 1. unfold bind at 1. rewrite Htext. cbn [service_result].
  unfold create_temp_model at 1, try_except, write_file.
  unfold bind at 1. unfold bind at 1. rewrite Hwrite. cbn [ret].
  unfold create_temp_model at 1, try_except, write_file.
  unfold bind at 1. unfold bind at 1. rewrite Hwrite. cbn [ret].
  rewrite (bind_ok _ _ _ _ _
             (create_comparison_macro_path env _ _ _ (Hwrite _ macro_file))).
  unfold try_finally. rewrite print_bind.
  match goal with
  | |- context [bind (subprocess_run env ?cmd None true true true) ?k ?wx] =>
      destruct (Hdbt wx None) as (rc & out & err & Erun & Hrc);
      rewrite (bind_raise _ k _ _ _
                 (checked_run_fails cmd None wx _ _ _ Erun Hrc))
  end.
  match goal with
  | |- context [cleanup_paths env ?paths ?wx] =>
      destruct (cleanup_paths_removes env Hremove paths wx) as [Hok _];
      destruct (cleanup_paths env paths wx) as [[[]|e] w9];
      [|discriminate Hok]
  end.
  by eexists _, _, _, _.
Qed.

(** A downstream model whose temporary models cannot be written is
    skipped. *)
Lemma compare_downstream_not_written w downstream_path :
  located w (Some downstream_path) ->
  (forall w0, exists content,
      (get_main_branch_content env downstream_path w0).1 = Ok (Some content)
      /\ content ≠ "") ->
  (forall w0, exists text, read_text env w0 downstream_path = Done text) ->
  (forall w0 p, exists msg, write_text env w0 p = FailedNoFile msg) ->
  (compare model w).1 = Ok tt.
Proof.
  intros Hfind Hbase Hread Hwrite.
  unfold compare_downstream. rewrite print_bind.
  set (w1 := mkWorld _ _ _ _). specialize (Hfind w1 eq_refl eq_refl).
  destruct (find_model_path env model w1) as [r w2] eqn:E.
  cbn in Hfind. subst r. rewrite (bind_ok _ _ _ _ _ E). cbv beta iota.
  destruct (Hbase w2) as (content & Hc & Hne).
  destruct (get_main_branch_content env downstream_path w2) as [r w3] eqn:E3.
  cbn in Hc. subst r. rewrite (bind_ok _ _ _ _ _ E3).
  assert (Hfalsy : falsy (Some content) = false).
  { cbn. by destruct (String.eqb_spec content ""). }
  rewrite Hfalsy. destruct (Hread w3) as [text Htext].
  unfold of_io at 1. unfold bind at 1. rewrite Htext. cbn [service_result].
  unfold create_temp_model at 1, try_except, write_file.
  unfold bind at 1. unfold bind at 1.
  match goal with
  | |- context [write_text env ?wx ?px] =>
      destruct (Hwrite wx px) as [msg ->]
  end.
  cbn [is_Exception]. rewrite print_bind. cbn [ret].
  unfold create_temp_model at 1, try_except, write_file.
  unfold bind at 1. unfold bind at 1.
  match goal with
  | |- context [write_text env ?wx ?px] =>
      destruct (Hwrite wx px) as [msg' ->]
  end.
  reflexivity.
Qed.

(** The loop over the downstream models goes on after a comparison that
    returns and ends with a comparison that raises. *)
Lemma for_each_step {A} (x : A) xs (body : A -> M World unit) w w1 :
  body x w = (Ok tt, w1) -> for_each (x :: xs) body w = for_each xs body w1.
Proof. intros H. cbn [for_each]. by rewrite (bind_ok _ _ _ _ _ H). Qed.

Lemma for_each_abort {A} (x : A) xs (body : A -> M World unit) w e w1 :
  body x w = (Raise e, w1) -> for_each (x :: xs) body w = (Raise e, w1).
Proof. intros H. cbn [for_each]. by rewrite (bind_raise _ _ _ _ _ H). Qed.

End Downstream.

End Failures.

(** ** C5: what a failure of the build tool aborts *)

(** The loop of line 478 has reached the model: its first line is on the
    standard output. *)
Definition attempted (model : string) (w : CompareModels.World) : Prop :=
  (nl +:+ "Comparing downstream model: " +:+ model)
  ∈ CompareModels.stdout w.

(** C5 as stated, at the loop over the downstream models: whatever
    happens to one of them, each of them is attempted. *)
Definition downstream_independent (env : CompareModels.Env)
    (output_dir : string) (model_dir : Path) (models : list string)
    (w : CompareModels.World) : Prop :=
  forall model, model ∈ models ->
    attempted model
      (for_each models (CompareModels.compare_downstream env output_dir
                          model_dir) w).2.



(** On this run the whole program ends on that error. *)
Example main_broken_customers :
  (CompareModels.main Runs.env_broken_customers "orders" "model_comparisons"
     true Runs.market).1
  = Raise (CalledProcessError 1 (PyStr "Compilation Error") (PyStr "")).
Proof. vm_compute. reflexivity. Qed.

(** When the primary build fails, the program exits with status 1. *)
Example main_broken_primary :
  (CompareModels.main Runs.env_broken_primary "orders" "model_comparisons"
     true Runs.market).1
  = Raise (SystemExit 1).
Proof. vm_compute. reflexivity. Qed.

(** When nothing fails, both downstream models are attempted. *)
Example market_all_attempted :
  downstream_independent Runs.env_market "model_comparisons"
    ["/"; "proj"; "models"] ["customers"; "payments"] Runs.market.
Proof.
  intros model Hin. unfold attempted.
  apply (bool_decide_unpack _).
  apply list_elem_of_In in Hin. destruct Hin as [<-|[<-|[]]].
  - vm_compute. reflexivity.
  - vm_compute. reflexivity.
Qed.


(** ** The project root *)

Section ProjectRoot.
Import CompareModels.

Definition project_file : string := "dbt_project.yml".

Lemma parent_fixed_snoc (p : Path) (x : string) :
  p ++ [x] = parent (p ++ [x]) -> p = [].
Proof.
  intros E. destruct (parent_snoc p x) as [H|H].
  - rewrite H in E. apply (f_equal length) in E.
    rewrite length_app in E. cbn in E. lia.
  - destruct p as [|a p]; [done|]. exfalso.
    assert (Hp : parent ((a :: p) ++ [x]) = a :: p).
    { rewrite <- (removelast_last (a :: p) x) at 2. by destruct p. }
    rewrite Hp in H. apply (f_equal length) in H.
    rewrite length_app in H. cbn in H. lia.
Qed.

Lemma find_project_root_nearest w (p : Path) :
  match find_project_root w (S (length p)) p with
  | Some root =>
      exists n, n <= length p /\ root = take n p /\ root ≠ parent root
        /\ exists_in w (div root project_file) = true
        /\ forall m, n < m <= length p ->
             exists_in w (div (take m p) project_file) = false
  | None =>
      forall m, m <= length p -> take m p ≠ parent (take m p) ->
        exists_in w (div (take m p) project_file) = false
  end.
Proof.
  induction p as [|x p IH] using rev_ind.
  - cbn. intros m _ Hm. by destruct m.
  - cbn [find_project_root]. case_bool_decide as Hfix.
    + apply parent_fixed_snoc in Hfix as Hp. subst p. cbn in Hfix.
      intros m Hm Hne. exfalso. apply Hne.
      destruct m as [|m]; [done|]. cbn. rewrite take_nil. exact Hfix.
    + fold project_file.
      destruct (exists_in w (div (p ++ [x]) project_file)) eqn:Hex.
      * exists (length (p ++ [x])). split; [done|].
        rewrite firstn_all. split; [done|]. split; [done|]. split; [done|].
        intros m Hm. lia.
      * assert (Hpar : parent (p ++ [x]) = p).
        { destruct (parent_snoc p x) as [H|H]; [done|]. by rewrite H in Hfix. }
        rewrite Hpar, length_app. cbn [length].
        replace (length p + 1) with (S (length p)) by lia.
        destruct (find_project_root w (S (length p)) p) as [root|].
        -- destruct IH as (n & Hn & -> & Hne & Hroot & Hnone).
           exists n. split; [lia|]. split.
           { by rewrite take_app_le. }
           split; [done|]. split; [done|].
           intros m Hm. destruct (decide (m <= length p)) as [Hle|Hgt].
           ++ rewrite take_app_le by done. apply Hnone. lia.
           ++ rewrite take_ge by (rewrite length_app; cbn; lia). exact Hex.
        -- intros m Hm Hne. destruct (decide (m <= length p)) as [Hle|Hgt].
           ++ rewrite take_app_le in * by done. by apply IH.
           ++ rewrite take_ge by (rewrite length_app; cbn; lia). exact Hex.
Qed.

(** The project root is the nearest directory, from the working directory
    upwards, that holds [dbt_project.yml]; the top of the tree is never
    looked at. *)
Theorem project_root_nearest (w : World) :
  match project_root_of w with
  | Some root =>
      exists n, root = take n (cwd w) /\ root ≠ parent root
        /\ exists_in w (div root project_file) = true
        /\ forall m, n < m <= length (cwd w) ->
             exists_in w (div (take m (cwd w)) project_file) = false
  | None =>
      forall m, m <= length (cwd w) ->
        take m (cwd w) ≠ parent (take m (cwd w)) ->
        exists_in w (div (take m (cwd w)) project_file) = false
  end.
Proof.
  unfold project_root_of.
  pose proof (find_project_root_nearest w (cwd w)) as H.
  destruct (find_project_root w (S (length (cwd w))) (cwd w)) as [root|].
  - destruct H as (n & _ & H). by exists n.
  - exact H.
Qed.

End ProjectRoot.

Section LocatorTotal.
Import CompareModels.
Context (env : Env).

(** The world after some lines were printed. *)
Definition printed (w : World) (lines : list string) : World :=
  mkWorld (cwd w) (files w) (stdout w ++ lines) (calls w).

Lemma search_models_outcome root model_name w :
  (exists p, search_models env root model_name w = (Ok (Some p), w))
  \/ (exists lines, lines ≠ []
        /\ search_models env root model_name w = (Ok None, printed w lines))
  \/ (exists msg, search_models env root model_name w = (Raise (OSError msg), w)).
Proof.
  unfold search_models, bind, of_io.
  destruct (rglob env w _ _) as [matches|msg]; cbn [service_result].
  - destruct matches as [|p [|q rest]].
    + right. left. eexists [_]. split; [done|]. reflexivity.
    + left. by exists p.
    + right. left. cbn -[for_each]. rewrite for_each_print.
      exists (candidates_report model_name (p :: q :: rest)).
      split; [done|]. unfold printed, candidates_report. cbn.
      by rewrite <- !app_assoc.
  - right. right. by exists msg.
Qed.

(** The locator always returns: what the filesystem raises is caught. It
    changes no file and starts no process; it prints nothing when it
    returns a path, and explains itself whenever it returns [None]. *)
Theorem find_model_path_returns model_name w :
  exists found lines,
    find_model_path env model_name w = (Ok found, printed w lines)
    /\ (lines = [] <-> is_Some found).
Proof.
  unfold find_model_path, try_except, bind, get_world.
  destruct (project_root_of w) as [root|].
  - assert (Hsearch : forall nm,
      exists found lines,
        match search_models env root nm w with
        | (Ok a, w1) => (Ok a, w1)
        | (Raise e, w1) =>
            (if is_Exception e
             then bind (print ("Error in find_model_path: " +:+ exn_str e))
                    (fun _ => ret None)
             else raise e) w1
        end = (Ok found, printed w lines)
        /\ (lines = [] <-> is_Some found)).
    { intros nm.
      destruct (search_models_outcome root nm w)
        as [[p ->]|[(lines & Hne & ->)|[msg ->]]].
      - exists (Some p), []. split.
        + unfold printed. rewrite app_nil_r. by destruct w.
        + split; [by eexists|done].
      - exists None, lines. split; [done|].
        split; [done|]. by intros [? [=]].
      - eexists None, [_]. split; [reflexivity|].
        split; [done|]. by intros [? [=]]. }
    destruct (Str.endswith model_name ".sql").
    + unfold path_exists. cbv beta iota.
      destruct (exists_in w (Path_of_string model_name)).
      * eexists (Some _), []. split.
        -- unfold ret, printed. rewrite app_nil_r. by destruct w.
        -- split; [by eexists|done].
      * apply Hsearch.
    + apply Hsearch.
  - eexists None, [_]. split; [reflexivity|].
    split; [done|]. by intros [? [=]].
Qed.

End LocatorTotal.

Section Baseline.
Import CompareModels.
Context (env : Env).

(** The path that is asked of git: the model's path relative to the top
    of the repository, or as it is when it does not lie under it. *)
Definition path_in_repository (top : string) (model_path : Path) : Path :=
  default model_path (relative_to model_path (Path_of_string (Str.strip top))).

(** When both git commands succeed, the baseline is what [git show] wrote,
    byte for byte, for the path relative to the top of the repository. *)
Theorem get_main_branch_content_returns_show w model_path top top_err out err :
  run_process env w rev_parse None = ProcExit 0 top top_err ->
  (forall w',
     run_process env w'
       ["git"; "show";
        "main:" +:+ to_string (path_in_repository top model_path)] None
     = ProcExit 0 out err) ->
  get_main_branch_content env model_path w
  = (Ok (Some out),
     mkWorld (cwd w) (files w)
       (stdout w ++ ["Looking for file in main branch at: "
                     +:+ to_string (path_in_repository top model_path)])
       (S (S (calls w)))).
Proof.
  intros Htop Hshow.
  unfold get_main_branch_content, try_except_locals, bind, lift, subprocess_run.
  cbn. fold rev_parse. rewrite Htop. cbn.
  unfold path_in_repository in *.
  destruct (relative_to model_path _) as [r|]; cbn in *.
  all: rewrite Hshow; reflexivity.
Qed.

(** When git cannot be started at all, the fetcher prints the error and
    returns [None]. *)
Theorem get_main_branch_content_git_missing w model_path msg :
  run_process env w rev_parse None = ProcNotStarted msg ->
  get_main_branch_content env model_path w
  = (Ok None,
     mkWorld (cwd w) (files w)
       (stdout w ++ ["Error accessing main branch content: " +:+ msg])
       (S (calls w))).
Proof.
  intros Htop.
  unfold get_main_branch_content, try_except_locals, bind, lift, subprocess_run.
  cbn. fold rev_parse. rewrite Htop. reflexivity.
Qed.

End Baseline.

Lemma get_main_branch_content_returns_show_witness :
  CompareModels.get_main_branch_content Runs.env_shop
    ["/"; "proj"; "models"; "orders.sql"] Runs.shop
  = (Ok (Some "select 0"),
     CompareModels.mkWorld ["/"; "proj"] Runs.shop_files
       ["Looking for file in main branch at: models/orders.sql"] 2).
Proof.
  apply (get_main_branch_content_returns_show Runs.env_shop Runs.shop
           ["/"; "proj"; "models"; "orders.sql"] ("/proj" +:+ nl) ""
           "select 0" "").
  - reflexivity.
  - intros w'. reflexivity.
Defined.

Lemma get_main_branch_content_git_missing_witness :
  CompareModels.get_main_branch_content (Runs.env_running Runs.git_missing)
    ["/"; "proj"; "models"; "orders.sql"] Runs.shop
  = (Ok None,
     CompareModels.mkWorld ["/"; "proj"] Runs.shop_files
       ["Error accessing main branch content: "
        +:+ "[Errno 2] No such file or directory: 'git'"] 1).
Proof.
  apply (get_main_branch_content_git_missing
           (Runs.env_running Runs.git_missing) Runs.shop).
  reflexivity.
Defined.

Section DownstreamList.
Import CompareModels.
Context (env : Env).

Definition dbt_deps : list string := ["dbt"; "deps"].

Definition dbt_list (model_name : string) : list string :=
  ["dbt"; "list"; "--select"; model_name +:+ "+1"].

Definition downstream_error (rc : Z) (out err : string) : string :=
  "Error getting downstream models: "
  +:+ exn_str (CalledProcessError rc (PyStr out) (PyStr err)).


(** A non-zero status of [dbt deps], or of [dbt list] after it, is
    reported and gives the empty list; after a failed [dbt deps] the
    listing is not run. When dbt cannot be started the error reaches the
    caller. *)
Theorem get_immediate_downstream_models_failure model_name w :
  (forall rc out err,
     run_process env w dbt_deps None = ProcExit rc out err -> rc ≠ 0%Z ->
     get_immediate_downstream_models env model_name w
     = (Ok [],
        mkWorld (cwd w) (files w)
          (stdout w ++ [downstream_error rc out err]) (S (calls w))))
  /\ (forall out0 err0 rc out err,
        run_process env w dbt_deps None = ProcExit 0 out0 err0 ->
        run_process env (mkWorld (cwd w) (files w) (stdout w) (S (calls w)))
          (dbt_list model_name) None = ProcExit rc out err ->
        rc ≠ 0%Z ->
        get_immediate_downstream_models env model_name w
        = (Ok [],
           mkWorld (cwd w) (files w)
             (stdout w ++ [downstream_error rc out err]) (S (S (calls w)))))
  /\ (forall msg,
        run_process env w dbt_deps None = ProcNotStarted msg ->
        get_immediate_downstream_models env model_name w
        = (Raise (OSError msg),
           mkWorld (cwd w) (files w) (stdout w) (S (calls w)))).
Proof.
  unfold get_immediate_downstream_models, try_except, bind, subprocess_run.
  fold dbt_deps. fold (dbt_list model_name).
  split; [|split].
  - intros rc out err -> Hrc. cbn.
    by destruct (Z.eqb_spec rc 0).
  - intros out0 err0 rc out err -> Hlist Hrc. cbn. rewrite Hlist. cbn.
    by destruct (Z.eqb_spec rc 0).
  - by intros msg ->.
Qed.

End DownstreamList.

Section BestEffortCleanup.
Import CompareModels.
Context (env : Env).

Lemma cleanup_path_returns path w :
  exists w1,
    cleanup_path env path w = (Ok tt, w1)
    /\ forall p, path = Some p -> os_remove env w p = Done tt ->
         files w1 !! absolute w p = None.
Proof.
  destruct path as [p|]; cbn [cleanup_path].
  - unfold bind, path_exists, exists_in. cbn.
    case_bool_decide as Hex.
    + unfold try_except, bind, remove.
      destruct (os_remove env w p) as [[]|msg] eqn:Hrm; cbn.
      * eexists. split; [reflexivity|]. cbn.
        intros p' [= <-] _. apply lookup_delete_eq.
      * eexists. split; [reflexivity|]. intros p' [= <-] Hok.
        rewrite Hrm in Hok. discriminate Hok.
    + eexists. split; [reflexivity|].
      intros p' [= <-] _. by apply eq_None_not_Some.
  - eexists. split; [reflexivity|]. intros p' [=].
Qed.

(** The cleanup loop never raises: a file that cannot be removed is
    reported and the loop goes on. No file appears, and every listed file
    that [os.remove] accepts is gone at the end, also after a failure on
    an earlier one. *)
Theorem cleanup_paths_best_effort paths w :
  (cleanup_paths env paths w).1 = Ok tt
  /\ files (cleanup_paths env paths w).2 ⊆ files w
  /\ forall p, Some p ∈ paths ->
       (forall w0, os_remove env w0 p = Done tt) ->
       files (cleanup_paths env paths w).2 !! absolute w p = None.
Proof.
  split; [|split; [apply shrinking_cleanup_paths|]]; revert w;
    induction paths as [|path paths IH]; intros w.
  - done.
  - unfold cleanup_paths. cbn [for_each]. fold (cleanup_paths env paths).
    destruct (cleanup_path_returns path w) as (w1 & Hstep & _).
    rewrite (bind_ok _ _ _ _ _ Hstep). apply IH.
  - intros p Hin. by apply elem_of_nil in Hin.
  - unfold cleanup_paths. cbn [for_each]. fold (cleanup_paths env paths).
    destruct (cleanup_path_returns path w) as (w1 & Hstep & Hgone).
    destruct (shrinking_cleanup_path env path w) as [_ Hcwd].
    rewrite (bind_ok _ _ _ _ _ Hstep).
    rewrite Hstep in Hcwd. cbn [snd] in Hcwd.
    destruct (shrinking_cleanup_paths env paths w1) as [Hsub' _].
    intros p [Heq|Hin]%elem_of_cons Hrm.
    + eapply lookup_weaken_None; [|exact Hsub']. by apply Hgone.
    + rewrite <- (absolute_cwd w w1 p Hcwd). by apply IH.
Qed.

End BestEffortCleanup.


Lemma get_immediate_downstream_models_failure_witness :
  CompareModels.get_immediate_downstream_models
    (Runs.env_running Runs.dbt_deps_fails) "orders" Runs.shop
  = (Ok [],
     CompareModels.mkWorld ["/"; "proj"] Runs.shop_files
       [downstream_error 1 "" "Could not resolve packages"] 1).
Proof.
  apply (proj1 (get_immediate_downstream_models_failure
                  (Runs.env_running Runs.dbt_deps_fails) "orders" Runs.shop)).
  - reflexivity.
  - lia.
Defined.

Lemma cleanup_paths_best_effort_witness :
  CompareModels.files
    (CompareModels.cleanup_paths Runs.env_one_locked
       [Some Runs.temp_orders_main; Some Runs.temp_orders_current]
       Runs.shop_with_temp_models).2
  !! Runs.temp_orders_current = None.
Proof.
  apply (proj2 (proj2 (cleanup_paths_best_effort Runs.env_one_locked
                         [Some Runs.temp_orders_main;
                          Some Runs.temp_orders_current]
                         Runs.shop_with_temp_models))
           Runs.temp_orders_current).
  - apply list_elem_of_In. right. left. reflexivity.
  - intros w0. reflexivity.
Defined.

(** There the first file, which cannot be removed, is still on disk. *)
Example cleanup_goes_on_after_failure :
  is_Some
    (CompareModels.files
       (CompareModels.cleanup_paths Runs.env_one_locked
          [Some Runs.temp_orders_main; Some Runs.temp_orders_current]
          Runs.shop_with_temp_models).2
     !! Runs.temp_orders_main).
Proof. vm_compute. by eexists. Qed.

Section EarlyExit.
Import CompareModels.
Context (env : Env).

(** The fetcher returns [None] or the empty string: git cannot be
    started, or the file is empty on [main]. (For a file that [main] does
    not have the fetcher raises instead, and so does the run.) *)
Definition without_baseline (path : Path) : Prop :=
  forall w0, exists content,
    (get_main_branch_content env path w0).1 = Ok content
    /\ falsy content = true.


End EarlyExit.


Section TemplateReport.
Import CompareVersionsMacro.
Context (lower : string -> string).

(** A column of [cols1] has no column of [cols2] of the same name, case
    apart. *)
Definition unmatched (col : Column) (others : list Column) : Prop :=
  forall other, other ∈ others -> lower (col_name col) ≠ lower (col_name other).

Lemma existsb_same_false col others :
  existsb (same_name lower col) others = false <-> unmatched col others.
Proof.
  unfold unmatched. split.
  - intros Hex other Hin Heq.
    assert (Hsome : existsb (same_name lower col) others = true).
    { apply existsb_exists. exists other. split; [by apply list_elem_of_In|].
      by apply bool_decide_eq_true_2. }
    congruence.
  - intros Hno. apply not_true_is_false. intros Hex.
    apply existsb_exists in Hex as (other & Hin & Hsame).
    apply bool_decide_eq_true_1 in Hsame.
    by apply (Hno other); [apply list_elem_of_In|].
Qed.

Lemma filter_all {A} (P : A -> Prop) `{forall x, Decision (P x)} (l : list A) :
  (forall x, P x) -> filter P l = l.
Proof.
  intros HP. induction l as [|x l IH]; [done|].
  by rewrite filter_cons_True, IH.
Qed.

(** A [set] made inside a [for] body does not reach the enclosing body
    (the first reading): the flags tested at lines 149 and 161 are always
    false, and the template reports every column of the main relation as
    main-only and every column of the current one as current-only, common
    or not. Were the assignment to reach the outer variable (the second
    reading), the two lists would hold the unmatched columns. *)
Theorem compare_columns_only_lists cols1 cols2 :
  (let r := compare_columns lower false cols1 cols2 in
   version1_only_cols r = map col_name cols1
   /\ version2_only_cols r = map col_name cols2)
  /\ (let r := compare_columns lower true cols1 cols2 in
      forall nm,
        (nm ∈ version1_only_cols r
         <-> exists col, col ∈ cols1 /\ col_name col = nm
                         /\ unmatched col cols2)
        /\ (nm ∈ version2_only_cols r
            <-> exists col, col ∈ cols2 /\ col_name col = nm
                            /\ unmatched col cols1)).
Proof.
  split.
  - destruct (compare_columns_lists lower false cols1 cols2) as (_ & H1 & H2).
    cbv zeta. rewrite H1, H2. unfold only_names, flag_after_loop.
    split; f_equal; by apply filter_all.
  - destruct (compare_columns_lists lower true cols1 cols2) as (_ & H1 & H2).
    cbv zeta. rewrite H1, H2. unfold only_names, flag_after_loop.
    intros nm. split.
    + rewrite list_elem_of_fmap. split.
      * intros (col & -> & [Hf Hin]%list_elem_of_filter).
        exists col. split; [done|]. split; [done|].
        by apply existsb_same_false.
      * intros (col & Hin & <- & Hun). exists col. split; [done|].
        apply list_elem_of_filter. split; [|done].
        by apply existsb_same_false.
    + rewrite list_elem_of_fmap. split.
      * intros (col & -> & [Hf Hin]%list_elem_of_filter).
        exists col. split; [done|]. split; [done|].
        by apply existsb_same_false.
      * intros (col & Hin & <- & Hun). exists col. split; [done|].
        apply list_elem_of_filter. split; [|done].
        by apply existsb_same_false.
Qed.

(** The type changes that one column of the main relation gives. *)
Definition changes_of (col1 : Column) (cols2 : list Column)
    : list type_change :=
  map (fun col2 => (col_name col1, dtype col1, dtype col2))
    (filter (fun col2 => same_name lower col1 col2 = true
                         /\ dtype col1 ≠ dtype col2) cols2).

Lemma first_inner_changes col1 cols2 common changes flag :
  (fold_left (first_inner lower col1) cols2 (common, changes, flag)).1.2
  = changes ++ changes_of col1 cols2.
Proof.
  revert common changes flag.
  induction cols2 as [|col2 cols2 IH]; intros common changes flag;
    cbn [fold_left].
  - unfold changes_of. by rewrite filter_nil, app_nil_r.
  - unfold first_inner at 2, changes_of.
    destruct (same_name lower col1 col2) eqn:E.
    + case_bool_decide as Hd.
      * rewrite IH, filter_cons_True by done. cbn [map].
        by rewrite <- app_assoc.
      * rewrite IH, filter_cons_False by tauto. done.
    + rewrite IH, filter_cons_False; [done|]. rewrite E. intros [? _]. done.
Qed.

Lemma first_outer_changes b cols2 cols1 common only1 changes :
  (fold_left (first_outer lower b cols2) cols1 (common, only1, changes)).2
  = changes ++ concat (map (fun col1 => changes_of col1 cols2) cols1).
Proof.
  revert common only1 changes.
  induction cols1 as [|col1 cols1 IH]; intros common only1 changes;
    cbn [fold_left map concat].
  - by rewrite app_nil_r.
  - unfold first_outer at 2.
    pose proof (first_inner_changes col1 cols2 common changes false) as H.
    destruct (fold_left (first_inner lower col1) cols2 (common, changes, false))
      as [[common' changes'] flag].
    cbn in H. subst changes'. rewrite IH. by rewrite <- app_assoc.
Qed.

(** The type changes reported are the pairs of columns of the same name,
    case apart, whose types differ, each with the name and the type of the
    main side and the type of the current side; this under both
    readings. *)
Theorem compare_columns_type_changes b cols1 cols2 (t : type_change) :
  t ∈ type_changes (compare_columns lower b cols1 cols2)
  <-> exists col1 col2,
        col1 ∈ cols1 /\ col2 ∈ cols2
        /\ lower (col_name col1) = lower (col_name col2)
        /\ dtype col1 ≠ dtype col2
        /\ t = (col_name col1, dtype col1, dtype col2).
Proof.
  unfold compare_columns.
  pose proof (first_outer_changes b cols2 cols1 [] [] []) as H.
  destruct (fold_left (first_outer lower b cols2) cols1 ([], [], []))
    as [[common only1] changes].
  cbn in H. subst changes. cbn [type_changes].
  rewrite list_elem_of_In, in_concat. split.
  - intros (l & Hl & Ht). apply in_map_iff in Hl as (col1 & <- & Hcol1).
    unfold changes_of in Ht. apply in_map_iff in Ht as (col2 & <- & Hcol2).
    apply list_elem_of_In, list_elem_of_filter in Hcol2 as [[Hs Hd] Hcol2].
    apply bool_decide_eq_true_1 in Hs.
    exists col1, col2. by rewrite list_elem_of_In.
  - intros (col1 & col2 & H1 & H2 & Hs & Hd & ->).
    exists (changes_of col1 cols2). split.
    + apply in_map_iff. exists col1. by rewrite <- list_elem_of_In.
    + unfold changes_of. apply in_map_iff. exists col2. split; [done|].
      apply list_elem_of_In, list_elem_of_filter. split; [|done].
      split; [|done]. by apply bool_decide_eq_true_2.
Qed.

End TemplateReport.

Section Defaults.
Import EmailProcessor.
Context (env : Env).

Lemma set_scalar_fresh col v df :
  col ∉ columns df ->
  set_scalar col v df
  = mkDF (columns df ++ [col]) (map (fun r => r ++ [v]) (rows df)).
Proof. intros H. unfold set_scalar. by rewrite bool_decide_eq_false_2. Qed.

Lemma check_required_present required df w :
  missing_columns required df = [] ->
  check_required required df w = (Ok tt, w).
Proof. intros H. unfold check_required. by rewrite H. Qed.

(** The columns that the Time Off normalizer adds when they are absent,
    with the value it puts in every row. *)
Definition to_defaults (current_timestamp : Z) : list (string * value) :=
  [("timestamp_unix", VInt current_timestamp);
   ("Status", VStr "Approved");
   ("Unit of Time", VStr "Hours")].

Definition absent_from (df : DataFrame) (defaults : list (string * value))
    : list (string * value) :=
  filter (fun d => d.1 ∉ columns df) defaults.

Lemma wf_renamed kind cfg df : wf df -> wf (renamed kind cfg df).
Proof.
  unfold wf, renamed, rename. case_bool_decide; [done|]. cbn.
  by rewrite length_map.
Qed.

Lemma rows_renamed kind cfg df : rows (renamed kind cfg df) = rows df.
Proof. unfold renamed, rename. by case_bool_decide. Qed.

Lemma required_present required df col :
  missing_columns required df = [] -> col ∈ required -> col ∈ columns df.
Proof.
  intros Hnone Hin. destruct (decide (col ∈ columns df)) as [|Hout]; [done|].
  assert (Hmiss : col ∈ missing_columns required df)
    by (by apply elem_of_missing_columns).
  rewrite Hnone in Hmiss. by apply elem_of_nil in Hmiss.
Qed.

(** [if col not in df.columns: df[col] = v] *)
Definition with_default (col : string) (v : value) (df : DataFrame)
    : DataFrame :=
  if bool_decide (col ∉ columns df) then set_scalar col v df else df.

Lemma add_timestamp_default df w :
  exists w',
    add_timestamp env df w
    = (Ok (with_default "timestamp_unix" (VInt (time_now env w)) df), w')
    /\ sheets w' = sheets w /\ fs w' = fs w /\ drive w' = drive w.
Proof.
  unfold add_timestamp, with_default. case_bool_decide.
  - eexists. split; [reflexivity|done].
  - eexists. split; [reflexivity|done].
Qed.

Lemma append_nothing (rws : list (list value)) :
  map (fun r => r ++ []) rws = rws.
Proof.
  induction rws as [|r rws IH]; [done|]. cbn. by rewrite app_nil_r, IH.
Qed.

Lemma map_append_append (rws : list (list value)) a b :
  map (fun r => r ++ b) (map (fun r => r ++ a) rws)
  = map (fun r => r ++ a ++ b) rws.
Proof.
  rewrite map_map. apply map_ext. intros r. by rewrite <- app_assoc.
Qed.

Ltac fresh_label :=
  rewrite ?elem_of_app, ?list_elem_of_singleton; intuition discriminate.

Lemma with_default_absent col v df :
  col ∉ columns df ->
  with_default col v df
  = mkDF (columns df ++ [col]) (map (fun r => r ++ [v]) (rows df)).
Proof.
  intros H. unfold with_default. rewrite bool_decide_eq_true_2 by done.
  by apply set_scalar_fresh.
Qed.

Lemma with_default_present col v df :
  col ∈ columns df -> with_default col v df = df.
Proof.
  intros H. unfold with_default. rewrite bool_decide_eq_false_2; [done|].
  intros Hn. by apply Hn.
Qed.

Lemma to_defaults_closed ts (d : DataFrame) :
  with_default "Unit of Time" (VStr "Hours")
    (with_default "Status" (VStr "Approved")
       (with_default "timestamp_unix" (VInt ts) d))
  = mkDF (columns d ++ (absent_from d (to_defaults ts)).*1)
      (map (fun r => r ++ (absent_from d (to_defaults ts)).*2) (rows d)).
Proof.
  destruct d as [cols rws]. unfold absent_from, to_defaults. cbn [columns rows].
  destruct (decide ("timestamp_unix" ∈ cols)) as [Ht|Ht];
    destruct (decide ("Status" ∈ cols)) as [Hs|Hs];
    destruct (decide ("Unit of Time" ∈ cols)) as [Hu|Hu].
  all: repeat first
    [ rewrite filter_cons_True by (cbn; assumption)
    | rewrite filter_cons_False by (cbn; tauto) ].
  all: rewrite filter_nil; cbn [fmap list_fmap fst snd].
  all: first
    [ rewrite (with_default_present "timestamp_unix") by (cbn; fresh_label)
    | rewrite (with_default_absent "timestamp_unix") by (cbn; fresh_label) ];
    cbn [columns rows].
  all: first
    [ rewrite (with_default_present "Status") by (cbn; fresh_label)
    | rewrite (with_default_absent "Status") by (cbn; fresh_label) ];
    cbn [columns rows].
  all: first
    [ rewrite (with_default_present "Unit of Time") by (cbn; fresh_label)
    | rewrite (with_default_absent "Unit of Time") by (cbn; fresh_label) ];
    cbn [columns rows].
  all: rewrite ?map_append_append, <- ?app_assoc; cbn [app].
  all: by rewrite ?app_nil_r, ?append_nothing.
Qed.

(** A Time Off file that has its required columns comes back with every
    column and every cell it had, in place, followed by the columns
    [timestamp_unix], [Status] and [Unit of Time] that it lacked, filled in
    every row with the time of the call, ['Approved'] and ['Hours']. *)
Theorem process_to_file_defaults (self : Processor) (file_path : Path)
    (df : DataFrame) (current_timestamp : Z) (w : World) :
  (forall w', read_excel env w' file_path = Done df) ->
  (forall w', time_now env w' = current_timestamp) ->
  wf df ->
  let src := renamed "to" (config self) df in
  let added := absent_from src (to_defaults current_timestamp) in
  missing_columns to_required src = [] ->
  exists out w',
    process_to_file env self file_path w = (Ok out, w')
    /\ columns out = columns src ++ added.*1
    /\ rows out = map (fun r => r ++ added.*2) (rows df)
    /\ wf out
    /\ sheets w' = sheets w /\ fs w' = fs w /\ drive w' = drive w.
Proof.
  intros Hread Htime Hwf src added Hreq.
  pose proof (wf_renamed "to" (config self) df Hwf) as Hwfs. fold src in Hwfs.
  pose proof (rows_renamed "to" (config self) df) as Hrows. fold src in Hrows.
  assert (Hwf_out : wf (mkDF (columns src ++ added.*1)
                          (map (fun r => r ++ added.*2) (rows df)))).
  { unfold wf in *. cbn. rewrite Hrows in Hwfs. rewrite Forall_map.
    eapply Forall_impl; [exact Hwfs|]. cbn. intros r Hr.
    by rewrite !length_app, !length_fmap, Hr. }
  assert (Hdur : "Duration" ∈ columns src).
  { apply (required_present to_required); [done|].
    apply list_elem_of_In. cbn. tauto. }
  unfold process_to_file, try_except. unfold logger at 1.
  unfold bind at 1. set (w1 := mkWorld _ _ _ _).
  unfold bind at 1, call. rewrite Hread. cbn [service_result]. fold src.
  unfold bind at 1. rewrite (check_required_present _ _ _ Hreq).
  destruct (add_timestamp_default src w1) as (w2 & Hts & Hs2 & Hf2 & Hd2).
  rewrite (bind_ok _ _ _ _ _ Hts). rewrite Htime.
  fold (with_default "Status" (VStr "Approved")
          (with_default "timestamp_unix" (VInt current_timestamp) src)).
  set (d2 := with_default "Status" _ _).
  assert (Hunit : (if bool_decide (("Unit of Time" ∉ columns d2)
                                   ∧ "Duration" ∈ columns d2)
                   then set_scalar "Unit of Time" (VStr "Hours") d2 else d2)
                  = with_default "Unit of Time" (VStr "Hours") d2).
  { unfold with_default.
    assert (Hdur2 : "Duration" ∈ columns d2).
    { subst d2. unfold with_default.
      repeat case_bool_decide; rewrite ?set_scalar_fresh by done; cbn;
        fresh_label. }
    destruct (decide ("Unit of Time" ∈ columns d2)) as [Hin|Hout].
    - rewrite !bool_decide_eq_false_2; [done|tauto|tauto].
    - by rewrite !bool_decide_eq_true_2. }
  rewrite Hunit. subst d2. rewrite to_defaults_closed. fold added.
  rewrite Hrows. unfold logger, bind, ret. cbn.
  eexists _, _. split; [reflexivity|]. cbn.
  split; [done|]. split; [done|]. split; [exact Hwf_out|].
  rewrite Hs2, Hf2, Hd2. done.
Qed.

End Defaults.

Lemma process_to_file_defaults_witness :
  exists out w',
    EmailProcessor.process_to_file (Ingest.env_of Ingest.time_off)
      Ingest.local_processor ["/"; "tmp"; "timeoff.xlsx"] Ingest.empty_world
    = (Ok out, w')
    /\ EmailProcessor.columns out
       = ["Employee ID"; "Time Off Date"; "Duration"; "Status";
          "timestamp_unix"; "Unit of Time"]
    /\ EmailProcessor.rows out
       = [[EmailProcessor.VStr "E1"; EmailProcessor.VStr "2025-03-12";
           EmailProcessor.VInt 8; EmailProcessor.VStr "Submitted";
           EmailProcessor.VInt 1741788000; EmailProcessor.VStr "Hours"]].
Proof.
  destruct (process_to_file_defaults (Ingest.env_of Ingest.time_off)
              Ingest.local_processor ["/"; "tmp"; "timeoff.xlsx"]
              Ingest.time_off 1741788000 Ingest.empty_world
              (fun _ => eq_refl) (fun _ => eq_refl))
    as (out & w' & Hrun & Hcols & Hrows & _).
  - repeat constructor.
  - vm_compute. reflexivity.
  - exists out, w'. split; [exact Hrun|]. split.
    + rewrite Hcols. vm_compute. reflexivity.
    + rewrite Hrows. vm_compute. reflexivity.
Defined.

Section LeaveDates.
Import EmailProcessor.
Context (env : Env).

(** [ 'Date' in col or 'Day' in col ] *)
Definition date_like (col : string) : Prop :=
  Str.contains "Date" col = true \/ Str.contains "Day" col = true.

Definition blank : value := VStr "".

(** A cell under the label [col] once the date columns are filled. *)
Definition blank_date (col : string) (x : value) : value :=
  if bool_decide (date_like col) then fillna_value blank x else x.

Definition fill_step (d : DataFrame) (col : string) : DataFrame :=
  if bool_decide (col ∈ columns d) then fillna col blank d else d.

Definition filled (labels : list string) (col : string) (x : value) : value :=
  if bool_decide (col ∈ labels) then fillna_value blank x else x.

Lemma fillna_value_twice x :
  fillna_value blank (fillna_value blank x) = fillna_value blank x.
Proof. by destruct x. Qed.

Lemma zip_with_same (f : string -> value -> value) cols (r : list value) :
  (forall c x, f c x = x) -> length r = length cols -> zip_with f cols r = r.
Proof.
  intros Hf. revert r. induction cols as [|c cols IH]; intros [|x r] Hlen;
    try done. cbn. rewrite Hf. f_equal. apply IH. by injection Hlen.
Qed.

Lemma fold_fillna labels d :
  wf d ->
  fold_left fill_step labels d
  = mkDF (columns d)
      (map (fun r => zip_with (filled labels) (columns d) r) (rows d)).
Proof.
  revert d. induction labels as [|col labels IH]; intros [cols rws] Hwf;
    cbn [fold_left columns rows].
  - f_equal. unfold wf in Hwf. cbn in Hwf.
    induction Hwf as [|r rws Hr _ IHr]; [done|]. cbn [map].
    rewrite <- IHr. f_equal. symmetry. apply zip_with_same; [|done].
    intros c x. unfold filled. rewrite bool_decide_eq_false_2; [done|].
    apply not_elem_of_nil.
  - assert (Hstep : exists rws',
              fill_step (mkDF cols rws) col = mkDF cols rws'
              /\ wf (mkDF cols rws')
              /\ map (fun r => zip_with (filled labels) cols r) rws'
                 = map (fun r => zip_with (filled (col :: labels)) cols r) rws).
    { unfold fill_step, fillna. cbn [columns rows].
      case_bool_decide as Hin.
      - eexists. split; [reflexivity|]. split.
        + unfold wf in *. cbn in *. rewrite Forall_map.
          eapply Forall_impl; [exact Hwf|]. cbn. intros r Hr.
          rewrite length_zip_with. lia.
        + rewrite map_map. apply map_ext. intros r.
          apply list_eq. intros i. rewrite !lookup_zip_with.
          destruct (cols !! i) as [c|]; [|done]. cbn.
          destruct (r !! i) as [x|]; [|done]. cbn. f_equal.
          unfold filled. destruct (decide (c = col)) as [->|Hne].
          * rewrite (bool_decide_eq_true_2 (col = col)) by done.
            rewrite (bool_decide_eq_true_2 (col ∈ col :: labels)) by left.
            case_bool_decide; [apply fillna_value_twice|done].
          * rewrite (bool_decide_eq_false_2 (c = col)) by done.
            destruct (decide (c ∈ labels)) as [Hl|Hl].
            -- rewrite !bool_decide_eq_true_2; [done|by right|done].
            -- rewrite !bool_decide_eq_false_2; [done| |done].
               by intros [?|?]%elem_of_cons.
      - exists rws. split; [done|]. split; [done|].
        apply map_ext_in. intros r _.
        apply list_eq. intros i. rewrite !lookup_zip_with.
        destruct (cols !! i) as [c|] eqn:Hc; [|done]. cbn.
        destruct (r !! i) as [x|]; [|done]. cbn. f_equal.
        unfold filled.
        assert (Hne : c ≠ col).
        { intros ->. apply Hin. by eapply list_elem_of_lookup_2. }
        destruct (decide (c ∈ labels)) as [Hl|Hl].
        + rewrite !bool_decide_eq_true_2; [done|by right|done].
        + rewrite !bool_decide_eq_false_2; [done| |done].
          by intros [?|?]%elem_of_cons. }
    destruct Hstep as (rws' & -> & Hwf' & Hmap).
    rewrite (IH _ Hwf'). cbn [columns rows]. by rewrite Hmap.
Qed.

Lemma timestamp_closed ts (d : DataFrame) :
  let added := absent_from d [("timestamp_unix", VInt ts)] in
  with_default "timestamp_unix" (VInt ts) d
  = mkDF (columns d ++ added.*1) (map (fun r => r ++ added.*2) (rows d)).
Proof.
  destruct d as [cols rws]. unfold absent_from. cbn [columns rows].
  destruct (decide ("timestamp_unix" ∈ cols)) as [Ht|Ht].
  - rewrite filter_cons_False by (cbn; tauto). rewrite filter_nil. cbn.
    rewrite with_default_present by done.
    by rewrite app_nil_r, append_nothing.
  - rewrite filter_cons_True by (cbn; assumption). rewrite filter_nil.
    by rewrite with_default_absent.
Qed.

(** A Leave of Absence file that has its required columns comes back with
    its columns in place, followed by [timestamp_unix] when it lacked it;
    under every label that contains [Date] or [Day] a missing value has
    become the empty string, and every other cell is as it was. *)
Theorem process_loa_file_blanks_dates (self : Processor) (file_path : Path)
    (df : DataFrame) (current_timestamp : Z) (w : World) :
  (forall w', read_excel env w' file_path = Done df) ->
  (forall w', time_now env w' = current_timestamp) ->
  wf df ->
  let src := renamed "loa" (config self) df in
  let added := absent_from src [("timestamp_unix", VInt current_timestamp)] in
  missing_columns loa_required src = [] ->
  exists out w',
    process_loa_file env self file_path w = (Ok out, w')
    /\ columns out = columns src ++ added.*1
    /\ rows out
       = map (fun r => zip_with blank_date (columns out) (r ++ added.*2))
           (rows df)
    /\ wf out
    /\ (forall r j col,
          r ∈ rows out -> columns out !! j = Some col -> date_like col ->
          r !! j ≠ Some VNaN)
    /\ sheets w' = sheets w /\ fs w' = fs w /\ drive w' = drive w.
Proof.
  intros Hread Htime Hwf src added Hreq.
  pose proof (wf_renamed "loa" (config self) df Hwf) as Hwfs. fold src in Hwfs.
  pose proof (rows_renamed "loa" (config self) df) as Hrows. fold src in Hrows.
  set (cols := columns src ++ added.*1).
  set (d1 := mkDF cols (map (fun r => r ++ added.*2) (rows df))).
  assert (Hwf1 : wf d1).
  { unfold wf in *. cbn. rewrite Hrows in Hwfs. rewrite Forall_map.
    eapply Forall_impl; [exact Hwfs|]. cbn. intros r Hr. subst cols.
    by rewrite !length_app, !length_fmap, Hr. }
  set (rws := map (fun r => zip_with blank_date cols (r ++ added.*2)) (rows df)).
  assert (Hfold : fold_left fill_step (filter date_like cols) d1
                  = mkDF cols rws).
  { rewrite (fold_fillna _ _ Hwf1). subst d1 rws. cbn [columns rows]. f_equal.
    rewrite map_map. apply map_ext. intros r.
    apply list_eq. intros i. rewrite !lookup_zip_with.
    destruct (cols !! i) as [c|] eqn:Hc; [|reflexivity].
    destruct ((r ++ added.*2) !! i) as [x|]; [|reflexivity].
    cbn [mbind option_bind]. f_equal.
    unfold filled, blank_date.
    destruct (decide (date_like c)) as [Hd|Hd].
    - rewrite !bool_decide_eq_true_2; [done|done|].
      apply list_elem_of_filter. split; [done|].
      by eapply list_elem_of_lookup_2.
    - rewrite !bool_decide_eq_false_2; [done|done|].
      by intros [? _]%list_elem_of_filter. }
  assert (Hwf_out : wf (mkDF cols rws)).
  { unfold wf in *. cbn in *. subst rws. rewrite Forall_map.
    rewrite Forall_map in Hwf1.
    eapply Forall_impl; [exact Hwf1|]. cbn. intros r Hr.
    rewrite length_zip_with. lia. }
  unfold process_loa_file, try_except. unfold logger at 1.
  unfold bind at 1. set (w1 := mkWorld _ _ _ _).
  unfold bind at 1, call. rewrite Hread. cbn [service_result]. fold src.
  unfold bind at 1. rewrite (check_required_present _ _ _ Hreq).
  destruct (add_timestamp_default env src w1) as (w2 & Hts & Hs2 & Hf2 & Hd2).
  rewrite (bind_ok _ _ _ _ _ Hts). rewrite Htime.
  rewrite timestamp_closed. fold added. rewrite Hrows. fold cols. fold d1.
  change (columns d1) with cols.
  change (fold_left _ (filter _ cols) d1)
    with (fold_left fill_step (filter date_like cols) d1).
  rewrite Hfold. unfold logger, bind, ret. cbn.
  eexists _, _. split; [reflexivity|]. cbn.
  split; [done|]. split; [done|]. split; [exact Hwf_out|].
  split; [|by rewrite Hs2, Hf2, Hd2].
  intros r j col Hr Hcol Hdate. subst rws.
  apply list_elem_of_fmap in Hr as (r0 & -> & _).
  rewrite lookup_zip_with, Hcol.
  destruct ((r0 ++ added.*2) !! j) as [x|]; [|discriminate].
  cbn [mbind option_bind].
  unfold blank_date. rewrite bool_decide_eq_true_2 by done.
  by destruct x.
Qed.

End LeaveDates.

Lemma process_loa_file_blanks_dates_witness :
  exists out w',
    EmailProcessor.process_loa_file (Ingest.env_of Ingest.leave)
      Ingest.local_processor ["/"; "tmp"; "leave.xlsx"] Ingest.empty_world
    = (Ok out, w')
    /\ EmailProcessor.rows out
       = [[EmailProcessor.VStr "E1"; EmailProcessor.VStr "2025-03-01";
           EmailProcessor.VStr "2025-03-10"; EmailProcessor.VStr "";
           EmailProcessor.VNaN; EmailProcessor.VInt 1741788000]].
Proof.
  destruct (process_loa_file_blanks_dates (Ingest.env_of Ingest.leave)
              Ingest.local_processor ["/"; "tmp"; "leave.xlsx"]
              Ingest.leave 1741788000 Ingest.empty_world
              (fun _ => eq_refl) (fun _ => eq_refl))
    as (out & w' & Hrun & Hcols & Hrows & _).
  - repeat constructor.
  - vm_compute. reflexivity.
  - exists out, w'. split; [exact Hrun|].
    rewrite Hrows, Hcols. vm_compute. reflexivity.
Defined.

Section NormalizerErrors.
Import EmailProcessor.
Context (env : Env).

(** A run that changed nothing but the log, and whose exception, if any,
    is the last thing logged, as an error under the given heading. *)
Definition only_logged (heading : string) (w : World)
    (out : result DataFrame * World) : Prop :=
  sheets out.2 = sheets w /\ fs out.2 = fs w /\ drive out.2 = drive w
  /\ forall e, out.1 = Raise e ->
       is_Exception e = true
       /\ last (log out.2) = Some (ERROR, heading +:+ exn_str e).

Ltac normalizer_cases w1 file_path :=
  unfold bind at 1, call;
  destruct (read_excel env w1 file_path) as [df|msg]; cbn [service_result];
  [ unfold bind at 1;
    match goal with
    | |- context [check_required ?req ?d w1] =>
        destruct (missing_columns req d) as [|c cs] eqn:Hmiss;
        [ rewrite (check_required_present req d w1 Hmiss);
          destruct (add_timestamp_default env d w1)
            as (w2 & Hts & Hs2 & Hf2 & Hd2);
          rewrite (bind_ok _ _ _ _ _ Hts)
        | rewrite (check_required_missing req d w1)
            by (rewrite Hmiss; discriminate) ]
    end
  | ].

(** The two normalizers change neither a sheet nor a file nor Drive; when
    they fail, the exception is logged as an error and raised again. *)
Theorem normalizers_only_log (self : Processor) (file_path : Path) (w : World) :
  only_logged "Error processing LOA file: " w
    (process_loa_file env self file_path w)
  /\ only_logged "Error processing Time Off file: " w
       (process_to_file env self file_path w).
Proof.
  split.
  - unfold process_loa_file, try_except. unfold logger at 1.
    unfold bind at 1. set (w1 := mkWorld _ _ _ _).
    normalizer_cases w1 file_path.
    + unfold logger, bind, ret. cbn. unfold only_logged. cbn.
      rewrite Hs2, Hf2, Hd2. split; [done|]. split; [done|]. split; [done|].
      intros e [=].
    + cbn. unfold only_logged. cbn.
      split; [done|]. split; [done|]. split; [done|].
      intros e [= <-]. split; [done|]. by rewrite last_snoc.
    + cbn. unfold only_logged. cbn.
      split; [done|]. split; [done|]. split; [done|].
      intros e [= <-]. split; [done|]. by rewrite last_snoc.
  - unfold process_to_file, try_except. unfold logger at 1.
    unfold bind at 1. set (w1 := mkWorld _ _ _ _).
    normalizer_cases w1 file_path.
    + unfold logger, bind, ret. cbn. unfold only_logged. cbn.
      rewrite Hs2, Hf2, Hd2. split; [done|]. split; [done|]. split; [done|].
      intros e [=].
    + cbn. unfold only_logged. cbn.
      split; [done|]. split; [done|]. split; [done|].
      intros e [= <-]. split; [done|]. by rewrite last_snoc.
    + cbn. unfold only_logged. cbn.
      split; [done|]. split; [done|]. split; [done|].
      intros e [= <-]. split; [done|]. by rewrite last_snoc.
Qed.

End NormalizerErrors.

(** ** Statements of the pipeline that only raise what [except Exception]
    catches *)

(** A sequence whose last statement never returns [bad] never returns it. *)
Lemma bind_never {W A B} (bad : B) (m : M W A) (k : A -> M W B) w w' :
  (forall a w0, k a w0 = (Ok bad, w') -> False) ->
  bind m k w = (Ok bad, w') -> False.
Proof.
  intros Hk. unfold bind. destruct (m w) as [[a|e] w0]; [apply Hk|done].
Qed.

Section Tame.

(** What a statement leaves as it was. *)
Context {World : Type} (kept : World -> World -> Prop).
Context (kept_refl : forall w, kept w w).
Context (kept_trans : forall w1 w2 w3, kept w1 w2 -> kept w2 w3 -> kept w1 w3).

Definition tame {A} (m : M World A) : Prop :=
  forall w, kept w (m w).2
            /\ forall e, (m w).1 = Raise e -> is_Exception e = true.

Lemma tame_ret {A} (a : A) : tame (ret a).
Proof. intros w. split; [apply kept_refl|]. intros e [=]. Qed.

Lemma tame_raise {A} e : is_Exception e = true -> tame (@raise World A e).
Proof. intros He w. split; [apply kept_refl|]. by intros e' [= <-]. Qed.

Lemma tame_bind {A B} (m : M World A) (k : A -> M World B) :
  tame m -> (forall a, tame (k a)) -> tame (bind m k).
Proof.
  intros Hm Hk w. unfold bind. destruct (Hm w) as [Hkept Hexn].
  destruct (m w) as [[a|e] w1]; cbn in *.
  - destruct (Hk a w1) as [Hkept' Hexn']. split; [by eapply kept_trans|done].
  - split; [done|]. intros e' [= <-]. by apply Hexn.
Qed.

Lemma tame_try_except {A} (m : M World A) (h : exn -> M World A) :
  tame m -> (forall e, is_Exception e = true -> tame (h e)) ->
  tame (try_except m h).
Proof.
  intros Hm Hh w. unfold try_except. destruct (Hm w) as [Hkept Hexn].
  destruct (m w) as [[a|e] w1]; cbn in *.
  - split; [done|]. intros e [=].
  - destruct (Hh e (Hexn e eq_refl) w1) as [Hkept' Hexn'].
    split; [by eapply kept_trans|done].
Qed.

Lemma tame_if {A} (b : bool) (m1 m2 : M World A) :
  tame m1 -> tame m2 -> tame (if b then m1 else m2).
Proof. by destruct b. Qed.

End Tame.

(** The appender leaves the files and Drive alone. *)
Definition same_files (w w' : EmailProcessor.World) : Prop :=
  EmailProcessor.fs w' = EmailProcessor.fs w
  /\ EmailProcessor.drive w' = EmailProcessor.drive w.

Abbreviation quiet := (tame same_files).

Section AppenderTotal.
Import EmailProcessor.

Lemma same_files_refl w : same_files w w.
Proof. done. Qed.

Lemma same_files_trans w1 w2 w3 :
  same_files w1 w2 -> same_files w2 w3 -> same_files w1 w3.
Proof. intros [? ?] [? ?]. split; congruence. Qed.

Lemma quiet_logger lv msg : quiet (logger lv msg).
Proof. intros w. split; [done|]. intros e [=]. Qed.

Lemma quiet_require {A} key (v : option A) : quiet (require key v).
Proof.
  destruct v; [apply tame_ret, same_files_refl|].
  by apply tame_raise; [apply same_files_refl|].
Qed.

Lemma quiet_open_worksheet ws : quiet (open_worksheet ws).
Proof.
  intros w. unfold open_worksheet. destruct (sheets w !! ws); cbn.
  - split; [done|]. intros e [=].
  - split; [done|]. by intros e [= <-].
Qed.

Lemma quiet_get_all_values ws : quiet (get_all_values ws).
Proof. intros w. split; [done|]. intros e [=]. Qed.

Lemma service_update_raises range_name values g e :
  service_update range_name values g = Raise e -> is_Exception e = true.
Proof.
  unfold service_update. destruct (has_nan values); [by intros [= <-]|].
  destruct (A1.parse_range range_name) as [[[r c] l]|].
  - destruct (match l with Some _ => _ | None => _ end); [done|].
    by intros [= <-].
  - by intros [= <-].
Qed.

Lemma quiet_worksheet_update ws range_name values :
  quiet (worksheet_update ws range_name values).
Proof.
  intros w. unfold worksheet_update.
  destruct (service_update _ _ _) as [g|e] eqn:E; cbn.
  - split; [done|]. intros e [=].
  - split; [done|]. intros e' [= <-]. by eapply service_update_raises.
Qed.

Lemma quiet_chr_or_raise i : quiet (chr_or_raise i).
Proof.
  unfold chr_or_raise. destruct (A1.chr i).
  - apply tame_ret, same_files_refl.
  - by apply tame_raise; [apply same_files_refl|].
Qed.

End AppenderTotal.

Create HintDb quiet.

#[export] Hint Resolve same_files_refl same_files_trans quiet_logger
  quiet_require quiet_open_worksheet quiet_get_all_values
  quiet_worksheet_update quiet_chr_or_raise : quiet.

Ltac quiet_step :=
  first
    [ solve [eauto with quiet]
    | apply tame_ret; solve [eauto with quiet]
    | apply tame_raise; [solve [eauto with quiet]|reflexivity]
    | apply tame_if
    | apply tame_bind; [solve [eauto with quiet]| |intros ?]
    | match goal with
      | |- tame _ (match ?x with _ => _ end) => destruct x
      end ].

Ltac quiet_auto := repeat quiet_step.

Section AppenderReturns.
Import EmailProcessor.

Lemma quiet_sheet_of cfg sheet_type : quiet (sheet_of cfg sheet_type).
Proof. unfold sheet_of. quiet_auto. Qed.

Lemma quiet_write_with_headers ws df : quiet (write_with_headers ws df).
Proof. unfold write_with_headers, top_range. quiet_auto. Qed.

Lemma quiet_write_below ws existing headers df :
  quiet (write_below ws existing headers df).
Proof. unfold write_below, append_range. quiet_auto. Qed.

Definition append_error (msg : string) : level * string :=
  (ERROR, "Error appending to Google Sheet: " +:+ msg).

(** The appender always returns a boolean: whatever the configuration
    lacks and whatever the service refuses is caught and logged as an
    error. It leaves the files and Drive as they are. *)
Theorem append_to_gsheet_returns (self : Processor) (df : DataFrame)
    (sheet_type : string) (w : World) :
  exists b w',
    append_to_gsheet self df sheet_type w = (Ok b, w')
    /\ fs w' = fs w /\ drive w' = drive w
    /\ (b = false -> exists msg, last (log w') = Some (append_error msg)).
Proof.
  unfold append_to_gsheet. unfold bind at 1. unfold logger at 1.
  set (w1 := mkWorld _ _ _ _).
  match goal with
  | |- context [try_except ?body ?h w1] =>
      assert (Hbody : quiet body);
      [|destruct (Hbody w1) as [[Hfs Hdrive] Hexn]; unfold try_except;
        destruct (body w1) as [[b|e] w2] eqn:Hrun]
  end.
  - pose proof quiet_sheet_of. pose proof quiet_write_with_headers.
    pose proof quiet_write_below. quiet_auto.
  - cbn in *. exists b, w2. split; [done|]. split; [done|]. split; [done|].
    intros ->. exfalso. revert Hrun.
    repeat (apply bind_never; intros ? ?).
    by intros [= ?].
  - specialize (Hexn e eq_refl). rewrite Hexn. cbn in *.
    eexists false, _. split; [reflexivity|]. cbn.
    split; [done|]. split; [done|]. intros _. exists (exn_str e).
    by rewrite last_snoc.
Qed.

End AppenderReturns.

Section AppenderRows.
Import EmailProcessor.

Lemma sheet_of_outcome cfg sheet_type w :
  (exists ws, sheet_of cfg sheet_type w = (Ok ws, w))
  \/ (exists key, sheet_of cfg sheet_type w = (Raise (KeyError key), w)).
Proof.
  unfold sheet_of, bind, require.
  destruct (String.eqb sheet_type "loa").
  - destruct (loa_sheet_id cfg); [left|right]; by eexists.
  - destruct (to_sheet_id cfg); [left|right]; by eexists.
Qed.

(** When the destination cannot be opened, because its key is not in the
    configuration or because the service has no such worksheet, the
    appender returns [False] and no sheet changes. *)
Theorem append_to_gsheet_no_destination (self : Processor) (df : DataFrame)
    (sheet_type : string) (w : World) :
  (forall ws w0,
     (sheet_of (config self) sheet_type w0).1 = Ok ws -> sheets w !! ws = None) ->
  exists w',
    append_to_gsheet self df sheet_type w = (Ok false, w')
    /\ sheets w' = sheets w.
Proof.
  intros Hnone. unfold append_to_gsheet. unfold bind at 1. unfold logger at 1.
  set (w1 := mkWorld _ _ _ _). unfold try_except. unfold bind at 1.
  destruct (sheet_of_outcome (config self) sheet_type w1)
    as [[ws Hws]|[key Hkey]].
  - rewrite Hws. unfold bind at 1, open_worksheet.
    assert (Hlook : sheets w1 !! ws = None).
    { apply (Hnone ws w1). by rewrite Hws. }
    rewrite Hlook. cbn. eexists. split; reflexivity.
  - rewrite Hkey. cbn. eexists. split; reflexivity.
Qed.

Lemma write_below_outcome ws headers rest df w :
  sheets w !! ws = Some (headers :: rest) ->
  exists hs block,
    sheets (write_below ws (headers :: rest) headers df w).2
    = <[ws := hs :: rest ++ block]> (sheets w)
    /\ headers `prefix_of` hs.
Proof.
  intros Hlook.
  assert (Hdata : forall hs w1,
    sheets w1 = <[ws := hs :: rest]> (sheets w) ->
    exists block,
      sheets (bind (append_range (length (headers :: rest) + 1) hs df)
                (fun range_name =>
                   worksheet_update ws range_name (aligned_values hs df))
                w1).2
      = <[ws := hs :: rest ++ block]> (sheets w)).
  { intros hs w1 Hw1. unfold append_range, bind, chr_or_raise.
    destruct (A1.chr _) as [c|]; cbn [ret raise fst snd].
    - unfold worksheet_update, service_update.
      destruct (has_nan _);
        [exists []; cbn [snd]; by rewrite app_nil_r|].
      rewrite parse_append_range by (cbn; lia).
      destruct (A1.parse_cell _) as [[r' c']|]; cbn [mbind option_bind].
      + destruct (_ && _).
        * cbn [snd sheets set_sheets]. rewrite Hw1, lookup_insert_eq.
          cbn [default from_option]. unfold id.
          replace (length (headers :: rest) + 1 - 1)
            with (length (hs :: rest)) by (cbn; lia).
          change (1 - 1) with 0. rewrite write_block_below.
          rewrite insert_insert_eq. by eexists.
        * exists []. cbn [snd]. by rewrite app_nil_r.
      + exists []. cbn [snd]. by rewrite app_nil_r.
    - exists []. cbn [snd]. by rewrite app_nil_r. }
  unfold write_below.
  set (missing := filter (fun col => col ∉ headers) (columns df)).
  destruct missing as [|m ms] eqn:Hmiss.
  - unfold bind at 1. cbn [ret].
    destruct (Hdata headers w) as [block Hblock].
    { by rewrite insert_id. }
    exists headers, block. split; [exact Hblock|done].
  - unfold bind at 1. unfold bind at 1. unfold logger at 1.
    unfold bind at 1.
    rewrite (worksheet_update_anchor ws (A1.ustr_of "A1") _ _ 1 1
               (has_nan_strings _ []) eq_refl).
    cbn [sheets]. rewrite Hlook. cbn [default from_option map]. unfold id.
    rewrite map_display_VStr. change (1 - 1) with 0.
    rewrite write_block_header. unfold ret at 1.
    set (w1 := set_sheets _ _).
    destruct (Hdata (headers ++ m :: ms) w1) as [block Hblock]; [done|].
    exists (headers ++ m :: ms), block. split; [exact Hblock|].
    by eexists.
Qed.

(** Whatever the frame and whatever the outcome, the rows that a sheet
    holds stay where they are: the header row is at most extended on the
    right, every data row is unchanged, and what is written comes after the
    last row. *)
Theorem append_to_gsheet_keeps_rows (self : Processor) (df : DataFrame)
    (sheet_type : string) (ws : string * string) (w : World)
    (headers : list string) (rest : grid) :
  (forall w0, sheet_of (config self) sheet_type w0 = (Ok ws, w0)) ->
  sheets w !! ws = Some (headers :: rest) ->
  exists hs block,
    sheets (append_to_gsheet self df sheet_type w).2
    = <[ws := hs :: rest ++ block]> (sheets w)
    /\ headers `prefix_of` hs.
Proof.
  intros Hsheet Hlook.
  unfold append_to_gsheet. unfold bind at 1. unfold logger at 1.
  set (w1 := mkWorld _ _ _ _). unfold try_except. unfold bind at 1.
  rewrite Hsheet. unfold bind at 1, open_worksheet.
  assert (Hlook1 : sheets w1 !! ws = Some (headers :: rest)) by exact Hlook.
  rewrite Hlook1. unfold bind at 1, get_all_values. rewrite Hlook1.
  cbn [default from_option]. unfold id. cbv beta iota.
  destruct (write_below_outcome ws headers rest df w1 Hlook1)
    as (hs & block & Hafter & Hpre).
  exists hs, block. split; [|exact Hpre].
  unfold bind at 1.
  destruct (write_below ws (headers :: rest) headers df w1) as [[[]|e] w2].
  - cbn in *. exact Hafter.
  - cbn in *. destruct (is_Exception e); cbn; exact Hafter.
Qed.

Lemma index_of_lookup (cols : list string) j col :
  NoDup cols -> cols !! j = Some col -> index_of col cols = Some j.
Proof.
  intros Hnd. revert j. induction Hnd as [|c cols Hc Hnd IH]; intros j Hj.
  - done.
  - cbn [index_of]. destruct j as [|j]; cbn in Hj.
    + injection Hj as ->. by rewrite bool_decide_eq_true_2.
    + rewrite bool_decide_eq_false_2.
      * by rewrite (IH j Hj).
      * intros ->. apply Hc. by eapply list_elem_of_lookup_2.
Qed.

Lemma index_of_elem (cols : list string) col :
  col ∈ cols -> exists i, index_of col cols = Some i /\ i < length cols.
Proof.
  induction cols as [|c cols IH]; [by intros ?%elem_of_nil|].
  intros Hin. cbn [index_of length]. case_bool_decide as Hc.
  - exists 0. split; [done|lia].
  - apply elem_of_cons in Hin as [->|Hin]; [done|].
    destruct (IH Hin) as (i & -> & Hi). exists (S i). split; [done|lia].
Qed.

(** The values sent hold no NaN when the frame has none and bears
    every label of the header row. *)
Lemma aligned_values_no_nan (hs : list string) (df : DataFrame) :
  wf df ->
  Forall (Forall (fun x => x ≠ VNaN)) (rows df) ->
  (forall h, h ∈ hs -> h ∈ columns df) ->
  has_nan (aligned_values hs df) = false.
Proof.
  intros Hwf Hcells Hall. unfold aligned_values, has_nan.
  destruct (existsb _ hs); [|done].
  apply not_true_is_false. intros Hex. apply existsb_exists in Hex.
  destruct Hex as (row & Hrow & Hnan).
  apply in_map_iff in Hrow as (r & <- & Hr). apply list_elem_of_In in Hr.
  apply existsb_exists in Hnan as (x & Hx & Hxnan).
  apply in_map_iff in Hx as (col & Hx & Hcol). apply list_elem_of_In in Hcol.
  destruct (index_of_elem (columns df) col (Hall col Hcol)) as (i & Hi & Hlt).
  rewrite Hi in Hx.
  unfold wf in Hwf. rewrite Forall_forall in Hwf.
  rewrite Forall_forall in Hcells.
  destruct (lookup_lt_is_Some_2 r i) as [y Hy].
  { rewrite (Hwf r Hr). exact Hlt. }
  rewrite Hy in Hx. cbn in Hx. subst y.
  pose proof (Hcells r Hr) as Hrow. rewrite Forall_forall in Hrow.
  apply (Hrow x); [by eapply list_elem_of_lookup_2|].
  by destruct x.
Qed.


End AppenderRows.

Lemma append_to_gsheet_no_destination_witness :
  exists w',
    EmailProcessor.append_to_gsheet Ingest.local_processor
      Ingest.to_without_duration "to" Ingest.empty_world
    = (Ok false, w')
    /\ EmailProcessor.sheets w' = EmailProcessor.sheets Ingest.empty_world.
Proof.
  apply append_to_gsheet_no_destination.
  intros ws w0 _. reflexivity.
Defined.

Lemma append_to_gsheet_keeps_rows_witness :
  exists hs block,
    EmailProcessor.sheets
      (EmailProcessor.append_to_gsheet Ingest.local_processor Ingest.wide
         "to" Ingest.to_sheet_world).2
    = <[Ingest.to_sheet := hs :: [["E0"; "2025-03-01"]] ++ block]>
        (EmailProcessor.sheets Ingest.to_sheet_world)
    /\ ["Employee ID"; "Time Off Date"] `prefix_of` hs.
Proof.
  apply (append_to_gsheet_keeps_rows Ingest.local_processor Ingest.wide "to"
           Ingest.to_sheet Ingest.to_sheet_world).
  - intros w0. reflexivity.
  - reflexivity.
Defined.


(** The archiver leaves the sheets alone. *)
Definition same_sheets (w w' : EmailProcessor.World) : Prop :=
  EmailProcessor.sheets w' = EmailProcessor.sheets w.

Abbreviation sheetless := (tame same_sheets).

Section ArchiverTotal.
Import EmailProcessor.
Context (env : Env).

Lemma same_sheets_refl w : same_sheets w w.
Proof. done. Qed.

Lemma same_sheets_trans w1 w2 w3 :
  same_sheets w1 w2 -> same_sheets w2 w3 -> same_sheets w1 w3.
Proof. unfold same_sheets. congruence. Qed.

Lemma sheetless_logger lv msg : sheetless (logger lv msg).
Proof. intros w. split; [done|]. intros e [=]. Qed.

Lemma sheetless_now : sheetless (now env).
Proof. intros w. split; [done|]. intros e [=]. Qed.

Lemma sheetless_require {A} key (v : option A) : sheetless (require key v).
Proof.
  destruct v; [apply tame_ret, same_sheets_refl|].
  by apply tame_raise; [apply same_sheets_refl|].
Qed.

Lemma sheetless_attribute {A} attr (v : option A) :
  sheetless (attribute attr v).
Proof.
  destruct v; [apply tame_ret, same_sheets_refl|].
  by apply tame_raise; [apply same_sheets_refl|].
Qed.

Lemma sheetless_fs_exists p : sheetless (fs_exists p).
Proof. intros w. split; [done|]. intros e [=]. Qed.

Lemma sheetless_copy2 src dst : sheetless (copy2 src dst).
Proof.
  intros w. unfold copy2. destruct (fs w !! src); cbn.
  - split; [done|]. intros e [=].
  - split; [done|]. by intros e [= <-].
Qed.

Lemma sheetless_write_json p m : sheetless (write_json p m).
Proof. intros w. split; [done|]. intros e [=]. Qed.

Lemma sheetless_drive_list q :
  sheetless (call APIError (fun w => drive_list env w q)).
Proof.
  intros w. unfold call. destruct (drive_list env w q); cbn.
  - split; [done|]. intros e [=].
  - split; [done|]. by intros e [= <-].
Qed.

Lemma sheetless_load_global nm : sheetless (load_global nm).
Proof.
  unfold load_global. case_bool_decide.
  - apply tame_ret, same_sheets_refl.
  - by apply tame_raise; [apply same_sheets_refl|].
Qed.

Lemma sheetless_files_create f : sheetless (files_create env f).
Proof.
  intros w. unfold files_create. destruct (drive_create env w f); cbn.
  - split; [done|]. intros e [=].
  - split; [done|]. by intros e [= <-].
Qed.

End ArchiverTotal.

Create HintDb sheetless.

#[export] Hint Resolve same_sheets_refl same_sheets_trans sheetless_logger
  sheetless_now sheetless_require sheetless_attribute sheetless_fs_exists
  sheetless_copy2 sheetless_write_json sheetless_drive_list
  sheetless_load_global sheetless_files_create : sheetless.

Ltac sheetless_step :=
  first
    [ solve [eauto with sheetless]
    | apply tame_ret; solve [eauto with sheetless]
    | apply tame_raise; [solve [eauto with sheetless]|reflexivity]
    | apply tame_if
    | apply tame_bind; [solve [eauto with sheetless]| |intros ?]
    | match goal with
      | |- tame _ (match ?x with _ => _ end) => destruct x
      | |- tame _ (let '(_, _) := ?x in _) => destruct x
      end ].

Ltac sheetless_auto := repeat sheetless_step.

Section ArchiverReturns.
Import EmailProcessor.
Context (env : Env).

Lemma sheetless_archive_local self file_path filename metadata :
  sheetless (archive_local env self file_path filename metadata).
Proof. unfold archive_local. sheetless_auto. Qed.

Lemma sheetless_archive_drive self file_path filename metadata :
  sheetless (archive_drive env self file_path filename metadata).
Proof. unfold archive_drive. sheetless_auto. Qed.

Lemma archive_local_some self file_path filename metadata w w' :
  archive_local env self file_path filename metadata w = (Ok None, w') -> False.
Proof.
  unfold archive_local.
  repeat first
    [ apply bind_never; intros ? ?
    | match goal with
      | |- (let '(_, _) := ?x in _) _ = _ -> _ => destruct x
      end ].
  by intros [= ?].
Qed.

Lemma archive_drive_some self file_path filename metadata w w' :
  archive_drive env self file_path filename metadata w = (Ok None, w') -> False.
Proof.
  unfold archive_drive.
  repeat first
    [ apply bind_never; intros ? ?
    | match goal with
      | |- (let '(_, _) := ?x in _) _ = _ -> _ => destruct x
      end ].
  by intros [= ?].
Qed.

Definition archive_error (msg : string) : level * string :=
  (ERROR, "Error archiving file: " +:+ msg).

(** The archiver always returns: a location, or [None] after logging the
    error that it caught. It never changes a sheet. *)
Theorem archive_file_returns (self : Processor) (file_path : Path)
    (kind : string) (w : World) :
  exists location w',
    archive_file env self file_path kind w = (Ok location, w')
    /\ sheets w' = sheets w
    /\ (location = None ->
        exists msg, last (log w') = Some (archive_error msg)).
Proof.
  unfold archive_file, try_except.
  match goal with
  | |- context [match ?body w with _ => _ end] =>
      assert (Hbody : sheetless body);
      [|destruct (Hbody w) as [Hsheets Hexn];
        destruct (body w) as [[r|e] w2] eqn:Hrun]
  end.
  - pose proof (sheetless_archive_local). pose proof (sheetless_archive_drive).
    sheetless_auto.
  - cbn in *. exists r, w2. split; [done|]. split; [done|].
    intros ->. exfalso. revert Hrun.
    repeat (apply bind_never; intros ? ?).
    repeat match goal with
           | |- (if ?b then _ else _) _ = _ -> _ => destruct b
           end.
    + apply archive_local_some.
    + apply archive_drive_some.
    + discriminate.
  - specialize (Hexn e eq_refl). rewrite Hexn. cbn in *.
    eexists None, _. split; [reflexivity|]. cbn.
    split; [done|]. intros _. exists (exn_str e).
    by rewrite last_snoc.
Qed.

End ArchiverReturns.

Section LocalArchiveFresh.
Import EmailProcessor.
Context (env : Env).

Lemma endswith_app s suf : Str.endswith (s +:+ suf) suf = true.
Proof.
  apply bool_decide_eq_true_2. rewrite chars_app. by eexists.
Qed.

(** The record written beside an archived file that kept its name. *)
Definition sidecar_record (filename kind : string) (t : DateTime)
    : Metadata :=
  mkMetadata filename filename kind (isoformat t) "workday_email_processor".

(** In local mode, a file whose name is free in the archive is copied
    there under its own name, in [loa] or [to]; the record is written
    beside it with the suffix [.json]; the downloaded file stays where it
    was, and no other file changes. *)
Theorem archive_file_local_fresh self file_path kind w dir d :
  archive_method (config self) = Some "local" ->
  archive_dir self = Some dir ->
  is_component (name file_path) ->
  fs w !! file_path = Some d ->
  let filename := name file_path in
  let target_dir := dir ++ [kind_key kind] in
  let target := target_dir ++ [filename] in
  let sidecar := target_dir ++ [stem_of_name filename +:+ ".json"] in
  fs w !! target = None ->
  Str.endswith filename ".json" = false ->
  exists w',
    archive_file env self file_path kind w = (Ok (Some (to_string target)), w')
    /\ fs w' !! target = Some d
    /\ fs w' !! sidecar
       = Some (Json (sidecar_record filename kind (datetime_now env w)))
    /\ fs w' !! file_path = Some d
    /\ (forall p, p ≠ target -> p ≠ sidecar -> fs w' !! p = fs w !! p)
    /\ drive w' = drive w /\ sheets w' = sheets w.
Proof.
  intros Hmethod Hdir Hname Hsrc filename target_dir target sidecar
    Hfree Hjson.
  assert (Hstem : stem_of_name filename +:+ ".json" ≠ filename).
  { intros E. rewrite <- E, endswith_app in Hjson. discriminate Hjson. }
  assert (Hne : sidecar ≠ target).
  { intros E%app_inv_head. by injection E. }
  assert (Hsource : file_path ≠ sidecar).
  { intros E. apply Hstem. fold filename. unfold filename at 2. rewrite E.
    unfold sidecar, target_dir. by rewrite name_snoc. }
  unfold archive_file, try_except, bind, now, require, ret. rewrite Hmethod.
  cbv beta iota. rewrite String.eqb_refl.
  unfold archive_local, bind, attribute, ret. rewrite Hdir. cbv beta iota.
  cbn [file_type original_filename archived_timestamp archived_by].
  rewrite (div_component dir _ (kind_key_component kind)).
  fold target_dir. fold filename.
  rewrite (div_component target_dir filename Hname). fold target.
  unfold fs_exists.
  rewrite bool_decide_eq_false_2 by (rewrite Hfree; by intros [? [=]]).
  cbv beta iota. unfold copy2. rewrite Hsrc. cbv beta iota.
  assert (Hws : with_suffix target ".json" = Some sidecar).
  { apply with_suffix_snoc. by destruct Hname as (_ & ? & _). }
  rewrite Hws. unfold write_json, logger. cbv beta iota.
  eexists. split; [reflexivity|]. cbn [fs set_fs drive sheets].
  split; [by rewrite lookup_insert_ne, lookup_insert_eq|].
  split; [by rewrite lookup_insert_eq|].
  split.
  { rewrite lookup_insert_ne by done.
    destruct (decide (file_path = target)) as [E|Hnt].
    - by rewrite E, lookup_insert_eq.
    - by rewrite lookup_insert_ne. }
  split; [|done].
  intros p Hp1 Hp2. by rewrite !lookup_insert_ne.
Qed.

End LocalArchiveFresh.

Lemma archive_file_local_fresh_witness :
  exists w',
    EmailProcessor.archive_file (Ingest.env_of Ingest.to_without_duration)
      Ingest.local_processor Ingest.download "to" Ingest.download_world
    = (Ok (Some "/archive/to/report.xlsx"), w')
    /\ EmailProcessor.fs w' !! Ingest.archived_report
       = Some (EmailProcessor.Bytes "second export")
    /\ EmailProcessor.fs w' !! Ingest.download
       = Some (EmailProcessor.Bytes "second export").
Proof.
  destruct (archive_file_local_fresh
              (Ingest.env_of Ingest.to_without_duration)
              Ingest.local_processor Ingest.download "to"
              Ingest.download_world ["/"; "archive"]
              (EmailProcessor.Bytes "second export") eq_refl eq_refl)
    as (w' & Hrun & Hcopy & _ & Hsource & _).
  - split; [by apply (bool_decide_unpack _)|split; discriminate].
  - reflexivity.
  - reflexivity.
  - reflexivity.
  - exists w'. split; [exact Hrun|]. split; [exact Hcopy|exact Hsource].
Defined.

(** ** The date in a file name *)

Section FilenameDate.
Import EmailProcessor WorkdayFiles.

(** The date written with eight digits, as in the names of the exports. *)
Definition compact_date (t : DateTime) : string :=
  padded 4 (year t) +:+ padded 2 (month t) +:+ padded 2 (day t).

Definition digit_chars : list ascii :=
  ["0"; "1"; "2"; "3"; "4"; "5"; "6"; "7"; "8"; "9"]%char.

Lemma is_digit_In c : is_digit c = true -> In c digit_chars.
Proof.
  destruct c as [[] [] [] [] [] [] [] []]; intros H; try discriminate H;
    vm_compute; tauto.
Qed.

Definition renders (width : nat) (ds : list ascii) : bool :=
  String.eqb (padded width (number ds)) (Str.of_chars ds).

Lemma renders_two_all :
  forallb (fun a => forallb (fun b => renders 2 [a; b]) digit_chars)
    digit_chars = true.
Proof. vm_compute. reflexivity. Qed.

Lemma renders_four_all :
  forallb (fun a => forallb (fun b => forallb (fun c => forallb (fun d =>
    renders 4 [a; b; c; d]) digit_chars) digit_chars) digit_chars)
    digit_chars = true.
Proof. vm_compute. reflexivity. Qed.

Lemma renders_two a b :
  is_digit a = true -> is_digit b = true ->
  padded 2 (number [a; b]) = Str.of_chars [a; b].
Proof.
  intros Ha%is_digit_In Hb%is_digit_In.
  pose proof renders_two_all as H. rewrite forallb_forall in H.
  specialize (H a Ha). rewrite forallb_forall in H. specialize (H b Hb).
  by apply String.eqb_eq.
Qed.

Lemma renders_four a b c d :
  is_digit a = true -> is_digit b = true -> is_digit c = true ->
  is_digit d = true ->
  padded 4 (number [a; b; c; d]) = Str.of_chars [a; b; c; d].
Proof.
  intros Ha%is_digit_In Hb%is_digit_In Hc%is_digit_In Hd%is_digit_In.
  pose proof renders_four_all as H. rewrite forallb_forall in H.
  specialize (H a Ha). rewrite forallb_forall in H. specialize (H b Hb).
  rewrite forallb_forall in H. specialize (H c Hc).
  rewrite forallb_forall in H. specialize (H d Hd).
  by apply String.eqb_eq.
Qed.

Lemma search_digits_found n l window :
  search_digits n l = Some window ->
  length window = n /\ forallb is_digit window = true
  /\ exists pre post, l = pre ++ window ++ post.
Proof.
  induction l as [|c l IH]; [done|]. cbn [search_digits].
  destruct (_ && _) eqn:E.
  - intros [= <-]. apply andb_prop in E as [Hlen Hdig].
    apply Nat.eqb_eq in Hlen. split; [done|]. split; [done|].
    exists [], (drop n (c :: l)). by rewrite app_nil_l, take_drop.
  - intros H. destruct (IH H) as (Hlen & Hdig & pre & post & ->).
    split; [done|]. split; [done|]. by exists (c :: pre), post.
Qed.

(** A date that the function returns is a date of the calendar, at
    midnight, and its eight digits stand in the file name. *)
Theorem extract_date_from_filename_sound filename t :
  extract_date_from_filename filename = Some t ->
  valid_date (year t) (month t) (day t) = true
  /\ (hour t, minute t, second t) = (0, 0, 0)
  /\ exists pre post, filename = pre +:+ compact_date t +:+ post.
Proof.
  unfold extract_date_from_filename.
  destruct (search_digits 8 (Str.chars filename)) as [window|] eqn:Hs; [|done].
  apply search_digits_found in Hs as (Hlen & Hdig & pre & post & Hname).
  unfold strptime_ymd. destruct (valid_date _ _ _) eqn:Hv; [|done].
  intros [= <-]. cbn [year month day hour minute second].
  split; [exact Hv|]. split; [done|].
  destruct window as [|a [|b [|c [|d [|e [|f [|g [|h [|]]]]]]]]];
    try discriminate Hlen.
  cbn in Hdig. repeat (apply andb_prop in Hdig as [? Hdig]).
  exists (Str.of_chars pre), (Str.of_chars post).
  unfold compact_date. cbn [year month day take drop].
  rewrite renders_four, !renders_two by done.
  apply chars_inj. rewrite !chars_app, !chars_of_chars. rewrite Hname.
  by rewrite <- !app_assoc.
Qed.

Definition writes (width : nat) (n : nat) : bool :=
  let l := Str.chars (padded width n) in
  ((length l =? width) && forallb is_digit l && (number l =? n))%nat.

Lemma writes_two_all : forallb (writes 2) (seq 0 100) = true.
Proof. vm_compute. reflexivity. Qed.

Lemma writes_four_all : forallb (writes 4) (seq 0 (100 * 100)) = true.
Proof. vm_compute. reflexivity. Qed.

Lemma writes_two n :
  n < 100 ->
  length (Str.chars (padded 2 n)) = 2
  /\ forallb is_digit (Str.chars (padded 2 n)) = true
  /\ number (Str.chars (padded 2 n)) = n.
Proof.
  intros Hn. pose proof writes_two_all as H. rewrite forallb_forall in H.
  assert (Hin : In n (seq 0 100)) by (apply in_seq; lia).
  apply H in Hin. unfold writes in Hin.
  apply andb_prop in Hin as [Hin H3]. apply andb_prop in Hin as [H1 H2].
  apply Nat.eqb_eq in H1. apply Nat.eqb_eq in H3. done.
Qed.

Lemma writes_four n :
  n < 100 * 100 ->
  length (Str.chars (padded 4 n)) = 4
  /\ forallb is_digit (Str.chars (padded 4 n)) = true
  /\ number (Str.chars (padded 4 n)) = n.
Proof.
  intros Hn. pose proof writes_four_all as H. rewrite forallb_forall in H.
  assert (Hin : In n (seq 0 (100 * 100))) by (apply in_seq; lia).
  apply H in Hin. unfold writes in Hin.
  apply andb_prop in Hin as [Hin H3]. apply andb_prop in Hin as [H1 H2].
  apply Nat.eqb_eq in H1. apply Nat.eqb_eq in H3. done.
Qed.

(** The search goes past what is not a digit and stops at the first
    [n] digits. *)
Lemma search_digits_first n pre window post :
  n ≠ 0 ->
  Forall (fun c => is_digit c = false) pre ->
  length window = n -> forallb is_digit window = true ->
  search_digits n (pre ++ window ++ post) = Some window.
Proof.
  intros Hn Hpre Hlen Hdig. induction Hpre as [|c pre Hc _ IH].
  - cbn [app]. destruct window as [|a window]; [by subst n|].
    cbn [app search_digits]. change (a :: window ++ post)
      with ((a :: window) ++ post).
    rewrite take_app_length' by done. by rewrite Hlen, Nat.eqb_refl, Hdig.
  - cbn [app search_digits]. destruct n as [|n]; [done|].
    cbn [take forallb]. by rewrite Hc, andb_false_r.
Qed.

(** Only the first eight digits in a row are looked at, whatever
    follows them. *)
Lemma extract_date_first_run pre window post :
  Forall (fun c => is_digit c = false) (Str.chars pre) ->
  length (Str.chars window) = 8 ->
  forallb is_digit (Str.chars window) = true ->
  extract_date_from_filename (pre +:+ window +:+ post)
  = strptime_ymd (Str.chars window).
Proof.
  intros Hpre Hlen Hdig. unfold extract_date_from_filename.
  rewrite !chars_app. by rewrite search_digits_first.
Qed.

(** A file name that carries the eight digits of a date after characters
    that are not digits gives that date back. *)
Theorem extract_date_from_filename_round_trip t pre post :
  valid_date (year t) (month t) (day t) = true ->
  (hour t, minute t, second t) = (0, 0, 0) ->
  Forall (fun c => is_digit c = false) (Str.chars pre) ->
  extract_date_from_filename (pre +:+ compact_date t +:+ post) = Some t.
Proof.
  intros Hv Htime Hpre. destruct t as [y m d hh mm ss].
  cbn [year month day hour minute second] in *. injection Htime as -> -> ->.
  pose proof Hv as Hv'. unfold valid_date in Hv'.
  repeat (apply andb_prop in Hv' as [Hv' ?]).
  repeat match goal with
         | H : (_ <=? _)%nat = true |- _ => apply Nat.leb_le in H
         end.
  assert (Hd : d <= 31).
  { etrans; [eassumption|]. unfold days_in_month.
    do 13 (destruct m as [|m]; [try destruct (is_leap y); lia|]). lia. }
  destruct (writes_four y) as (L4 & D4 & N4); [lia|].
  destruct (writes_two m) as (L2 & D2 & N2); [lia|].
  destruct (writes_two d) as (L2' & D2' & N2'); [lia|].
  assert (Hchars : Str.chars (compact_date (mkDateTime y m d 0 0 0))
                   = Str.chars (padded 4 y)
                     ++ Str.chars (padded 2 m) ++ Str.chars (padded 2 d)).
  { unfold compact_date. by rewrite !chars_app. }
  rewrite extract_date_first_run; [|done| |].
  - unfold strptime_ymd. rewrite Hchars.
    rewrite take_app_length' by done. rewrite drop_app_length' by done.
    rewrite take_app_length' by done.
    rewrite app_assoc, drop_app_length' by (rewrite length_app; lia).
    by rewrite N4, N2, N2', Hv.
  - rewrite Hchars, !length_app. lia.
  - by rewrite Hchars, !forallb_app, D4, D2, D2'.
Qed.

End FilenameDate.

Lemma extract_date_from_filename_sound_witness :
  EmailProcessor.year (EmailProcessor.mkDateTime 2025 3 12 0 0 0) = 2025
  /\ exists pre post,
       "SILL_CXO  Leave of Absence 20250312 07_00 PDT.xlsx"
       = pre +:+ "20250312" +:+ post.
Proof.
  destruct (extract_date_from_filename_sound
              "SILL_CXO  Leave of Absence 20250312 07_00 PDT.xlsx"
              (EmailProcessor.mkDateTime 2025 3 12 0 0 0))
    as (_ & _ & pre & post & Hname).
  - vm_compute. reflexivity.
  - split; [reflexivity|]. exists pre, post. exact Hname.
Defined.

Lemma extract_date_from_filename_round_trip_witness :
  WorkdayFiles.extract_date_from_filename
    ("SILL_CXO  Time Off " +:+ "20240229" +:+ " 07_02 PDT.xlsx")
  = Some (EmailProcessor.mkDateTime 2024 2 29 0 0 0).
Proof.
  apply (extract_date_from_filename_round_trip
           (EmailProcessor.mkDateTime 2024 2 29 0 0 0)
           "SILL_CXO  Time Off " " 07_02 PDT.xlsx").
  - vm_compute. reflexivity.
  - reflexivity.
  - apply Forall_forall. intros c Hc. apply list_elem_of_In in Hc.
    vm_compute in Hc. intuition (subst; reflexivity).
Defined.

(** A day that the month does not have is no date; neither are eight
    digits that come after eight others. *)
Example extract_date_from_filename_rejects :
  WorkdayFiles.extract_date_from_filename "Time Off 20250230.xlsx" = None
  /\ WorkdayFiles.extract_date_from_filename "00000000 20250312.xlsx" = None.
Proof. split; vm_compute; reflexivity. Qed.

(** ** The sections of the macro's output *)

Section ResultSections.
Import SaveResults.

(** The sections of an output, as [save_results] collects them. *)
Definition sections (lines : list string) : list string * list string :=
  parse_lines lines [] [] false false.

Definition marked (line : string) : Prop :=
  Str.contains start_marker line = true
  \/ Str.contains data_marker line = true
  \/ Str.contains end_marker line = true.

(** A line that ends the results: it holds the end marker and none of the
    two markers that are looked for before it. *)
Definition closing (line : string) : Prop :=
  Str.contains start_marker line = false
  /\ Str.contains data_marker line = false
  /\ Str.contains end_marker line = true.

Lemma parse_lines_not_started lines schema data in_data :
  Forall (fun line => Str.contains start_marker line = false) lines ->
  parse_lines lines schema data false in_data = (schema, data).
Proof.
  intros Hno. revert in_data.
  induction Hno as [|line lines Hline _ IH]; intros in_data; [done|].
  cbn [parse_lines]. rewrite Hline.
  destruct (Str.contains data_marker line); [apply IH|].
  destruct (Str.contains end_marker line); [done|apply IH].
Qed.

Lemma parse_lines_closed pre stop post schema data in_results in_data :
  closing stop ->
  parse_lines (pre ++ stop :: post) schema data in_results in_data
  = parse_lines pre schema data in_results in_data.
Proof.
  intros (Hs & Hd & He). revert schema data in_results in_data.
  induction pre as [|line pre IH]; intros schema data in_results in_data.
  - cbn [app parse_lines]. by rewrite Hs, Hd, He.
  - cbn [app parse_lines].
    repeat match goal with
           | |- context [if ?b then _ else _] => destruct b
           end; try apply IH; done.
Qed.

(** Only what stands after the first start marker and before the first
    closing line counts: without a start marker nothing is collected, and
    whatever follows a closing line changes nothing. *)
Theorem sections_window :
  (forall lines,
     Forall (fun line => Str.contains start_marker line = false) lines ->
     sections lines = ([], []))
  /\ (forall pre stop post,
        closing stop -> sections (pre ++ stop :: post) = sections pre).
Proof.
  split.
  - intros lines Hno. by apply parse_lines_not_started.
  - intros pre stop post Hstop. by apply parse_lines_closed.
Qed.

Lemma parse_lines_collects lines schema data in_results in_data :
  exists schema' data',
    parse_lines lines schema data in_results in_data
    = (schema ++ schema', data ++ data')
    /\ schema' `sublist_of` lines /\ data' `sublist_of` lines
    /\ Forall (fun line => Str.contains ":" line = true /\ ~ marked line)
         schema'
    /\ Forall (fun line => Str.contains "|" line = true /\ ~ marked line)
         data'.
Proof.
  revert schema data in_results in_data.
  induction lines as [|line lines IH]; intros schema data in_results in_data.
  - exists [], []. cbn. by rewrite !app_nil_r.
  - cbn [parse_lines].
    destruct (Str.contains start_marker line) eqn:Hs.
    { destruct (IH schema data true in_data)
        as (s' & d' & -> & Hs' & Hd' & Hfs & Hfd).
      exists s', d'. split; [done|]. split; [by apply sublist_cons|].
      split; [by apply sublist_cons|done]. }
    destruct (Str.contains data_marker line) eqn:Hd.
    { destruct (IH schema data in_results true)
        as (s' & d' & -> & Hs' & Hd' & Hfs & Hfd).
      exists s', d'. split; [done|]. split; [by apply sublist_cons|].
      split; [by apply sublist_cons|done]. }
    destruct (Str.contains end_marker line) eqn:He.
    { exists [], []. rewrite !app_nil_r. split; [done|].
      split; [apply sublist_nil_l|]. split; [apply sublist_nil_l|done]. }
    assert (Hclean : ~ marked line).
    { intros [H|[H|H]]; congruence. }
    assert (Hskip : forall r i,
      exists schema' data',
        parse_lines lines schema data r i = (schema ++ schema', data ++ data')
        /\ schema' `sublist_of` line :: lines
        /\ data' `sublist_of` line :: lines
        /\ Forall (fun l => Str.contains ":" l = true /\ ~ marked l) schema'
        /\ Forall (fun l => Str.contains "|" l = true /\ ~ marked l) data').
    { intros r i. destruct (IH schema data r i)
        as (s' & d' & -> & Hs' & Hd' & Hfs & Hfd).
      exists s', d'. split; [done|]. split; [by apply sublist_cons|].
      split; [by apply sublist_cons|done]. }
    destruct in_results; [|apply Hskip].
    destruct (in_data && Str.contains "|" line) eqn:Hdata.
    { apply andb_prop in Hdata as [_ Hbar].
      destruct (IH schema (data ++ [line]) true in_data)
        as (s' & d' & -> & Hs' & Hd' & Hfs & Hfd).
      exists s', (line :: d'). split; [by rewrite <- app_assoc|].
      split; [by apply sublist_cons|]. split; [by apply sublist_skip|].
      split; [done|]. by constructor. }
    destruct (negb in_data && Str.contains ":" line) eqn:Hschema.
    { apply andb_prop in Hschema as [_ Hcolon].
      destruct (IH (schema ++ [line]) data true in_data)
        as (s' & d' & -> & Hs' & Hd' & Hfs & Hfd).
      exists (line :: s'), d'. split; [by rewrite <- app_assoc|].
      split; [by apply sublist_skip|]. split; [by apply sublist_cons|].
      split; [by constructor|done]. }
    apply Hskip.
Qed.

(** The two sections hold lines of the output, in the order of the
    output; no line with a marker is among them; every line of the schema
    section has a colon and every line of the data section a bar. *)
Theorem sections_collect lines :
  (sections lines).1 `sublist_of` lines
  /\ (sections lines).2 `sublist_of` lines
  /\ Forall (fun line => Str.contains ":" line = true /\ ~ marked line)
       (sections lines).1
  /\ Forall (fun line => Str.contains "|" line = true /\ ~ marked line)
       (sections lines).2.
Proof.
  unfold sections.
  destruct (parse_lines_collects lines [] [] false false)
    as (s' & d' & -> & H). exact H.
Qed.

End ResultSections.

(** ** The table handed to the CSV writer *)

Section ResultTable.
Import SaveResults.

Lemma drop_while_idem {A} (p : A -> bool) l :
  Str.drop_while p (Str.drop_while p l) = Str.drop_while p l.
Proof.
  induction l as [|x l IH]; [done|]. cbn. destruct (p x) eqn:E; [done|].
  cbn. by rewrite E.
Qed.

Lemma drop_while_snoc {A} (p : A -> bool) l x :
  p x = false -> Str.drop_while p (l ++ [x]) = Str.drop_while p l ++ [x].
Proof.
  intros Hx. induction l as [|y l IH]; cbn.
  - by rewrite Hx.
  - by destruct (p y).
Qed.

Lemma drop_while_head {A} (p : A -> bool) l x rest :
  Str.drop_while p l = x :: rest -> p x = false.
Proof.
  induction l as [|y l IH]; [done|]. cbn. destruct (p y) eqn:E; [done|].
  by intros [= <- _].
Qed.

Lemma drop_while_suffix {A} (p : A -> bool) l :
  Str.drop_while p l `suffix_of` l.
Proof.
  induction l as [|x l IH]; [done|]. cbn. destruct (p x); [|done].
  by apply suffix_cons_r.
Qed.

(** The characters that [strip] keeps, with no white space at either
    end. *)
Definition stripped (l : list ascii) : list ascii :=
  rev (Str.drop_while is_space (rev (Str.drop_while is_space l))).

Lemma stripped_twice l : stripped (stripped l) = stripped l.
Proof.
  unfold stripped.
  destruct (Str.drop_while is_space l) as [|x a] eqn:Ha; [done|].
  pose proof (drop_while_head _ _ _ _ Ha) as Hx.
  cbn [rev]. rewrite (drop_while_snoc _ _ _ Hx).
  rewrite rev_app_distr. cbn [rev app Str.drop_while]. rewrite Hx.
  cbn [rev]. rewrite rev_involutive.
  rewrite (drop_while_snoc _ _ _ Hx), drop_while_idem.
  by rewrite rev_app_distr.
Qed.

Lemma strip_twice s : strip (strip s) = strip s.
Proof.
  unfold strip. fold (stripped (Str.chars s)).
  rewrite chars_of_chars. fold (stripped (stripped (Str.chars s))).
  by rewrite stripped_twice.
Qed.

Lemma stripped_elem c l : c ∈ stripped l -> c ∈ l.
Proof.
  unfold stripped. rewrite list_elem_of_In, <- in_rev, <- list_elem_of_In.
  intros Hin.
  pose proof (drop_while_suffix is_space (rev (Str.drop_while is_space l)))
    as [k1 Hk1].
  assert (H1 : c ∈ rev (Str.drop_while is_space l)).
  { rewrite Hk1. apply elem_of_app. by right. }
  rewrite list_elem_of_In, <- in_rev, <- list_elem_of_In in H1.
  destruct (drop_while_suffix is_space l) as [k2 Hk2].
  rewrite Hk2. apply elem_of_app. by right.
Qed.

Lemma split_on_pieces sep l piece :
  piece ∈ Str.split_on sep l -> sep ∉ piece.
Proof.
  revert piece. induction l as [|x l IH]; intros piece; cbn.
  - intros ->%list_elem_of_singleton. apply not_elem_of_nil.
  - destruct (Ascii.eqb_spec x sep) as [->|Hne].
    + intros [->|Hin]%elem_of_cons; [apply not_elem_of_nil|by apply IH].
    + destruct (Str.split_on sep l) as [|cur more] eqn:E.
      * intros ->%list_elem_of_singleton.
        intros [->|Hin]%elem_of_cons; [done|]. by apply elem_of_nil in Hin.
      * intros [->|Hin]%elem_of_cons.
        -- intros [->|Hin]%elem_of_cons; [done|].
           apply (IH cur); [left|done].
        -- apply IH. by right.
Qed.

(** A cell of the table: not empty, without bar, and such that [strip]
    leaves it as it is. *)
Definition clean_cell (cell : string) : Prop :=
  cell ≠ "" /\ ("|"%char ∉ Str.chars cell) /\ strip cell = cell.

(** No row of the table is empty and every cell is clean: a column that
    is blank between two bars leaves no cell behind. *)
Theorem table_of_clean data_comparison :
  Forall (fun row => row ≠ [] /\ Forall clean_cell row)
    (table_of data_comparison).
Proof.
  unfold table_of. apply Forall_forall. intros row Hrow.
  apply list_elem_of_filter in Hrow as [Hne Hrow]. split; [done|].
  apply list_elem_of_fmap in Hrow as (line & -> & _).
  unfold table_row. apply Forall_forall. intros cell Hcell.
  apply list_elem_of_filter in Hcell as [Hcne Hcell].
  apply list_elem_of_fmap in Hcell as (piece & -> & Hpiece).
  split; [done|]. split; [|apply strip_twice].
  unfold Str.split in Hpiece.
  apply list_elem_of_fmap in Hpiece as (chars & -> & Hchars).
  apply split_on_pieces in Hchars.
  unfold strip. rewrite !chars_of_chars. fold (stripped chars).
  intros Hin. by apply Hchars, stripped_elem.
Qed.

(** A row with a blank cell is shorter than its header row. *)
Example table_row_blank_cell :
  table_of ["| main_rows | columns_removed | columns_added |";
            "|       100 |                 | extra         |"]
  = [["main_rows"; "columns_removed"; "columns_added"]; ["100"; "extra"]].
Proof. vm_compute. reflexivity. Qed.

End ResultTable.

(** ** What [save_results] leaves behind *)

Section ResultFiles.
Import SaveResults.
Context (env : Env).

(** [output_dir / f'{model_name}_comparison_{timestamp}'] at the time of
    the call. *)
Definition result_dir_of (output_dir : Path) (model_name : string)
    (w : World) : Path :=
  div output_dir
    (model_name +:+ "_comparison_"
     +:+ EmailProcessor.strftime_compact (datetime_now env w)).

Definition report_file : string := "model_comparison.txt".
Definition csv_file : string := "model_comparison.csv".
Definition raw_file : string := "raw_output.txt".

Lemma file_component_report : is_component report_file.
Proof. split; [by apply (bool_decide_unpack _)|split; discriminate]. Qed.

Lemma file_component_csv : is_component csv_file.
Proof. split; [by apply (bool_decide_unpack _)|split; discriminate]. Qed.

Lemma file_component_raw : is_component raw_file.
Proof. split; [by apply (bool_decide_unpack _)|split; discriminate]. Qed.

(** When the directory can be made and the files written, the function
    returns the directory; the raw output is stored as it was received,
    the report holds the two sections, and the table is stored when it
    has a header row and at least one more row. No other file changes. *)
Theorem save_results_files results_json output_dir model_name w :
  (forall w0 p, mkdir env w0 p = Done tt) ->
  (forall w0 p a, open_write env w0 p a = Wrote) ->
  let result_dir := result_dir_of output_dir model_name w in
  let parsed := sections (splitlines results_json) in
  let table := table_of parsed.2 in
  exists w',
    save_results env results_json output_dir model_name w
    = (Ok (Some result_dir), w')
    /\ files w' !! (result_dir ++ [raw_file]) = Some (TextFile results_json)
    /\ files w' !! (result_dir ++ [report_file])
       = Some (TextFile (text_report parsed.1 parsed.2))
    /\ files w' !! (result_dir ++ [csv_file])
       = (if (2 <=? length table)%nat then Some (CsvFile table)
          else files w !! (result_dir ++ [csv_file]))
    /\ (forall p,
          p ∉ [result_dir ++ [raw_file]; result_dir ++ [report_file];
               result_dir ++ [csv_file]] ->
          files w' !! p = files w !! p).
Proof.
  intros Hmkdir Hwrite result_dir parsed table.
  unfold save_results, bind, now, make_directory. cbn [fst snd].
  rewrite Hmkdir. cbn [service_result]. fold (result_dir_of output_dir model_name w).
  fold result_dir. unfold try_except.
  fold (sections (splitlines results_json)). fold parsed.
  destruct parsed as [schema data] eqn:Hparsed. cbn [fst snd] in *.
  rewrite (div_component result_dir "model_comparison.txt"
             file_component_report).
  rewrite (div_component result_dir "raw_output.txt" file_component_raw).
  unfold report_file, csv_file, raw_file in *.
  unfold write at 1. rewrite Hwrite.
  assert (Hcsv : forall w1,
    exists w2,
      save_csv env result_dir data w1 = (Ok tt, w2)
      /\ files w2
         = (if (2 <=? length table)%nat
            then <[result_dir ++ [csv_file] := CsvFile table]> (files w1)
            else files w1)).
  { intros w1. unfold save_csv. fold table.
    destruct data as [|line data].
    - cbn. eexists. split; [reflexivity|]. reflexivity.
    - destruct (2 <=? length table)%nat.
      + rewrite (div_component result_dir "model_comparison.csv"
                   file_component_csv).
        unfold bind, write. rewrite Hwrite. cbn.
        eexists. split; reflexivity.
      + eexists. split; reflexivity. }
  match goal with
  | |- context [save_csv env result_dir data ?w1] =>
      destruct (Hcsv w1) as (w2 & -> & Hfiles2)
  end.
  unfold print at 1. unfold write at 1. rewrite Hwrite. cbn [ret].
  eexists. split; [reflexivity|]. cbn [files]. rewrite Hfiles2. cbn [files].
  assert (Hne1 : result_dir ++ [raw_file] ≠ result_dir ++ [report_file]).
  { intros E%app_inv_head. discriminate E. }
  assert (Hne2 : result_dir ++ [raw_file] ≠ result_dir ++ [csv_file]).
  { intros E%app_inv_head. discriminate E. }
  assert (Hne3 : result_dir ++ [report_file] ≠ result_dir ++ [csv_file]).
  { intros E%app_inv_head. discriminate E. }
  split; [by rewrite lookup_insert_eq|].
  destruct (2 <=? length table)%nat.
  - split; [by rewrite !lookup_insert_ne, lookup_insert_eq by done|].
    split; [by rewrite lookup_insert_ne, lookup_insert_eq by done|].
    intros p Hp. rewrite !lookup_insert_ne; [done|..];
      intros <-; apply Hp; rewrite !elem_of_cons; tauto.
  - split; [by rewrite lookup_insert_ne, lookup_insert_eq by done|].
    split; [by rewrite !lookup_insert_ne by done|].
    intros p Hp. rewrite !lookup_insert_ne; [done|..];
      intros <-; apply Hp; rewrite !elem_of_cons; tauto.
Qed.

Definition raw_printed (results_json : string) (w : World) : Prop :=
  exists before msg,
    stdout w
    = before ++ ["Error saving results: " +:+ msg; nl +:+ "Raw output:";
                 results_json].

(** The function raises only when the result directory cannot be made,
    and then it has printed and written nothing. Once the directory is
    there it always returns; when a file cannot be written it returns
    [None] and the raw output is the last thing printed. *)
Theorem save_results_returns results_json output_dir model_name w :
  match mkdir env w (result_dir_of output_dir model_name w) with
  | Failed msg =>
      save_results env results_json output_dir model_name w
      = (Raise (OSError msg), w)
  | Done _ =>
      exists r w',
        save_results env results_json output_dir model_name w = (Ok r, w')
        /\ (r = None -> raw_printed results_json w')
        /\ (forall dir, r = Some dir ->
              dir = result_dir_of output_dir model_name w
              /\ files w' !! (dir ++ [raw_file]) = Some (TextFile results_json))
  end.
Proof.
  set (result_dir := result_dir_of output_dir model_name w).
  destruct (mkdir env w result_dir) as [[]|msg] eqn:Hmk.
  2:{ unfold save_results, bind, now, make_directory. cbv beta iota.
      fold (result_dir_of output_dir model_name w). fold result_dir.
      by rewrite Hmk. }
  unfold save_results. unfold bind at 1, now. cbv beta iota.
  fold (result_dir_of output_dir model_name w). fold result_dir.
  unfold bind at 1, make_directory. rewrite Hmk. cbn [service_result].
  unfold try_except.
  destruct (parse_lines _ _ _ _ _) as [schema data].
  rewrite (div_component result_dir "raw_output.txt" file_component_raw).
  unfold raw_file.
  assert (Hhandler : forall e w1,
    is_Exception e = true ->
    exists r w',
      (if is_Exception e
       then bind (print ("Error saving results: " +:+ exn_str e))
              (fun _ => bind (print (nl +:+ "Raw output:"))
                 (fun _ => bind (print results_json) (fun _ => ret None)))
       else raise e) w1 = (Ok r, w')
      /\ (r = None -> raw_printed results_json w')
      /\ (forall dir, r = Some dir ->
            dir = result_dir
            /\ files w' !! (dir ++ [raw_file]) = Some (TextFile results_json))).
  { intros e w1 ->. eexists None, _. split; [reflexivity|]. split.
    - intros _. exists (stdout w1), (exn_str e). cbn.
      by rewrite <- !app_assoc.
    - intros dir [=]. }
  assert (Hwrite : forall p a w1,
    (exists w2, write env p a w1 = (Ok tt, w2)
                /\ files w2 = <[p := a]> (files w1))
    \/ (exists msg w2, write env p a w1 = (Raise (OSError msg), w2))).
  { intros p a w1. unfold write. destruct (open_write env w1 p a).
    - left. eexists. split; reflexivity.
    - right. by eexists _, _.
    - right. by eexists _, _. }
  unfold bind at 1.
  destruct (Hwrite (div result_dir "model_comparison.txt")
              (TextFile (text_report schema data)) w)
    as [(w1 & -> & _)|(msg & w1 & ->)]; [|cbv beta iota; by apply Hhandler].
  unfold bind at 1.
  assert (Hcsv : (exists w2, save_csv env result_dir data w1 = (Ok tt, w2))
                 \/ (exists msg w2,
                       save_csv env result_dir data w1
                       = (Raise (OSError msg), w2))).
  { unfold save_csv. destruct data as [|line data]; [left; by eexists|].
    destruct (2 <=? _)%nat; [|left; by eexists].
    cbv zeta. unfold bind.
    destruct (Hwrite (div result_dir "model_comparison.csv")
                (CsvFile (table_of (line :: data))) w1)
      as [(w2 & -> & _)|(msg & w2 & ->)].
    - left. eexists. reflexivity.
    - right. eexists _, _. reflexivity. }
  destruct Hcsv as [(w2 & ->)|(msg & w2 & ->)]; [|cbv beta iota; by apply Hhandler].
  unfold bind at 1. unfold print at 1. unfold bind at 1.
  match goal with
  | |- context [write env ?p ?a ?w3] =>
      destruct (Hwrite p a w3) as [(w4 & -> & Hfiles)|(msg & w4 & ->)]
  end; [|cbv beta iota; by apply Hhandler].
  eexists (Some result_dir), w4. split; [reflexivity|]. split; [done|].
  intros dir [= <-]. split; [done|]. rewrite Hfiles.
  by rewrite lookup_insert_eq.
Qed.

End ResultFiles.

(** ** The mailbox *)

Lemma bind_ok_inv {W A B} (m : M W A) (k : A -> M W B) w b w' :
  bind m k w = (Ok b, w') ->
  exists a w1, m w = (Ok a, w1) /\ k a w1 = (Ok b, w').
Proof.
  unfold bind. destruct (m w) as [[a|e] w1]; [|done]. intros H. by exists a, w1.
Qed.

Section Fetch.
Import EmailProcessor.
Import Pipeline.
Context (env : Env) (self : Self).

Definition on_disk (w : World) (p : Path) : Prop :=
  is_Some (EmailProcessor.fs (base w) !! p).

(** No file goes away. *)
Definition grows (w w' : World) : Prop :=
  forall p, on_disk w p -> on_disk w' p.

(** An entry for an Excel attachment of a known kind, saved under its own
    name. *)
Definition recognised (fi : FileInfo) : Prop :=
  fi_path fi = div (temp_dir self) (fi_filename fi)
  /\ is_excel (fi_filename fi) = true
  /\ file_type_of (fi_filename fi) = Some (fi_type fi).

Definition downloaded (w : World) (fi : FileInfo) : Prop :=
  recognised fi /\ on_disk w (fi_path fi).

(** A statement that loses no file, only raises what [except Exception]
    catches, and whose value satisfies [post] in the world it leaves. *)
Definition yields {A} (post : World -> A -> Prop) (m : M World A) : Prop :=
  forall w,
    grows w (m w).2
    /\ match (m w).1 with
       | Ok a => post (m w).2 a
       | Raise e => is_Exception e = true
       end.

Lemma grows_refl w : grows w w.
Proof. by intros p. Qed.

Lemma grows_trans w1 w2 w3 : grows w1 w2 -> grows w2 w3 -> grows w1 w3.
Proof. intros H1 H2 p Hp. by apply H2, H1. Qed.

Lemma downloaded_grows w w' fi : grows w w' -> downloaded w fi -> downloaded w' fi.
Proof. intros Hg [Hr Hd]. split; [done|by apply Hg]. Qed.

Lemma yields_tame {A} (m : M World A) :
  yields (fun _ _ => True) m <-> tame grows m.
Proof.
  split.
  - intros H w. destruct (H w) as [Hg Hr]. split; [done|].
    intros e He. by rewrite He in Hr.
  - intros H w. destruct (H w) as [Hg Hr]. split; [done|].
    destruct (m w).1; [done|by apply Hr].
Qed.

Lemma tame_logger lv msg : tame grows (logger lv msg).
Proof. intros w. split; [by intros p|]. intros e [=]. Qed.

Lemma tame_call {A} cls (f : World -> service A) :
  (forall msg, is_Exception (cls msg) = true) -> tame grows (call cls f).
Proof.
  intros Hcls w. unfold call. cbn. split; [apply grows_refl|].
  destruct (f w); cbn; [done|]. intros e [= <-]. apply Hcls.
Qed.

Lemma tame_require {A} key (v : option A) : tame grows (require key v).
Proof.
  destruct v; [apply tame_ret, grows_refl|].
  by apply tame_raise; [apply grows_refl|].
Qed.

Lemma tame_command message_id nm argument f :
  tame grows (command message_id nm argument f).
Proof.
  intros w. unfold command. destruct (f w); cbn.
  - split; [by intros p|]. intros e [=].
  - split; [apply grows_refl|]. by intros e [= <-].
Qed.

Lemma save_outcome p b w :
  (exists msg, save env p b w = (Raise (OSError msg), w))
  \/ exists w', save env p b w = (Ok tt, w') /\ grows w w' /\ on_disk w' p.
Proof.
  unfold save. destruct (open_attachment env w p) as [[]|msg].
  - right. eexists. split; [reflexivity|]. split.
    + intros q Hq. unfold on_disk in *. cbn.
      destruct (decide (p = q)) as [->|Hne].
      * by rewrite lookup_insert_eq.
      * by rewrite lookup_insert_ne.
    + unfold on_disk. cbn. by rewrite lookup_insert_eq.
  - left. by exists msg.
Qed.

Lemma tame_mark cfg message_id : tame grows (mark env cfg message_id).
Proof.
  unfold mark. apply tame_if; [|apply tame_ret, grows_refl].
  apply tame_bind; [apply grows_trans|apply tame_command|]. intros _.
  destruct (processed_folder cfg); [|apply tame_ret, grows_refl].
  apply tame_bind; [apply grows_trans|apply tame_command|]. intros _.
  apply tame_command.
Qed.

Lemma yields_intro {A} (post : World -> A -> Prop) (m : M World A) :
  (forall w, exists r w',
     m w = (r, w') /\ grows w w'
     /\ match r with
        | Ok a => post w' a
        | Raise e => is_Exception e = true
        end) ->
  yields post m.
Proof. intros H w. by destruct (H w) as (r & w' & -> & Hg & Hr). Qed.

Lemma yields_elim {A} (post : World -> A -> Prop) (m : M World A) w :
  yields post m ->
  exists r w',
    m w = (r, w') /\ grows w w'
    /\ match r with
       | Ok a => post w' a
       | Raise e => is_Exception e = true
       end.
Proof.
  intros H. destruct (H w) as [Hg Hr]. destruct (m w) as [r w'].
  by exists r, w'.
Qed.

Lemma yields_nothing : yields (fun w found => Forall (downloaded w) found) (ret []).
Proof. intros w. split; [apply grows_refl|]. cbn. constructor. Qed.

Lemma yields_attachment message_id subject part :
  yields (fun w found => Forall (downloaded w) found)
    (attachment env self message_id subject part).
Proof.
  unfold attachment.
  destruct (String.eqb (maintype part) "multipart"); [apply yields_nothing|].
  destruct (part_filename part) as [filename|]; [|apply yields_nothing].
  destruct (String.eqb filename ""); [apply yields_nothing|].
  destruct (is_excel filename) eqn:Hx; cbn [negb]; [|apply yields_nothing].
  destruct (file_type_of filename) as [file_type|] eqn:Ht.
  - apply yields_intro. intros w. cbv zeta. unfold bind at 1.
    destruct (save_outcome (div (temp_dir self) filename) (payload part) w)
      as [[msg ->]|(w' & -> & Hg & Hd)].
    + eexists _, _. split; [reflexivity|]. split; [apply grows_refl|done].
    + eexists _, _. split; [reflexivity|]. cbn.
      split; [intros p Hp; by apply Hg|].
      constructor; [|constructor]. split; [done|]. apply Hd.
  - apply yields_intro. intros w. eexists _, _. split; [reflexivity|].
    cbn. split; [by intros p|]. constructor.
Qed.

Lemma yields_collect {A} (xs : list A) (body : A -> M World (list FileInfo)) :
  (forall x, yields (fun w found => Forall (downloaded w) found) (body x)) ->
  yields (fun w found => Forall (downloaded w) found) (collect xs body).
Proof.
  intros Hbody. induction xs as [|x rest IH]; [apply yields_nothing|].
  apply yields_intro. intros w. cbn [collect]. unfold bind at 1.
  destruct (yields_elim _ _ w (Hbody x)) as ([found|e] & w1 & -> & Hg & Hr);
    [|by eexists _, _].
  unfold bind at 1.
  destruct (yields_elim _ _ w1 IH) as ([more|e] & w2 & -> & Hg' & Hr').
  - eexists _, _. split; [reflexivity|].
    split; [exact (grows_trans _ _ _ Hg Hg')|]. apply Forall_app. split; [|done].
    eapply Forall_impl; [exact Hr|]. intros fi. by apply downloaded_grows.
  - eexists _, _. split; [reflexivity|]. split; [exact (grows_trans _ _ _ Hg Hg')|done].
Qed.

Lemma yields_then {A B} (m : M World A) (k : A -> M World B) post :
  tame grows m -> (forall a, yields post (k a)) -> yields post (bind m k).
Proof.
  intros Hm Hk w. unfold bind. destruct (Hm w) as [Hg Hr].
  destruct (m w) as [[a|e] w1]; cbn in *.
  - destruct (Hk a w1) as [Hg' Hr']. split; [exact (grows_trans _ _ _ Hg Hg')|done].
  - split; [done|by apply Hr].
Qed.

(** Entries that are kept while a statement that loses no file runs. *)
Lemma yields_keep {A} (found : list FileInfo) (m : M World A) w :
  tame grows m ->
  Forall (downloaded w) found ->
  exists r w',
    (m ;;; ret found) w = (r, w') /\ grows w w'
    /\ match r with
       | Ok l => l = found /\ Forall (downloaded w') l
       | Raise e => is_Exception e = true
       end.
Proof.
  intros Hm Hf. unfold bind. destruct (Hm w) as [Hg Hr].
  destruct (m w) as [[a|e] w1]; cbn in *.
  - eexists _, _. split; [reflexivity|]. split; [done|]. split; [done|].
    eapply Forall_impl; [exact Hf|]. intros fi. by apply downloaded_grows.
  - eexists _, _. split; [reflexivity|]. split; [done|by apply Hr].
Qed.

Lemma yields_message cfg message_id :
  yields (fun w found => Forall (downloaded w) found)
    (message env self cfg message_id).
Proof.
  apply yields_intro. intros w. unfold message, bind at 1, call.
  destruct (imap_fetch env w message_id) as [[status parsed]|msg];
    cbn [service_result];
    [|eexists _, _; split; [reflexivity|]; split; [apply grows_refl|done]].
  destruct (String.eqb status "OK"); cbn [negb];
    [|eexists _, _; split; [reflexivity|]; cbn;
      split; [by intros p|constructor]].
  unfold bind at 1.
  destruct parsed as [[subject parts]|msg]; cbn [service_result];
    [|eexists _, _; split; [reflexivity|]; split; [apply grows_refl|done]].
  unfold bind at 1, logger at 1, within, EmailProcessor.logger.
  cbn [base mailbox]. set (w1 := mkWorld _ _).
  assert (Hw1 : grows w w1) by (by intros p).
  unfold bind at 1.
  destruct (yields_elim _ _ w1
              (yields_collect parts (attachment env self message_id subject)
                 (yields_attachment message_id subject)))
    as ([saved|e] & w2 & -> & Hg & Hr);
    [|eexists _, _; split; [reflexivity|];
      split; [exact (grows_trans _ _ _ Hw1 Hg)|done]].
  destruct (yields_keep saved (mark env cfg message_id) w2
              (tame_mark cfg message_id) Hr) as (r & w3 & -> & Hg' & Hr').
  eexists _, _. split; [reflexivity|].
  split; [exact (grows_trans _ _ _ (grows_trans _ _ _ Hw1 Hg) Hg')|].
  destruct r as [l|e]; [by destruct Hr'|done].
Qed.

(** The body of the [try] of lines 277-368, for a configuration with an
    [email] part. *)
Definition fetch_body (cfg : EmailConfig) : M World (list FileInfo) :=
  server <- require "imap_server" (imap_server cfg) ;;
  call OSError (fun w => imap_connect env w server) ;;;
  user <- require "username" (username cfg) ;;
  pass <- require "password" (password cfg) ;;
  call OSError (fun w => imap_login env w user pass) ;;;
  call OSError (fun w => imap_select env w "inbox") ;;;
  criteria <- require "search_criteria" (search_criteria cfg) ;;
  found <- call OSError (fun w => imap_search env w criteria) ;;
  let '(status, message_ids) := found in
  if negb (String.eqb status "OK") then
    logger ERROR ("Error searching for emails: " +:+ status) ;;;
    ret []
  else
    logger INFO ("Found " +:+ Str.of_nat (length message_ids)
                 +:+ " matching emails") ;;;
    downloaded_files <- collect message_ids (message env self cfg) ;;
    call OSError (fun w => imap_close env w) ;;;
    call OSError (fun w => imap_logout env w) ;;;
    logger INFO ("Downloaded " +:+ Str.of_nat (length downloaded_files)
                 +:+ " attachments") ;;;
    ret downloaded_files.

Definition fetch_handler (e : exn) : M World (list FileInfo) :=
  if is_Exception e
  then logger ERROR ("Error in email processing: " +:+ exn_str e) ;;; ret []
  else raise e.

Lemma fetch_email_attachments_unfold :
  fetch_email_attachments env self
  = (logger INFO "Starting email attachment fetch process" ;;;
     try_except (cfg <- require "email" (email self) ;; fetch_body cfg)
       fetch_handler).
Proof. reflexivity. Qed.

Lemma yields_fetch_body cfg :
  yields (fun w found => Forall (downloaded w) found) (fetch_body cfg).
Proof.
  unfold fetch_body.
  apply yields_then; [apply tame_require|]. intros server.
  apply yields_then; [by apply tame_call|]. intros _.
  apply yields_then; [apply tame_require|]. intros user.
  apply yields_then; [apply tame_require|]. intros pass.
  apply yields_then; [by apply tame_call|]. intros _.
  apply yields_then; [by apply tame_call|]. intros _.
  apply yields_then; [apply tame_require|]. intros criteria.
  apply yields_then; [by apply tame_call|]. intros [status message_ids].
  destruct (String.eqb status "OK"); cbn [negb].
  - apply yields_then; [apply tame_logger|]. intros _.
    apply yields_intro. intros w. unfold bind at 1.
    destruct (yields_elim _ _ w
                (yields_collect message_ids (message env self cfg)
                   (yields_message cfg)))
      as ([found|e] & w1 & -> & Hg & Hr); [|by eexists _, _].
    assert (Hrest : tame grows
              (call OSError (fun w => imap_close env w) ;;;
               call OSError (fun w => imap_logout env w) ;;;
               logger EmailProcessor.INFO
                 ("Downloaded " +:+ Str.of_nat (length found)
                  +:+ " attachments"))).
    { apply tame_bind; [apply grows_trans|by apply tame_call|]. intros _.
      apply tame_bind; [apply grows_trans|by apply tame_call|]. intros _.
      apply tame_logger. }
    destruct (yields_keep found _ w1 Hrest Hr) as (r & w2 & Hrun & Hg' & Hr').
    exists r, w2. split.
    + rewrite <- Hrun. unfold bind.
      destruct (call OSError (fun w => imap_close env w) w1) as [[[]|e] w3];
        [|done].
      by destruct (call OSError (fun w => imap_logout env w) w3)
        as [[[]|e] w4].
    + split; [exact (grows_trans _ _ _ Hg Hg')|]. destruct r; [by destruct Hr'|done].
  - apply yields_then; [apply tame_logger|]. intros _. apply yields_nothing.
Qed.

(** The world after the first line of the log. *)
Definition fetch_started (w : World) : World :=
  (logger INFO "Starting email attachment fetch process" w).2.

(** What the fetch makes of the outcome of its [try] body. *)
Lemma fetch_email_attachments_cases (w : World) :
  exists r w2,
    (cfg <- require "email" (email self) ;; fetch_body cfg) (fetch_started w)
    = (r, w2)
    /\ grows w w2
    /\ match r with
       | Ok found =>
           fetch_email_attachments env self w = (Ok found, w2)
           /\ Forall (downloaded w2) found
       | Raise e =>
           exists w3, fetch_email_attachments env self w = (Ok [], w3)
                      /\ grows w2 w3
       end.
Proof.
  assert (Hrun : fetch_email_attachments env self w
                 = try_except
                     (cfg <- require "email" (email self) ;; fetch_body cfg)
                     fetch_handler (fetch_started w)) by reflexivity.
  rewrite Hrun. clear Hrun.
  assert (Hw1 : grows w (fetch_started w)) by (by intros p).
  unfold try_except.
  assert (Hbody : yields (fun w found => Forall (downloaded w) found)
                    (cfg <- require "email" (email self) ;; fetch_body cfg)).
  { apply yields_then; [apply tame_require|]. apply yields_fetch_body. }
  destruct (yields_elim _ _ (fetch_started w) Hbody)
    as (r & w2 & -> & Hg & Hr).
  exists r, w2. split; [done|]. split; [exact (grows_trans _ _ _ Hw1 Hg)|].
  destruct r as [found|e]; [done|].
  unfold fetch_handler. cbv beta iota. rewrite Hr.
  eexists. split; [reflexivity|]. by intros p.
Qed.

(** The fetch never raises. Every entry it returns is an Excel attachment
    of a known kind whose file is on disk under the attachment's own name,
    and no file that was there has gone. *)
Theorem fetch_email_attachments_returns (w : World) :
  exists found w',
    fetch_email_attachments env self w = (Ok found, w')
    /\ Forall (downloaded w') found
    /\ grows w w'.
Proof.
  destruct (fetch_email_attachments_cases w)
    as ([found|e] & w2 & _ & Hg & Hr).
  - destruct Hr as [Hrun Hf]. by exists found, w2.
  - destruct Hr as (w3 & Hrun & Hg'). exists [], w3.
    split; [done|]. split; [constructor|]. exact (grows_trans _ _ _ Hg Hg').
Qed.

(** The connection is closed and left only after the last message. *)
Lemma fetch_body_closes cfg w found w' :
  fetch_body cfg w = (Ok found, w') ->
  found = []
  \/ exists w1 w2, imap_close env w1 = Done tt /\ imap_logout env w2 = Done tt.
Proof.
  intros H. unfold fetch_body in H.
  repeat (apply bind_ok_inv in H as (? & ? & _ & H)).
  match type of H with
  | (let '(_, _) := ?x in _) _ = _ => destruct x as [status message_ids]
  end.
  destruct (String.eqb status "OK"); cbn [negb] in H.
  - apply bind_ok_inv in H as (? & ? & _ & H).
    apply bind_ok_inv in H as (l & w2 & _ & H).
    apply bind_ok_inv in H as ([] & w3 & Hclose & H).
    apply bind_ok_inv in H as ([] & w4 & Hlogout & H).
    right. exists w2, w3. unfold call in *.
    destruct (imap_close env w2) as [[]|]; [|done].
    by destruct (imap_logout env w3) as [[]|].
  - apply bind_ok_inv in H as (? & ? & _ & H). left. by injection H as <-.
Qed.

(** When the server refuses to close the mailbox or to log out, the fetch
    returns no entry, whatever it has saved. *)
Theorem fetch_email_attachments_close_failure (w : World) :
  (forall w', exists msg, imap_close env w' = Failed msg)
  \/ (forall w', exists msg, imap_logout env w' = Failed msg) ->
  (fetch_email_attachments env self w).1 = Ok [].
Proof.
  intros Hfail.
  destruct (fetch_email_attachments_cases w)
    as ([found|e] & w2 & Hbody & _ & Hr).
  - destruct Hr as [-> _]. cbn. f_equal.
    apply bind_ok_inv in Hbody as (cfg & w1 & _ & Hbody).
    destruct (fetch_body_closes _ _ _ _ Hbody)
      as [->|(wc & wl & Hc & Hl)]; [done|].
    destruct Hfail as [Hf|Hf].
    + destruct (Hf wc) as [msg Hm]. congruence.
    + destruct (Hf wl) as [msg Hm]. congruence.
  - by destruct Hr as (w3 & -> & _).
Qed.

(** An entry of the fetch is of one of the two kinds. *)
Lemma recognised_kind fi :
  recognised fi -> fi_type fi = "loa" \/ fi_type fi = "to".
Proof.
  intros (_ & _ & Ht). unfold file_type_of in Ht.
  destruct (search_words _ _); [left; congruence|].
  destruct (search_words _ _); [right; congruence|done].
Qed.

End Fetch.

(** ** The main process *)

(** Any world after any world. *)
Definition any_world {W} (w w' : W) : Prop := True.

Abbreviation catchable := (tame any_world).

Lemma any_world_refl {W} (w : W) : any_world w w.
Proof. done. Qed.

Lemma any_world_trans {W} (w1 w2 w3 : W) :
  any_world w1 w2 -> any_world w2 w3 -> any_world w1 w3.
Proof. done. Qed.

Lemma catchable_of {W A} (kept : W -> W -> Prop) (m : M W A) :
  tame kept m -> catchable m.
Proof. intros H w. by destruct (H w). Qed.

Section Steps.
Import EmailProcessor.
Context (env : Env).

Lemma catchable_normalizer heading (body : M World DataFrame) intro :
  catchable body ->
  catchable
    (logger INFO intro ;;;
     try_except body
       (fun e =>
          if is_Exception e
          then logger ERROR (heading +:+ exn_str e) ;;; raise e
          else raise e)).
Proof.
  intros Hbody.
  apply tame_bind; [apply any_world_trans| |intros _].
  { intros w. split; [done|]. intros e [=]. }
  apply tame_try_except; [apply any_world_trans|exact Hbody|].
  intros e He. rewrite He.
  apply tame_bind; [apply any_world_trans| |intros _].
  { intros w. split; [done|]. intros e' [=]. }
  by apply tame_raise.
Qed.

Lemma catchable_read_excel file_path :
  catchable (call ValueError (fun w => read_excel env w file_path)).
Proof.
  intros w. split; [done|]. unfold call. cbn.
  destruct (read_excel env w file_path); cbn; [done|]. by intros e [= <-].
Qed.

Lemma catchable_check_required required df :
  catchable (check_required required df).
Proof.
  unfold check_required. destruct (missing_columns required df).
  - by apply tame_ret.
  - by apply tame_raise.
Qed.

Lemma catchable_add_timestamp df : catchable (add_timestamp env df).
Proof.
  intros w. split; [done|].
  destruct (add_timestamp_default env df w) as (w' & -> & _). intros e [=].
Qed.

Lemma catchable_process_loa_file self file_path :
  catchable (process_loa_file env self file_path).
Proof.
  apply catchable_normalizer.
  apply tame_bind; [apply any_world_trans|apply catchable_read_excel|].
  intros df. cbv zeta.
  apply tame_bind; [apply any_world_trans|apply catchable_check_required|].
  intros _.
  apply tame_bind; [apply any_world_trans|apply catchable_add_timestamp|].
  intros df'. intros w. split; [done|]. intros e [=].
Qed.

Lemma catchable_process_to_file self file_path :
  catchable (process_to_file env self file_path).
Proof.
  apply catchable_normalizer.
  apply tame_bind; [apply any_world_trans|apply catchable_read_excel|].
  intros df. cbv zeta.
  apply tame_bind; [apply any_world_trans|apply catchable_check_required|].
  intros _.
  apply tame_bind; [apply any_world_trans|apply catchable_add_timestamp|].
  intros df'. intros w. split; [done|]. intros e [=].
Qed.

Lemma append_to_gsheet_total self df sheet_type w :
  exists b w', append_to_gsheet self df sheet_type w = (Ok b, w').
Proof.
  unfold append_to_gsheet. unfold bind at 1. unfold logger at 1.
  set (w1 := mkWorld _ _ _ _). unfold try_except.
  match goal with
  | |- context [match ?body w1 with _ => _ end] =>
      assert (Hbody : quiet body);
      [|destruct (Hbody w1) as [_ Hexn];
        destruct (body w1) as [[b|e] w2]]
  end.
  - pose proof quiet_sheet_of. pose proof quiet_write_with_headers.
    pose proof quiet_write_below. quiet_auto.
  - by eexists _, _.
  - rewrite (Hexn e eq_refl). by eexists _, _.
Qed.

Lemma archive_file_total self file_path kind w :
  exists location w', archive_file env self file_path kind w = (Ok location, w').
Proof.
  unfold archive_file, try_except.
  match goal with
  | |- context [match ?body w with _ => _ end] =>
      assert (Hbody : sheetless body);
      [|destruct (Hbody w) as [_ Hexn];
        destruct (body w) as [[r|e] w2]]
  end.
  - pose proof (sheetless_archive_local env).
    pose proof (sheetless_archive_drive env).
    sheetless_auto.
  - by eexists _, _.
  - rewrite (Hexn e eq_refl). by eexists _, _.
Qed.

End Steps.

Section Run.
Import EmailProcessor.
Import Pipeline.
Context (env : Env) (self : Self).

(** An entry says [archived] only for a file that was appended and has a
    location, and an entry with an error is a failure. *)
Definition coherent (o : Outcome) : Prop :=
  (out_archived o = true -> out_success o = true)
  /\ (out_archived o = true <-> is_Some (out_archive_location o))
  /\ (is_Some (out_error o) ->
      out_success o = false /\ out_records o = 0 /\ out_date o = None).

Definition outcome_of (fi : FileInfo) (o : Outcome) : Prop :=
  out_file o = fi_filename fi /\ out_type o = fi_type fi /\ coherent o.

Lemma within_cases {A} (m : M EmailProcessor.World A) w :
  catchable m ->
  (exists a w', within m w = (Ok a, w'))
  \/ (exists e w', within m w = (Raise e, w') /\ is_Exception e = true).
Proof.
  intros Hm. unfold within. destruct (Hm (base w)) as [_ Hexn].
  destruct (m (base w)) as [[a|e] b].
  - left. by eexists _, _.
  - right. eexists _, _. split; [reflexivity|]. by apply Hexn.
Qed.

Lemma within_total {A} (m : M EmailProcessor.World A) w :
  (forall b, exists a b', m b = (Ok a, b')) ->
  exists a w', within m w = (Ok a, w').
Proof.
  intros Hm. unfold within. destruct (Hm (base w)) as (a & b' & ->).
  by eexists _, _.
Qed.

(** Lines 574-588 *)
Definition conclude (fi : FileInfo) (df : DataFrame) (success : bool)
    : M World (list Outcome) :=
  archive_location <-
    (if success
     then within (archive_file (sheets_env env) (processor self)
                    (fi_path fi) (fi_type fi))
     else ret None) ;;
  ret [mkOutcome (fi_filename fi)
         (Some match WorkdayFiles.extract_date_from_filename (fi_filename fi) with
               | Some t => strftime_date env t
               | None => "unknown date"
               end)
         (fi_type fi) (length (rows df)) success
         (bool_decide (is_Some archive_location)) archive_location None].

Lemma conclude_outcome fi df success w :
  exists o w', conclude fi df success w = (Ok [o], w') /\ outcome_of fi o.
Proof.
  unfold conclude, bind. destruct success.
  - destruct (within_total
                (archive_file (sheets_env env) (processor self)
                   (fi_path fi) (fi_type fi)) w) as (loc & w' & ->).
    { intros b. apply archive_file_total. }
    eexists _, _. split; [reflexivity|]. split; [done|]. split; [done|].
    split; [|split]; cbn.
    + done.
    + by rewrite bool_decide_eq_true.
    + by intros [? [=]].
  - eexists _, _. split; [reflexivity|]. split; [done|]. split; [done|].
    split; [|split]; cbn.
    + done.
    + split; [done|by intros [? [=]]].
    + by intros [? [=]].
Qed.

Lemma handle_unfold fi :
  handle env self fi
  = (processed <-
       (if String.eqb (fi_type fi) "loa" then
          df <- within (process_loa_file (sheets_env env) (processor self)
                          (fi_path fi)) ;;
          success <- within (append_to_gsheet (processor self) df "loa") ;;
          ret (Some (df, success))
        else if String.eqb (fi_type fi) "to" then
          df <- within (process_to_file (sheets_env env) (processor self)
                          (fi_path fi)) ;;
          success <- within (append_to_gsheet (processor self) df "to") ;;
          ret (Some (df, success))
        else
          logger WARNING ("Unknown file type for: "
                          +:+ to_string (fi_path fi)) ;;;
          ret None) ;;
     match processed with
     | None => ret []
     | Some (df, success) => conclude fi df success
     end).
Proof. reflexivity. Qed.

Lemma handle_cases fi w :
  fi_type fi = "loa" \/ fi_type fi = "to" ->
  (exists o w', handle env self fi w = (Ok [o], w') /\ outcome_of fi o)
  \/ (exists e w', handle env self fi w = (Raise e, w')
                   /\ is_Exception e = true).
Proof.
  intros Hkind.
  assert (Hshape : forall (normalize : Path -> M EmailProcessor.World DataFrame)
                     kind,
            catchable (normalize (fi_path fi)) ->
            (exists o w',
               (processed <-
                  (df <- within (normalize (fi_path fi)) ;;
                   success <- within (append_to_gsheet (processor self) df kind) ;;
                   ret (Some (df, success))) ;;
                match processed with
                | None => ret []
                | Some (df, success) => conclude fi df success
                end) w = (Ok [o], w') /\ outcome_of fi o)
            \/ (exists e w',
                  (processed <-
                     (df <- within (normalize (fi_path fi)) ;;
                      success <- within (append_to_gsheet (processor self) df kind) ;;
                      ret (Some (df, success))) ;;
                   match processed with
                   | None => ret []
                   | Some (df, success) => conclude fi df success
                   end) w = (Raise e, w')
                  /\ is_Exception e = true)).
  { intros normalize kind Hn. unfold bind.
    destruct (within_cases (normalize (fi_path fi)) w Hn)
      as [(df & w1 & ->)|(e & w1 & -> & He)].
    - destruct (within_total (append_to_gsheet (processor self) df kind) w1)
        as (success & w2 & ->).
      { intros b. apply append_to_gsheet_total. }
      left. cbv beta iota. unfold ret at 1. cbv beta iota.
      apply conclude_outcome.
    - right. by exists e, w1. }
  rewrite handle_unfold.
  destruct (String.eqb (fi_type fi) "loa") eqn:Hloa.
  - apply (Hshape (process_loa_file (sheets_env env) (processor self)) "loa").
    apply catchable_process_loa_file.
  - destruct (String.eqb (fi_type fi) "to") eqn:Hto.
    + apply (Hshape (process_to_file (sheets_env env) (processor self)) "to").
      apply catchable_process_to_file.
    + apply String.eqb_neq in Hloa, Hto. by destruct Hkind.
Qed.

(** One round of the loop gives one entry, whatever happens to the file. *)
Lemma process_file_outcome fi w :
  fi_type fi = "loa" \/ fi_type fi = "to" ->
  exists o w', process_file env self fi w = (Ok [o], w') /\ outcome_of fi o.
Proof.
  intros Hkind. unfold process_file, try_except.
  destruct (handle_cases fi w Hkind)
    as [(o & w1 & -> & Ho)|(e & w1 & -> & He)].
  - by exists o, w1.
  - rewrite He. eexists _, _. split; [reflexivity|].
    split; [done|]. split; [done|]. split; [|split]; cbn; try done.
Qed.

Lemma collect_process_file found w :
  Forall (fun fi => fi_type fi = "loa" \/ fi_type fi = "to") found ->
  exists results w',
    collect found (process_file env self) w = (Ok results, w')
    /\ Forall2 outcome_of found results.
Proof.
  intros Hall. revert w. induction Hall as [|fi rest Hfi Hrest IH]; intros w.
  - exists [], w. split; [done|]. constructor.
  - cbn [collect]. unfold bind at 1.
    destruct (process_file_outcome fi w Hfi) as (o & w1 & -> & Ho).
    unfold bind at 1. destruct (IH w1) as (results & w2 & -> & Hres).
    exists (o :: results), w2. split; [done|]. by constructor.
Qed.

Lemma summary_total results w :
  exists w',
    for_each results (fun r => logger INFO (summary_line r)) w = (Ok tt, w')
    /\ fs (base w') = fs (base w).
Proof.
  revert w. induction results as [|r rest IH]; intros w.
  - by exists w.
  - cbn [for_each]. unfold bind, logger at 1, within. cbn.
    match goal with
    | |- context [for_each rest _ ?w1] =>
        destruct (IH w1) as (w' & -> & Hfs)
    end.
    by exists w'.
Qed.

(** The [finally] block never raises; when the directory can be removed,
    nothing is left below it. *)
Lemma cleanup_outcome w :
  exists w',
    cleanup env self w = (Ok tt, w')
    /\ (rmtree env w (temp_dir self) = Done tt ->
        forall p, temp_dir self `prefix_of` p -> fs (base w') !! p = None).
Proof.
  unfold cleanup, try_except, bind, remove_tree.
  destruct (rmtree env w (temp_dir self)) as [[]|msg].
  - eexists. split; [reflexivity|]. intros _ p Hp. cbn.
    apply map_lookup_filter_None. right. intros d _. cbn. by intros Hn.
  - eexists. split; [reflexivity|]. done.
Qed.

(** The body of the [try] of lines 542-608. *)
Definition run_body : M World (option (list Outcome)) :=
  downloaded_files <- fetch_email_attachments env self ;;
  match downloaded_files with
  | [] => logger INFO "No new files found in emails" ;;; ret None
  | _ =>
      results <- collect downloaded_files (process_file env self) ;;
      logger INFO "Process completed. Summary:" ;;;
      for_each results (fun r => logger INFO (summary_line r)) ;;;
      ret (Some results)
  end.

Definition run_started (w : World) : World :=
  (logger INFO "Starting Workday email to Google Sheets process" w).2.

Lemma run_body_outcome w :
  exists found w1 r w2,
    fetch_email_attachments env self w = (Ok found, w1)
    /\ run_body w = (Ok r, w2)
    /\ match r with
       | None => found = []
       | Some results => found <> [] /\ Forall2 outcome_of found results
       end.
Proof.
  destruct (fetch_email_attachments_cases env self w)
    as ([found|e] & w1 & _ & _ & Hr).
  - destruct Hr as [Hrun Hf]. exists found, w1. unfold run_body, bind at 1.
    rewrite Hrun. destruct found as [|fi rest].
    + by eexists None, _.
    + unfold bind at 1.
      destruct (collect_process_file (fi :: rest) w1) as (results & w2 & -> & Hres).
      { eapply Forall_impl; [exact Hf|]. intros x [Hx _].
        by eapply recognised_kind. }
      unfold bind at 1, logger at 1, within. cbn [base mailbox].
      cbn [EmailProcessor.logger]. unfold bind at 1.
      match goal with
      | |- context [for_each results _ ?w3] =>
          destruct (summary_total results w3) as (w4 & -> & _)
      end.
      eexists (Some results), _. split; [done|]. split; [reflexivity|].
      by split.
  - destruct Hr as (w3 & Hrun & _). exists [], w3. unfold run_body, bind at 1.
    rewrite Hrun. by eexists None, _.
Qed.

Lemma run_unfold w :
  run env self w
  = try_finally
      (try_except run_body
         (fun e =>
            if is_Exception e
            then logger ERROR ("Error in main process: " +:+ exn_str e) ;;;
                 raise e
            else raise e))
      (cleanup env self) (run_started w).
Proof. reflexivity. Qed.

(** The main process never raises. It returns nothing when the fetch found
    nothing; otherwise it returns one entry for each fetched file, in the
    order of the fetch, with the file's name and kind. *)
Theorem run_returns (w : World) :
  exists found w1 r w',
    fetch_email_attachments env self (run_started w) = (Ok found, w1)
    /\ run env self w = (Ok r, w')
    /\ match r with
       | None => found = []
       | Some results => found <> [] /\ Forall2 outcome_of found results
       end.
Proof.
  destruct (run_body_outcome (run_started w))
    as (found & w1 & r & w2 & Hfetch & Hbody & Hr).
  destruct (cleanup_outcome w2) as (w3 & Hclean & _).
  exists found, w1, r, w3. split; [done|]. split; [|done].
  rewrite run_unfold. unfold try_finally, try_except.
  by rewrite Hbody, Hclean.
Qed.

(** Whatever happened before, when the temporary directory can be removed
    the main process leaves no file below it. *)
Theorem run_removes_temp_dir (w : World) (p : Path) :
  (forall w', rmtree env w' (temp_dir self) = Done tt) ->
  temp_dir self `prefix_of` p ->
  fs (base (run env self w).2) !! p = None.
Proof.
  intros Hrm Hp. rewrite run_unfold. unfold try_finally.
  match goal with
  | |- context [let (_, _) := ?body (run_started w) in _] =>
      destruct (body (run_started w)) as [r w2]
  end.
  destruct (cleanup_outcome w2) as (w3 & -> & Hgone). cbn.
  by apply Hgone.
Qed.

End Run.

Lemma fetch_email_attachments_close_failure_witness :
  (Pipeline.fetch_email_attachments
     (Inbox.mail_env Inbox.leave_mail (Failed "BYE")) Inbox.risk Inbox.fresh).1
  = Ok [].
Proof.
  apply (fetch_email_attachments_close_failure
           (Inbox.mail_env Inbox.leave_mail (Failed "BYE")) Inbox.risk
           Inbox.fresh).
  left. intros w'. by exists "BYE".
Defined.

(** In that run the attachment is on disk and its message is marked as
    seen, although the fetch returns no entry. *)
Example close_failure_leaves_the_file :
  let out := Pipeline.fetch_email_attachments
               (Inbox.mail_env Inbox.leave_mail (Failed "BYE"))
               Inbox.risk Inbox.fresh in
  out.1 = Ok []
  /\ EmailProcessor.fs (Pipeline.base out.2)
       !! (Inbox.temp ++ [Inbox.leave_name])
     = Some (EmailProcessor.Bytes "PK")
  /\ Pipeline.mailbox out.2 = [("1", "store", "+FLAGS \Seen")].
Proof. vm_compute. done. Qed.

Lemma run_removes_temp_dir_witness :
  EmailProcessor.fs
    (Pipeline.base
       (Pipeline.run (Inbox.mail_env Inbox.leave_mail (Done tt))
          Inbox.risk Inbox.fresh).2)
    !! (Inbox.temp ++ [Inbox.leave_name])
  = None.
Proof.
  apply (run_removes_temp_dir
           (Inbox.mail_env Inbox.leave_mail (Done tt)) Inbox.risk Inbox.fresh).
  - intros w'. reflexivity.
  - by exists [Inbox.leave_name].
Defined.

(** The run of a mailbox whose attachment cannot be appended: one entry,
    a failure that is not archived. *)
Example run_leave_mail :
  (Pipeline.run (Inbox.mail_env Inbox.leave_mail (Done tt))
     Inbox.risk Inbox.fresh).1
  = Ok (Some [Pipeline.mkOutcome Inbox.leave_name (Some "2025-03-12") "loa" 1
                false false None None]).
Proof. vm_compute. done. Qed.

(** An attachment whose name is an absolute path is written there, and
    the file is still there when the run is over. *)
Example run_keeps_absolute_attachment :
  EmailProcessor.fs
    (Pipeline.base
       (Pipeline.run (Inbox.mail_env [Inbox.shared_part] (Done tt))
          Inbox.risk Inbox.fresh).2)
    !! ["/"; "srv"; "share"; "Time Off 20250312.xlsx"]
  = Some (EmailProcessor.Bytes "PK").
Proof. vm_compute. done. Qed.

Lemma save_results_files_witness :
  exists w',
    SaveResults.save_results Reports.writable Reports.macro_log
      Reports.comparisons "orders" Reports.nothing
    = (Ok (Some ["model_comparisons"; "orders_comparison_20250312_070000"]), w')
    /\ SaveResults.files w'
         !! ["model_comparisons"; "orders_comparison_20250312_070000";
             "model_comparison.csv"]
       = Some (SaveResults.CsvFile
                 [["version"; "row_count"]; ["-------"; "---------"];
                  ["main"; "100"]; ["current"; "101"]]).
Proof.
  destruct (save_results_files Reports.writable Reports.macro_log
              Reports.comparisons "orders" Reports.nothing
              (fun _ _ => eq_refl) (fun _ _ _ => eq_refl))
    as (w' & Hrun & _ & _ & Hcsv & _).
  exists w'. split; [exact Hrun|exact Hcsv].
Defined.

(** On a disk that is full after the report, the function returns [None]
    with the report written and the raw output printed. *)
Example save_results_full_disk :
  let out := SaveResults.save_results Reports.full_disk Reports.macro_log
               Reports.comparisons "orders" Reports.nothing in
  out.1 = Ok None
  /\ is_Some (SaveResults.files out.2
                !! ["model_comparisons"; "orders_comparison_20250312_070000";
                    "model_comparison.txt"])
  /\ SaveResults.files out.2
       !! ["model_comparisons"; "orders_comparison_20250312_070000";
           "raw_output.txt"] = None
  /\ last (SaveResults.stdout out.2) = Some Reports.macro_log.
Proof. vm_compute. split; [done|]. split; [by eexists|done]. Qed.
